(** * fetch_commits.py: a shallow embedding and its verified properties

    The program asks the GitHub REST API for every repository of the
    authenticated user, pages through the commits of each one inside a date
    window, sorts the union newest first and reports it on the console, as
    CSV and as Markdown.

    Layout of this development:
    - strings and small Python built-ins ([str.split], [str.replace], slices,
      [str.strip], the stable [list.sort] with [reverse=True], the
      insertion-ordered [dict]);
    - the data of the API, the world the script runs in (request log, stdout,
      stdin, files) and a state-and-exception monad over it;
    - models of the [csv] writer and reader (excel dialect);
    - the functions of [fetch_commits.py], one definition per function, the
      [while True] loops as fixpoints on a number of iterations;
    - the vocabulary of the statements and sample services;
    - the theorems.

    Conventions of the model:
    - a Python [str] is a [string] of bytes (its UTF-8 encoding); slices and
      comparisons agree with Python's on ASCII, and comparison agrees on all
      strings, UTF-8 keeping the order of code points;
    - the JSON body of an answer with status 200 is read at the type the
      script uses it at, so a missing key or a body of another shape is not
      modelled, except for the key ['repository'] of a commit, which the
      script itself adds; the body of a refused page of the repository
      listing, which the script decodes and prints, may fail to decode;
    - the service answers a request by a function of the request alone;
    - [datetime.strptime] and [datetime.strftime] are parameters. *)

From Stdlib Require Import String Ascii List Arith Lia Bool DecimalString Decimal.
From Stdlib Require Import Sorted Permutation.
From stdpp Require Import base option list strings gmap.

Open Scope string_scope.
Open Scope list_scope.

(** ** Strings and Python built-ins *)

Module Py.

(** The line feed and carriage return characters. *)
Definition LF : ascii := "010"%char.
Definition CR : ascii := "013"%char.
Definition nl : string := String LF "".

(** [str(n)] for a non-negative integer. *)
Definition str_of_nat (n : nat) : string := NilEmpty.string_of_uint (Nat.to_uint n).

(** [s * n] *)
Fixpoint repeat_str (s : string) (n : nat) : string :=
  match n with
  | 0 => ""
  | S n' => s +:+ repeat_str s n'
  end.

(** [s.replace(c, by)] for a one-character pattern [c]. *)
Fixpoint replace (c : ascii) (by_ : string) (s : string) : string :=
  match s with
  | EmptyString => EmptyString
  | String a t =>
      if Ascii.eqb a c then by_ +:+ replace c by_ t else String a (replace c by_ t)
  end.

(** [s.split(c)] for a one-character separator: never empty, one more piece
    than there are separators. *)
Fixpoint split (c : ascii) (s : string) : list string :=
  match s with
  | EmptyString => [EmptyString]
  | String a t =>
      if Ascii.eqb a c then EmptyString :: split c t
      else match split c t with
           | [] => [String a EmptyString]
           | piece :: rest => String a piece :: rest
           end
  end.

(** [s.split(c)[0]] *)
Definition first_piece (c : ascii) (s : string) : string :=
  match split c s with
  | [] => EmptyString
  | piece :: _ => piece
  end.

(** [s[:n]] *)
Definition slice_to (n : nat) (s : string) : string := String.substring 0 n s.

(** Truthiness of a string: [not s] is [s == ""]. *)
Definition truthy_str (s : option string) : bool :=
  match s with
  | None => false
  | Some EmptyString => false
  | Some _ => true
  end.

(** [s.strip()]: Python's ASCII white space is 9-13, 28-31 and 32. *)
Definition is_space (c : ascii) : bool :=
  let n := nat_of_ascii c in
  ((9 <=? n)%nat && (n <=? 13)%nat) || ((28 <=? n)%nat && (n <=? 32)%nat).

Fixpoint lstrip (s : string) : string :=
  match s with
  | EmptyString => EmptyString
  | String c t => if is_space c then lstrip t else s
  end.

Fixpoint rstrip (s : string) : string :=
  match s with
  | EmptyString => EmptyString
  | String c t =>
      match rstrip t with
      | EmptyString => if is_space c then EmptyString else String c EmptyString
      | t' => String c t'
      end
  end.

Definition strip (s : string) : string := rstrip (lstrip s).

(** [s.lower()] on ASCII letters. *)
Definition lower_char (c : ascii) : ascii :=
  let n := nat_of_ascii c in
  if (65 <=? n)%nat && (n <=? 90)%nat then ascii_of_nat (n + 32) else c.

Fixpoint lower (s : string) : string :=
  match s with
  | EmptyString => EmptyString
  | String c t => String (lower_char c) (lower t)
  end.

(** [l.sort(key=key, reverse=True)]: the sort is stable, and with
    [reverse=True] elements of equal key still keep their original order.
    [insert_desc x l] puts [x] in front of the first element whose key is not
    above the key of [x]; sorting folds it from the right, so that an element
    ends up before the later elements of the same key. *)
Section Sort.
Context {A K : Type} (leb : K -> K -> bool) (key : A -> K).

Fixpoint insert_desc (x : A) (l : list A) : list A :=
  match l with
  | [] => [x]
  | y :: l' => if leb (key y) (key x) then x :: y :: l' else y :: insert_desc x l'
  end.

Fixpoint sort_desc (l : list A) : list A :=
  match l with
  | [] => []
  | x :: l' => insert_desc x (sort_desc l')
  end.
End Sort.

(** An insertion-ordered [dict] with string keys: assignment to a key that is
    present keeps its position, a new key goes to the end. *)
Section Dict.
Context {V : Type}.

Definition dict := list (string * V).

Fixpoint dict_get (k : string) (d : dict) : option V :=
  match d with
  | [] => None
  | (k', v) :: d' => if String.eqb k' k then Some v else dict_get k d'
  end.

Fixpoint dict_set (k : string) (v : V) (d : dict) : dict :=
  match d with
  | [] => [(k, v)]
  | (k', v') :: d' =>
      if String.eqb k' k then (k', v) :: d' else (k', v') :: dict_set k v d'
  end.

Definition dict_keys (d : dict) : list string := map fst d.
Definition dict_values (d : dict) : list V := map snd d.
End Dict.
Arguments dict : clear implicits.

End Py.
Export Py.

(** ** Data: what the API returns and what the script attaches *)

(** One entry of [GET /user/repos]; only the keys the script reads. *)
Record repository := {
  full_name : string;
  private : bool;
  repo_html_url : string
}.

(** The dictionary stored under [commit['repository']]. *)
Record repo_ref := {
  ref_full_name : string;
  ref_private : bool;
  ref_url : string
}.

(** One entry of [GET /repos/{owner}/{repo}/commits]; [committer_date] is
    [commit['commit']['committer']['date']], [message] is
    [commit['commit']['message']].  The key ['repository'] is absent from the
    API's answer ([None]) until [fetch_all_commits] assigns it. *)
Record commit := {
  sha : string;
  html_url : string;
  message : string;
  committer_date : string;
  commit_repository : option repo_ref
}.

Definition set_repository (c : commit) (r : repo_ref) : commit :=
  {| sha := sha c; html_url := html_url c; message := message c;
     committer_date := committer_date c; commit_repository := Some r |}.

(** ** HTTP *)

(** What [requests.get(url, headers=..., params=...)] sends. *)
Record request := {
  url : string;
  headers : list (string * string);
  params : list (string * string)
}.

(** [response.status_code], and the decoded body [response.json()] of an
    answer with status 200.  The body of any other answer is not of that
    shape: [error_json] is what [response.json()] gives for it, as [print]
    shows it, and [None] when the body is not JSON, so that
    [response.json()] raises. *)
Record response (A : Type) := {
  status_code : nat;
  json : A;
  error_json : option string
}.
Arguments status_code {A} _.
Arguments json {A} _.
Arguments error_json {A} _.

(** The remote service: a deterministic answer to every request, decoded at
    the type each call site reads it at. *)
Record github := {
  user_endpoint : request -> response string;             (* ['login'] *)
  repos_endpoint : request -> response (list repository);
  commits_endpoint : request -> response (list commit)
}.

(** ** The world and the monad of the script *)

Inductive exn := ValueError | KeyError | EOFError | JSONDecodeError.

(** How a computation ends: with a value, with an uncaught exception, with
    [sys.exit(code)], or not within the given number of loop iterations. *)
Inductive outcome (A : Type) :=
| Returned (a : A)
| Raised (e : exn)
| Exited (code : nat)
| OutOfFuel.
Arguments Returned {A} a.
Arguments Raised {A} e.
Arguments Exited {A} code.
Arguments OutOfFuel {A}.

Record world := {
  requests : list request;            (* requests issued, oldest first *)
  stdout : list string;               (* printed chunks, oldest first *)
  stdin : list string;                (* lines [input()] has yet to read *)
  files : gmap string (list string)   (* per file, the chunks written to it *)
}.

Definition M (A : Type) : Type := world -> outcome A * world.

Definition ret {A} (a : A) : M A := fun w => (Returned a, w).

Definition bind {A B} (m : M A) (k : A -> M B) : M B :=
  fun w =>
    match m w with
    | (Returned a, w') => k a w'
    | (Raised e, w') => (Raised e, w')
    | (Exited c, w') => (Exited c, w')
    | (OutOfFuel, w') => (OutOfFuel, w')
    end.

#[global] Instance M_ret : MRet M := @ret.
#[global] Instance M_bind : MBind M := fun A B k m => bind m k.

Definition raise {A} (e : exn) : M A := fun w => (Raised e, w).
Definition sys_exit {A} (code : nat) : M A := fun w => (Exited code, w).
Definition out_of_fuel {A} : M A := fun w => (OutOfFuel, w).

(** [print(s, end=e)] and [print(s)] *)
Definition print_end (s e : string) : M unit :=
  fun w => (Returned tt,
            {| requests := requests w; stdout := stdout w ++ [s +:+ e];
               stdin := stdin w; files := files w |}).
Definition print (s : string) : M unit := print_end s nl.

(** [input(prompt)]: the prompt goes to stdout, the next line comes from
    stdin, [EOFError] when there is none. *)
Definition input (prompt : string) : M string :=
  fun w =>
    let w1 := {| requests := requests w; stdout := stdout w ++ [prompt];
                 stdin := stdin w; files := files w |} in
    match stdin w with
    | [] => (Raised EOFError, w1)
    | line :: rest =>
        (Returned line,
         {| requests := requests w1; stdout := stdout w1;
            stdin := rest; files := files w1 |})
    end.

(** [open(filename, 'w')] truncates, [f.write(s)] appends one chunk. *)
Definition fopen (filename : string) : M unit :=
  fun w => (Returned tt,
            {| requests := requests w; stdout := stdout w; stdin := stdin w;
               files := <[filename := []]> (files w) |}).
Definition fwrite (filename : string) (s : string) : M unit :=
  fun w => (Returned tt,
            {| requests := requests w; stdout := stdout w; stdin := stdin w;
               files := <[filename := default [] (files w !! filename) ++ [s]]> (files w) |}).

(** [requests.get]: the request is logged, the service answers. *)
Definition http_get {A} (endpoint : request -> response A) (r : request) : M (response A) :=
  fun w => (Returned (endpoint r),
            {| requests := requests w ++ [r]; stdout := stdout w;
               stdin := stdin w; files := files w |}).

(** [for x in l: body x] *)
Fixpoint for_each {A} (l : list A) (body : A -> M unit) : M unit :=
  match l with
  | [] => ret tt
  | x :: l' => body x;; for_each l' body
  end.

(** ** The [csv] module, excel dialect

    [csv.writer] and [csv.reader] belong to the Python library; they are
    modelled here for the default dialect the script uses: delimiter [,],
    the double quote as quote character, [doublequote], [QUOTE_MINIMAL],
    line terminator CR LF, no escape character, not strict. *)

Module Csv.

Definition delimiter : ascii := ","%char.
Definition quotechar : ascii := "034"%char.
Definition lineterminator : string := String CR (String LF "").

(** *** Writer *)

(** A character that forces the field into quotes. *)
Definition special (c : ascii) : bool :=
  Ascii.eqb c delimiter || Ascii.eqb c quotechar || Ascii.eqb c CR || Ascii.eqb c LF.

Fixpoint needs_quotes (s : string) : bool :=
  match s with
  | EmptyString => false
  | String c t => special c || needs_quotes t
  end.

(** Every quote character is doubled. *)
Fixpoint escape (s : string) : string :=
  match s with
  | EmptyString => EmptyString
  | String c t =>
      if Ascii.eqb c quotechar then String quotechar (String quotechar (escape t))
      else String c (escape t)
  end.

Definition write_field (s : string) : string :=
  if needs_quotes s then String quotechar (escape s +:+ String quotechar "") else s.

Fixpoint join_fields (fs : list string) : string :=
  match fs with
  | [] => ""
  | [f] => write_field f
  | f :: fs' => write_field f +:+ String delimiter (join_fields fs')
  end.

(** [writer.writerow(fs)]: the text handed to the file's [write].  A record
    made of one empty field is written as a pair of quotes. *)
Definition writerow (fs : list string) : string :=
  match fs with
  | [EmptyString] => String quotechar (String quotechar lineterminator)
  | _ => join_fields fs +:+ lineterminator
  end.

(** *** Reader *)

Inductive parser_state :=
| START_RECORD | START_FIELD | IN_FIELD
| IN_QUOTED_FIELD | QUOTE_IN_QUOTED_FIELD | EAT_CRNL.

Record reader := {
  state : parser_state;
  field : string;            (* the characters of the field being read *)
  fields : list string       (* the fields of the record read so far *)
}.

Definition reset : reader := {| state := START_RECORD; field := ""; fields := [] |}.

Definition add_char (r : reader) (c : ascii) (st : parser_state) : reader :=
  {| state := st; field := field r +:+ String c ""; fields := fields r |}.

Definition save_field (r : reader) (st : parser_state) : reader :=
  {| state := st; field := ""; fields := fields r ++ [field r] |}.

Definition set_state (r : reader) (st : parser_state) : reader :=
  {| state := st; field := field r; fields := fields r |}.

Definition is_newline (c : ascii) : bool := Ascii.eqb c LF || Ascii.eqb c CR.

(** One step of the reader's automaton; [None] as input is the end-of-line
    mark the reader feeds itself after each line, [None] as result is
    [csv.Error]. *)
Definition start_field (r : reader) (c : option ascii) : option reader :=
  match c with
  | None => Some (save_field r START_RECORD)
  | Some c =>
      if is_newline c then Some (save_field r EAT_CRNL)
      else if Ascii.eqb c quotechar then Some (set_state r IN_QUOTED_FIELD)
      else if Ascii.eqb c delimiter then Some (save_field r START_FIELD)
      else Some (add_char r c IN_FIELD)
  end.

Definition process_char (r : reader) (c : option ascii) : option reader :=
  match state r with
  | START_RECORD =>
      match c with
      | None => Some r
      | Some c' =>
          if is_newline c' then Some (set_state r EAT_CRNL)
          else start_field r c
      end
  | START_FIELD => start_field r c
  | IN_FIELD =>
      match c with
      | None => Some (save_field r START_RECORD)
      | Some c =>
          if is_newline c then Some (save_field r EAT_CRNL)
          else if Ascii.eqb c delimiter then Some (save_field r START_FIELD)
          else Some (add_char r c IN_FIELD)
      end
  | IN_QUOTED_FIELD =>
      match c with
      | None => Some r
      | Some c =>
          if Ascii.eqb c quotechar then Some (set_state r QUOTE_IN_QUOTED_FIELD)
          else Some (add_char r c IN_QUOTED_FIELD)
      end
  | QUOTE_IN_QUOTED_FIELD =>
      match c with
      | None => Some (save_field r START_RECORD)
      | Some c =>
          if Ascii.eqb c quotechar then Some (add_char r c IN_QUOTED_FIELD)
          else if Ascii.eqb c delimiter then Some (save_field r START_FIELD)
          else if is_newline c then Some (save_field r EAT_CRNL)
          else Some (add_char r c IN_FIELD)
      end
  | EAT_CRNL =>
      match c with
      | None => Some (set_state r START_RECORD)
      | Some c => if is_newline c then Some r else None
      end
  end.

(** A file opened with [newline=''] is read line by line, a line ending
    after LF, after CR LF, or after a CR that no LF follows. *)
Definition ends_line (c : ascii) (rest : string) : bool :=
  Ascii.eqb c LF
  || (Ascii.eqb c CR && match rest with
                        | String c' _ => negb (Ascii.eqb c' LF)
                        | EmptyString => true
                        end).

(** What the reader returns when the input ends inside a record. *)
Definition at_eof (r : reader) : list (list string) :=
  match state r, field r with
  | IN_QUOTED_FIELD, _ => [fields r ++ [field r]]
  | START_RECORD, _ => []
  | _, EmptyString => []
  | _, _ => [fields r ++ [field r]]
  end.

(** The rows of a whole file.  Each character goes through the automaton;
    at the end of a line the end-of-line mark follows, and a record is
    complete when the automaton is back in [START_RECORD].  [pending] says
    that the current line has characters and no terminator yet. *)
Fixpoint read_from (r : reader) (pending : bool) (s : string)
    : option (list (list string)) :=
  match s with
  | EmptyString =>
      if pending then
        r' ← process_char r None;
        match state r' with
        | START_RECORD => Some [fields r']
        | _ => Some (at_eof r')
        end
      else Some (at_eof r)
  | String c t =>
      r1 ← process_char r (Some c);
      if ends_line c t then
        r2 ← process_char r1 None;
        match state r2 with
        | START_RECORD => cons (fields r2) <$> read_from reset false t
        | _ => read_from r2 false t
        end
      else read_from r1 true t
  end.

(** [list(csv.reader(f))] *)
Definition read (s : string) : option (list (list string)) := read_from reset false s.

End Csv.

(** ** The script *)

Section Script.

(** The remote service the run talks to. *)
Variable gh : github.

(** [datetime.strptime(data, format)] ([None] for [ValueError]) and
    [datetime.strftime(format)], left to the Python library. *)
Variable datetime : Type.
Variable strptime : string -> string -> option datetime.
Variable strftime : datetime -> string -> string.

(** The module-level configuration read from the environment by
    [os.getenv], and [sys.argv]. *)
Variable GITHUB_TOKEN : option string.
Variable USERNAME : option string.
Variable argv : list string.

(** *** class GitHubCommitsFetcher *)

Record GitHubCommitsFetcher := {
  username : string;
  token : string;
  self_headers : list (string * string);
  base_url : string
}.

Definition auth_headers (token : string) : list (string * string) :=
  [("Authorization", "token " +:+ token);
   ("Accept", "application/vnd.github.v3+json")].

(** [__init__] *)
Definition new_fetcher (username token : string) : GitHubCommitsFetcher :=
  {| username := username; token := token;
     self_headers := auth_headers token;
     base_url := "https://api.github.com" |}.

Definition repos_request (self : GitHubCommitsFetcher) (page : nat) : request :=
  {| url := base_url self +:+ "/user/repos";
     headers := self_headers self;
     params := [("per_page", str_of_nat 100); ("page", str_of_nat page);
                ("affiliation", "owner,collaborator,organization_member")] |}.

(** The [while True] loop of [get_all_repositories], one iteration per unit
    of fuel; [repos] and [page] are the loop's variables. *)
Fixpoint get_all_repositories_loop (fuel : nat) (self : GitHubCommitsFetcher)
    (repos : list repository) (page : nat) : M (list repository) :=
  match fuel with
  | 0 => out_of_fuel
  | S fuel' =>
      response ← http_get (repos_endpoint gh) (repos_request self page);
      if negb (status_code response =? 200)%nat then
        print ("Error fetching repositories: " +:+ str_of_nat (status_code response));;
        (* print(response.json()) *)
        match error_json response with
        | None => raise JSONDecodeError
        | Some body => print body;; mret repos
        end
      else
        let batch := json response in
        match batch with
        | [] => mret repos
        | _ :: _ =>
            let repos := repos ++ batch in
            if (length batch <? 100)%nat then mret repos
            else get_all_repositories_loop fuel' self repos (page + 1)
        end
  end.

Definition get_all_repositories (fuel : nat) (self : GitHubCommitsFetcher)
    : M (list repository) :=
  print "Fetching your repositories (including private)...";;
  repos ← get_all_repositories_loop fuel self [] 1;
  print ("Found " +:+ str_of_nat (length repos) +:+ " repositories");;
  mret repos.

Definition commits_request (self : GitHubCommitsFetcher) (url : string)
    (start_date end_date : string) (page : nat) : request :=
  {| url := url;
     headers := self_headers self;
     params := [("author", username self);
                ("since", start_date +:+ "T00:00:00Z");
                ("until", end_date +:+ "T23:59:59Z");
                ("per_page", str_of_nat 100);
                ("page", str_of_nat page)] |}.

(** The [while True] loop of [get_commits_from_repo]. *)
Fixpoint get_commits_loop (fuel : nat) (self : GitHubCommitsFetcher)
    (url start_date end_date : string) (commits : list commit) (page : nat)
    : M (list commit) :=
  match fuel with
  | 0 => out_of_fuel
  | S fuel' =>
      response ← http_get (commits_endpoint gh)
                   (commits_request self url start_date end_date page);
      if negb (status_code response =? 200)%nat then mret commits
      else
        let batch := json response in
        match batch with
        | [] => mret commits
        | _ :: _ =>
            let commits := commits ++ batch in
            if (length batch <? 100)%nat then mret commits
            else get_commits_loop fuel' self url start_date end_date commits (page + 1)
        end
  end.

(** [owner, repo = repo_full_name.split('/')] raises [ValueError] unless the
    split has exactly two pieces. *)
Definition commits_url (self : GitHubCommitsFetcher) (repo_full_name : string)
    : option string :=
  match split "/" repo_full_name with
  | [owner; repo] =>
      Some (base_url self +:+ "/repos/" +:+ owner +:+ "/" +:+ repo +:+ "/commits")
  | _ => None
  end.

Definition get_commits_from_repo (fuel : nat) (self : GitHubCommitsFetcher)
    (repo_full_name start_date end_date : string) : M (list commit) :=
  match commits_url self repo_full_name with
  | None => raise ValueError
  | Some url => get_commits_loop fuel self url start_date end_date [] 1
  end.

(** ["[PRIVATE]" if is_private else "[PUBLIC]"] *)
Definition privacy_label_of (is_private : bool) : string :=
  if is_private then "[PRIVATE]" else "[PUBLIC]".

(** The dictionary assigned to [commit['repository']]. *)
Definition ref_of (repo : repository) : repo_ref :=
  {| ref_full_name := full_name repo;
     ref_private := private repo;
     ref_url := repo_html_url repo |}.

(** The [for i, repo in enumerate(repos, 1)] loop of [fetch_all_commits];
    [total] is [len(repos)], [all_commits] and [repo_commit_count] are the
    accumulators. *)
Fixpoint fetch_repos_loop (fuel : nat) (self : GitHubCommitsFetcher)
    (start_date end_date : string) (todo : list repository) (i total : nat)
    (all_commits : list commit) (repo_commit_count : dict nat)
    : M (list commit * dict nat) :=
  match todo with
  | [] => mret (all_commits, repo_commit_count)
  | repo :: todo' =>
      let repo_name := full_name repo in
      let is_private := private repo in
      let privacy_label := privacy_label_of is_private in
      print_end ("[" +:+ str_of_nat i +:+ "/" +:+ str_of_nat total +:+ "] "
                 +:+ privacy_label +:+ " " +:+ repo_name +:+ "...") " ";;
      commits ← get_commits_from_repo fuel self repo_name start_date end_date;
      match commits with
      | _ :: _ =>
          let commits := map (fun c => set_repository c (ref_of repo)) commits in
          print ("✓ " +:+ str_of_nat (length commits) +:+ " commits");;
          fetch_repos_loop fuel self start_date end_date todo' (S i) total
            (all_commits ++ commits)
            (dict_set repo_name (length commits) repo_commit_count)
      | [] =>
          print "✓ 0 commits";;
          fetch_repos_loop fuel self start_date end_date todo' (S i) total
            all_commits repo_commit_count
      end
  end.

Definition fetch_all_commits (fuel : nat) (self : GitHubCommitsFetcher)
    (start_date end_date : string) : M (list commit * dict nat) :=
  repos ← get_all_repositories fuel self;
  print (nl +:+ "Fetching commits from " +:+ start_date +:+ " to " +:+ end_date +:+ "...");;
  print (repeat_str "-" 80);;
  '(all_commits, repo_commit_count) ←
    fetch_repos_loop fuel self start_date end_date repos 1 (length repos) [] [];
  mret (sort_desc String.leb committer_date all_commits, repo_commit_count).

(** *** Reports *)

(** [sorted(repo_commit_count.items(), key=lambda x: x[1], reverse=True)] *)
Definition by_count_desc (repo_commit_count : dict nat) : list (string * nat) :=
  sort_desc Nat.leb snd repo_commit_count.

(** The body of the detailed list of [display_commits] for the commit
    numbered [i]: the subscripts come first ([KeyError] when the commit has
    no ['repository']), then the date is parsed ([ValueError]), then the six
    lines are printed. *)
Definition display_commit (i : nat) (commit : commit) : M unit :=
  match commit_repository commit with
  | None => raise KeyError
  | Some repository =>
      let repo_name := ref_full_name repository in
      let is_private := ref_private repository in
      let privacy_label := privacy_label_of is_private in
      let commit_msg := first_piece LF (message commit) in
      let commit_date := committer_date commit in
      let commit_url := html_url commit in
      let sha := slice_to 7 (sha commit) in
      match strptime commit_date "%Y-%m-%dT%H:%M:%SZ" with
      | None => raise ValueError
      | Some date_obj =>
          let formatted_date := strftime date_obj "%Y-%m-%d %H:%M" in
          print (str_of_nat i +:+ ". " +:+ privacy_label +:+ " [" +:+ repo_name +:+ "]");;
          print ("   SHA: " +:+ sha);;
          print ("   Date: " +:+ formatted_date);;
          print ("   Message: " +:+ commit_msg);;
          print ("   URL: " +:+ commit_url);;
          print ""
      end
  end.

(** [for i, commit in enumerate(commits, i)] *)
Fixpoint display_commit_list (i : nat) (commits : list commit) : M unit :=
  match commits with
  | [] => mret tt
  | commit :: commits' =>
      display_commit i commit;; display_commit_list (S i) commits'
  end.

Definition display_commits (commits : list commit) (repo_commit_count : dict nat)
    : M unit :=
  match commits with
  | [] =>
      print (nl +:+ repeat_str "=" 80);;
      print "No commits found in the specified date range.";;
      print (repeat_str "=" 80)
  | _ :: _ =>
      print (nl +:+ repeat_str "=" 80);;
      print "SUMMARY";;
      print (repeat_str "=" 80);;
      print ("Total commits: " +:+ str_of_nat (length commits));;
      print ("Repositories with commits: " +:+ str_of_nat (length repo_commit_count));;
      print "";;
      print "Commits by repository:";;
      for_each (by_count_desc repo_commit_count)
        (fun '(repo, count) =>
           print ("  " +:+ repo +:+ ": " +:+ str_of_nat count +:+ " commits"));;
      print (nl +:+ repeat_str "=" 80);;
      print "DETAILED COMMIT LIST";;
      print (repeat_str "=" 80 +:+ nl);;
      display_commit_list 1 commits
  end.

Definition fieldnames : list string :=
  ["Date"; "Repository"; "Private"; "SHA"; "Message"; "URL"].

(** The row [export_to_csv] hands to [writer.writerow] for a commit that
    carries the reference [repository]. *)
Definition csv_row (commit : commit) (repository : repo_ref) : list string :=
  [committer_date commit;
   ref_full_name repository;
   if ref_private repository then "Yes" else "No";
   slice_to 7 (sha commit);
   replace LF " | " (message commit);
   html_url commit].

Definition export_to_csv (commits : list commit) (filename : string) : M unit :=
  fopen filename;;
  fwrite filename (Csv.writerow fieldnames);;
  for_each commits
    (fun commit =>
       match commit_repository commit with
       | None => raise KeyError
       | Some repository => fwrite filename (Csv.writerow (csv_row commit repository))
       end);;
  print ("✓ Commits exported to " +:+ filename).

(** The loop over the commits of [export_to_markdown]; [current_repo] is
    [None] before the first commit. *)
Fixpoint markdown_commit_list (filename : string) (current_repo : option string)
    (commits : list commit) : M unit :=
  match commits with
  | [] => mret tt
  | commit :: commits' =>
      match commit_repository commit with
      | None => raise KeyError
      | Some repository =>
          let repo_name := ref_full_name repository in
          let is_private := ref_private repository in
          let privacy_label := if is_private then "🔒 Private" else "🌐 Public" in
          let new_repo := negb (bool_decide (Some repo_name = current_repo)) in
          (if new_repo then
             fwrite filename (nl +:+ "### " +:+ privacy_label +:+ " " +:+ repo_name +:+ nl +:+ nl)
           else mret tt);;
          let current_repo := if new_repo then Some repo_name else current_repo in
          let commit_msg := first_piece LF (message commit) in
          let commit_date := committer_date commit in
          let commit_url := html_url commit in
          let sha := slice_to 7 (sha commit) in
          match strptime commit_date "%Y-%m-%dT%H:%M:%SZ" with
          | None => raise ValueError
          | Some date_obj =>
              let formatted_date := strftime date_obj "%Y-%m-%d %H:%M" in
              fwrite filename ("- **" +:+ sha +:+ "** (" +:+ formatted_date +:+ "): "
                               +:+ commit_msg +:+ " [→ View](" +:+ commit_url +:+ ")" +:+ nl);;
              markdown_commit_list filename current_repo commits'
          end
      end
  end.

Definition export_to_markdown (commits : list commit) (repo_commit_count : dict nat)
    (start_date end_date filename : string) : M unit :=
  fopen filename;;
  fwrite filename ("# GitHub Commits Report" +:+ nl +:+ nl);;
  fwrite filename ("**Period:** " +:+ start_date +:+ " to " +:+ end_date +:+ nl +:+ nl);;
  fwrite filename ("**Total Commits:** " +:+ str_of_nat (length commits) +:+ nl +:+ nl);;
  fwrite filename ("**Repositories:** " +:+ str_of_nat (length repo_commit_count) +:+ nl +:+ nl);;
  fwrite filename ("## Summary by Repository" +:+ nl +:+ nl);;
  for_each (by_count_desc repo_commit_count)
    (fun '(repo, count) =>
       fwrite filename ("- **" +:+ repo +:+ "**: " +:+ str_of_nat count +:+ " commits" +:+ nl));;
  fwrite filename (nl +:+ "---" +:+ nl +:+ nl +:+ "## Detailed Commits" +:+ nl +:+ nl);;
  markdown_commit_list filename None commits;;
  print ("✓ Commits exported to " +:+ filename).

(** *** Token validation and [main] *)

Definition user_request (token : string) : request :=
  {| url := "https://api.github.com/user";
     headers := auth_headers token;
     params := [] |}.

Definition validate_token (token : string) : M (bool * string) :=
  response ← http_get (user_endpoint gh) (user_request token);
  if (status_code response =? 200)%nat then mret (true, json response)
  else if (status_code response =? 401)%nat then mret (false, "Invalid token")
  else mret (false, "Error: " +:+ str_of_nat (status_code response)).

(** The [while True] loop of the export menu. *)
Fixpoint export_menu (fuel : nat) (commits : list commit) (repo_commit_count : dict nat)
    (start_date end_date : string) : M unit :=
  match fuel with
  | 0 => out_of_fuel
  | S fuel' =>
      print (nl +:+ "Would you like to export the commits?");;
      print "1. Export to CSV";;
      print "2. Export to Markdown";;
      print "3. Export to both CSV and Markdown";;
      print "4. No export, exit";;
      line ← input (nl +:+ "Enter your choice (1-4): ");
      let choice := strip line in
      let csv_filename := "commits_" +:+ start_date +:+ "_to_" +:+ end_date +:+ ".csv" in
      let md_filename := "commits_" +:+ start_date +:+ "_to_" +:+ end_date +:+ ".md" in
      if String.eqb choice "1" then
        export_to_csv commits csv_filename
      else if String.eqb choice "2" then
        export_to_markdown commits repo_commit_count start_date end_date md_filename
      else if String.eqb choice "3" then
        export_to_csv commits csv_filename;;
        export_to_markdown commits repo_commit_count start_date end_date md_filename
      else if String.eqb choice "4" then
        mret tt
      else
        print "Invalid choice. Please enter 1, 2, 3, or 4.";;
        export_menu fuel' commits repo_commit_count start_date end_date
  end.

Definition main (fuel : nat) : M unit :=
  print (repeat_str "=" 80);;
  print "GitHub All Repositories Commits Fetcher";;
  print (repeat_str "=" 80);;
  print "";;
  (* Check if token and username are configured *)
  (if negb (truthy_str GITHUB_TOKEN) || negb (truthy_str USERNAME) then
     print "ERROR: Please configure your GitHub Personal Access Token and Username";;
     print "";;
     print "Steps:";;
     print "1. Copy the .env.example file to .env";;
     print "2. Go to https://github.com/settings/tokens";;
     print "3. Click 'Generate new token (classic)'";;
     print "4. Give it a name (e.g., 'Commits Fetcher')";;
     print "5. Select scope: 'repo' (Full control of private repositories)";;
     print "6. Click 'Generate token' and copy it";;
     print "7. Edit the .env file and paste your token and username";;
     print "";;
     sys_exit 1
   else mret tt);;
  let GITHUB_TOKEN := default "" GITHUB_TOKEN in
  let USERNAME := default "" USERNAME in
  (* Validate token *)
  print_end "Validating GitHub token..." " ";;
  '(valid, result) ← validate_token GITHUB_TOKEN;
  (if negb valid then
     print (nl +:+ nl +:+ "ERROR: " +:+ result);;
     print "Please check your GitHub token and try again.";;
     sys_exit 1
   else mret tt);;
  print ("✓" +:+ nl +:+ "Authenticated as: " +:+ result +:+ nl);;
  (* Get date range *)
  match argv with
  | [_; start_date; end_date] =>
      (* Validate date format *)
      (match strptime start_date "%Y-%m-%d", strptime end_date "%Y-%m-%d" with
       | Some _, Some _ => mret tt
       | _, _ =>
           print "ERROR: Dates must be in YYYY-MM-DD format";;
           sys_exit 1
       end);;
      (* Fetch commits *)
      let fetcher := new_fetcher USERNAME GITHUB_TOKEN in
      '(commits, repo_commit_count) ← fetch_all_commits fuel fetcher start_date end_date;
      (* Display results *)
      display_commits commits repo_commit_count;;
      (* Export options *)
      (match commits with
       | _ :: _ =>
           print (nl +:+ repeat_str "=" 80);;
           print "EXPORT OPTIONS";;
           print (repeat_str "=" 80);;
           export_menu fuel commits repo_commit_count start_date end_date
       | [] => mret tt
       end);;
      print (nl +:+ "Done!")
  | _ =>
      print "Usage: python fetch_commits.py START_DATE END_DATE";;
      print "Example: python fetch_commits.py 2024-01-01 2024-01-31";;
      print "";;
      sys_exit 1
  end.

(** The exit status of the process: 0 when [main] returns, the argument of
    [sys.exit], 1 after an uncaught exception. *)
Definition exit_status (o : outcome unit) : option nat :=
  match o with
  | Returned _ => Some 0
  | Exited code => Some code
  | Raised _ => Some 1
  | OutOfFuel => None
  end.

End Script.

Arguments display_commit {datetime} strptime strftime i commit.
Arguments display_commit_list {datetime} strptime strftime i commits.
Arguments display_commits {datetime} strptime strftime commits repo_commit_count.
Arguments markdown_commit_list {datetime} strptime strftime filename current_repo commits.
Arguments export_to_markdown {datetime} strptime strftime commits repo_commit_count
  start_date end_date filename.
Arguments export_menu {datetime} strptime strftime fuel commits repo_commit_count
  start_date end_date.
Arguments main gh {datetime} strptime strftime GITHUB_TOKEN USERNAME argv fuel.

(** ** Vocabulary of the specification *)

(** The world before the run, and a world extended by logged requests and
    printed chunks. *)
Definition emp : world := {| requests := []; stdout := []; stdin := []; files := ∅ |}.

Definition add_log (w : world) (reqs : list request) (out : list string) : world :=
  {| requests := requests w ++ reqs; stdout := stdout w ++ out;
     stdin := stdin w; files := files w |}.

(** A computation that only sends requests and prints: its result does not
    depend on the world it starts in. *)
Definition log_only {A} (m : M A) : Prop :=
  ∃ o reqs out, ∀ w, m w = (o, add_log w reqs out).

(** Pages of a listing: the service answers page [i + 1] with status 200 and
    the body [pages !! i]. *)
Definition serves {A} (endpoint : request -> response (list A))
    (req : nat -> request) (pages : list (list A)) : Prop :=
  ∀ i p, pages !! i = Some p ->
    status_code (endpoint (req (S i))) = 200 /\ json (endpoint (req (S i))) = p.

(** A page of [per_page] items or more is followed by another request, a
    shorter one is not. *)
Definition full_page {A} (p : list A) : Prop := 100 <= length p.
Definition short_page {A} (p : list A) : Prop := length p < 100.

(** The chunks [fetch_all_commits] prints for the repository numbered [i]
    of [total] from which [n] commits were fetched. *)
Definition progress_chunk (i total : nat) (repo : repository) : string :=
  ("[" +:+ str_of_nat i +:+ "/" +:+ str_of_nat total +:+ "] "
   +:+ privacy_label_of (private repo) +:+ " " +:+ full_name repo +:+ "...") +:+ " ".
Definition count_chunk (n : nat) : string :=
  ("✓ " +:+ str_of_nat n +:+ " commits") +:+ nl.

(** The commits of a repository with the reference [fetch_all_commits]
    attaches to them. *)
Definition tagged (repo : repository) (commits : list commit) : list commit :=
  map (fun c => set_repository c (ref_of repo)) commits.

(** [l] is what [get_commits_from_repo] returns for [repo], in whatever world
    it is called. *)
Definition fetched_from (gh : github) (fuel : nat) (self : GitHubCommitsFetcher)
    (start_date end_date : string) (repo : repository) (l : list commit) : Prop :=
  ∀ w, (get_commits_from_repo gh fuel self (full_name repo) start_date end_date w).1
       = Returned l.

(** The count mapping once the repositories [repos], for which the commit
    lists [lists] were fetched, have been gone through in order. *)
Fixpoint counted (repos : list repository) (lists : list (list commit))
    (counts : dict nat) : dict nat :=
  match repos, lists with
  | repo :: repos', l :: lists' =>
      counted repos' lists'
        (match l with
         | [] => counts
         | _ :: _ => dict_set (full_name repo) (length l) counts
         end)
  | _, _ => counts
  end.

(** Newest first: the committer timestamp of [a] is not below that of [b],
    as strings. *)
Definition not_older (a b : commit) : Prop :=
  (committer_date b <=? committer_date a)%string = true.

(** *** Timestamps

    The committer timestamps of the API have the fixed-width, zero-padded
    shape YYYY-MM-DDTHH:MM:SSZ.  [timestamp] is the broken-down time,
    [iso8601] its rendering, [chron_compare] the chronological comparison. *)
Record timestamp := {
  year : nat; month : nat; day : nat;
  hour : nat; minute : nat; second : nat
}.

Definition digit (n : nat) : ascii := ascii_of_nat (48 + n).

(** [n] on [width] decimal digits, most significant first. *)
Fixpoint zero_pad (width n : nat) : string :=
  match width with
  | 0 => ""
  | S w => String (digit (n / 10 ^ w)) (zero_pad w (n mod 10 ^ w))
  end.

Definition iso8601 (t : timestamp) : string :=
  zero_pad 4 (year t) +:+ "-" +:+ zero_pad 2 (month t) +:+ "-" +:+ zero_pad 2 (day t)
  +:+ "T" +:+ zero_pad 2 (hour t) +:+ ":" +:+ zero_pad 2 (minute t) +:+ ":"
  +:+ zero_pad 2 (second t) +:+ "Z".

(** Every field fits its width. *)
Definition fits (t : timestamp) : Prop :=
  year t < 10 ^ 4 /\ month t < 10 ^ 2 /\ day t < 10 ^ 2
  /\ hour t < 10 ^ 2 /\ minute t < 10 ^ 2 /\ second t < 10 ^ 2.

Definition lex (c1 c2 : comparison) : comparison :=
  match c1 with
  | Eq => c2
  | _ => c1
  end.

Definition chron_compare (t1 t2 : timestamp) : comparison :=
  lex (year t1 ?= year t2)%nat
    (lex (month t1 ?= month t2)%nat
       (lex (day t1 ?= day t2)%nat
          (lex (hour t1 ?= hour t2)%nat
             (lex (minute t1 ?= minute t2)%nat (second t1 ?= second t2)%nat)))).

(** [t1] is not later than [t2]. *)
Definition chron_le (t1 t2 : timestamp) : Prop := chron_compare t1 t2 <> Gt.

(** *** A run of [main] *)

(** Token and user name are set and not empty. *)
Definition configured (GITHUB_TOKEN USERNAME : option string) : Prop :=
  truthy_str GITHUB_TOKEN = true /\ truthy_str USERNAME = true.

(** The command line has exactly two arguments after the program name. *)
Definition two_arguments (argv : list string) : Prop := length argv = 3.

(** The command line has two arguments and one of them is refused by
    [strptime] with the format [%Y-%m-%d]. *)
Definition malformed_dates {datetime : Type}
    (strptime : string -> string -> option datetime) (argv : list string) : Prop :=
  ∃ prog start_date end_date,
    argv = [prog; start_date; end_date]
    /\ (strptime start_date "%Y-%m-%d" = None \/ strptime end_date "%Y-%m-%d" = None).

(** The chunks [main] prints. *)
Definition banner : list string :=
  [repeat_str "=" 80 +:+ nl;
   "GitHub All Repositories Commits Fetcher" +:+ nl;
   repeat_str "=" 80 +:+ nl;
   "" +:+ nl].
Definition validating_chunk : string := "Validating GitHub token..." +:+ " ".
Definition authenticated_chunk (login : string) : string :=
  ("✓" +:+ nl +:+ "Authenticated as: " +:+ login +:+ nl) +:+ nl.
Definition invalid_token_chunks (reason : string) : list string :=
  [(nl +:+ nl +:+ "ERROR: " +:+ reason) +:+ nl;
   "Please check your GitHub token and try again." +:+ nl].
Definition usage_chunks : list string :=
  ["Usage: python fetch_commits.py START_DATE END_DATE" +:+ nl;
   "Example: python fetch_commits.py 2024-01-01 2024-01-31" +:+ nl;
   "" +:+ nl].
Definition date_error_chunks : list string :=
  ["ERROR: Dates must be in YYYY-MM-DD format" +:+ nl].
Definition no_commits_chunks : list string :=
  [(nl +:+ repeat_str "=" 80) +:+ nl;
   "No commits found in the specified date range." +:+ nl;
   repeat_str "=" 80 +:+ nl].
Definition done_chunk : string := (nl +:+ "Done!") +:+ nl.

(** The world once the token has been accepted: the identity request is
    logged, banner and greeting are printed. *)
Definition after_validation (w : world) (token login : string) : world :=
  add_log w [user_request token] (banner ++ [validating_chunk; authenticated_chunk login]).

(** What [validate_token] returns for an answer of the identity endpoint. *)
Definition validation_result (r : response string) : bool * string :=
  if (status_code r =? 200)%nat then (true, json r)
  else if (status_code r =? 401)%nat then (false, "Invalid token")
  else (false, "Error: " +:+ str_of_nat (status_code r)).

(** Every commit carries a repository reference. *)
Definition all_tagged (commits : list commit) : Prop :=
  Forall (fun c => is_Some (commit_repository c)) commits.

(** *** Sample instances

    A reading of [strptime] and [strftime] for the directives the script
    uses, with fixed-width fields, and three services; the examples below
    run the script on them. *)

Definition digit_value (c : ascii) : option nat :=
  let n := nat_of_ascii c in
  if (48 <=? n)%nat && (n <=? 57)%nat then Some (n - 48) else None.

Fixpoint read_number (width : nat) (s : string) (acc : nat) : option (nat * string) :=
  match width with
  | 0 => Some (acc, s)
  | S width' =>
      match s with
      | String c t => d ← digit_value c; read_number width' t (10 * acc + d)
      | EmptyString => None
      end
  end.

Definition set_field (d : ascii) (n : nat) (t : timestamp) : option timestamp :=
  if Ascii.eqb d "Y" then
    Some {| year := n; month := month t; day := day t;
            hour := hour t; minute := minute t; second := second t |}
  else if Ascii.eqb d "m" then
    Some {| year := year t; month := n; day := day t;
            hour := hour t; minute := minute t; second := second t |}
  else if Ascii.eqb d "d" then
    Some {| year := year t; month := month t; day := n;
            hour := hour t; minute := minute t; second := second t |}
  else if Ascii.eqb d "H" then
    Some {| year := year t; month := month t; day := day t;
            hour := n; minute := minute t; second := second t |}
  else if Ascii.eqb d "M" then
    Some {| year := year t; month := month t; day := day t;
            hour := hour t; minute := n; second := second t |}
  else if Ascii.eqb d "S" then
    Some {| year := year t; month := month t; day := day t;
            hour := hour t; minute := minute t; second := n |}
  else None.

Definition get_field (d : ascii) (t : timestamp) : nat :=
  if Ascii.eqb d "Y" then year t
  else if Ascii.eqb d "m" then month t
  else if Ascii.eqb d "d" then day t
  else if Ascii.eqb d "H" then hour t
  else if Ascii.eqb d "M" then minute t
  else second t.

Definition field_width (d : ascii) : nat := if Ascii.eqb d "Y" then 4 else 2.

Fixpoint parse_format (fmt data : string) (t : timestamp) : option timestamp :=
  match fmt with
  | EmptyString =>
      match data with
      | EmptyString => Some t
      | String _ _ => None
      end
  | String c fmt' =>
      if Ascii.eqb c "%" then
        match fmt' with
        | String d fmt'' =>
            '(n, rest) ← read_number (field_width d) data 0;
            t' ← set_field d n t;
            parse_format fmt'' rest t'
        | EmptyString => None
        end
      else
        match data with
        | String c' rest => if Ascii.eqb c c' then parse_format fmt' rest t else None
        | EmptyString => None
        end
  end.

Definition leap_year (y : nat) : bool :=
  ((y mod 4 =? 0)%nat && negb (y mod 100 =? 0)%nat) || (y mod 400 =? 0)%nat.

Definition days_in_month (y m : nat) : nat :=
  match m with
  | 2 => if leap_year y then 29 else 28
  | 4 | 6 | 9 | 11 => 30
  | _ => 31
  end.

Definition valid_timestamp (t : timestamp) : bool :=
  (1 <=? year t)%nat && (1 <=? month t)%nat && (month t <=? 12)%nat
  && (1 <=? day t)%nat && (day t <=? days_in_month (year t) (month t))%nat
  && (hour t <? 24)%nat && (minute t <? 60)%nat && (second t <? 62)%nat.

Definition sample_strptime (data fmt : string) : option timestamp :=
  t ← parse_format fmt data
         {| year := 1900; month := 1; day := 1; hour := 0; minute := 0; second := 0 |};
  if valid_timestamp t then Some t else None.

Fixpoint sample_strftime (t : timestamp) (fmt : string) : string :=
  match fmt with
  | EmptyString => EmptyString
  | String c fmt' =>
      if Ascii.eqb c "%" then
        match fmt' with
        | String d fmt'' =>
            zero_pad (field_width d) (get_field d t) +:+ sample_strftime t fmt''
        | EmptyString => String c EmptyString
        end
      else String c (sample_strftime t fmt')
  end.

Definition ok {A} (body : A) : response A :=
  {| status_code := 200; json := body; error_json := None |}.
Definition failed {A} (code : nat) (body : A) : response A :=
  {| status_code := code; json := body; error_json := Some "{'message': 'Not Found'}" |}.
(** A refusal whose body is a page of HTML. *)
Definition failed_html {A} (code : nat) (body : A) : response A :=
  {| status_code := code; json := body; error_json := None |}.

Definition page_of (r : request) : string := default "" (dict_get "page" (params r)).

Definition sample_commit (sha date message : string) : commit :=
  {| sha := sha; html_url := "https://github.com/commit/" +:+ sha;
     message := message; committer_date := date; commit_repository := None |}.

Definition repo_hello : repository :=
  {| full_name := "octocat/hello"; private := false;
     repo_html_url := "https://github.com/octocat/hello" |}.
Definition repo_secret : repository :=
  {| full_name := "octocat/secret"; private := true;
     repo_html_url := "https://github.com/octocat/secret" |}.
Definition repo_flaky : repository :=
  {| full_name := "octocat/flaky"; private := false;
     repo_html_url := "https://github.com/octocat/flaky" |}.

Definition c_jan05 : commit :=
  sample_commit "1111111aaaaaaa" "2024-01-05T10:00:00Z"
    ("Add greeting" +:+ nl +:+ nl +:+ "With a body, and a comma").
Definition c_jan20 : commit :=
  sample_commit "2222222bbbbbbb" "2024-01-20T08:30:00Z" "Fix typo".
Definition c_jan10 : commit :=
  sample_commit "3333333ccccccc" "2024-01-10T23:59:59Z" "Rotate keys".
Definition c_flaky : commit :=
  sample_commit "4444444ddddddd" "2024-01-02T00:00:00Z" "Retry".
Definition c_undated : commit :=
  sample_commit "5555555eeeeeee" "yesterday" "No date".

Definition accepts_token (r : request) : response string :=
  match dict_get "Authorization" (headers r) with
  | Some auth =>
      if String.eqb auth "token ghp_good" then ok "octocat"
      else if String.eqb auth "token ghp_bad" then failed 401 ""
      else failed 403 ""
  | None => failed 401 ""
  end.

(** Three repositories: one with two commits, one that answers 404, one
    whose second page of commits answers 502 after a full first page. *)
Definition sample_gh : github :=
  {| user_endpoint := accepts_token;
     repos_endpoint r :=
       if String.eqb (page_of r) "1" then ok [repo_hello; repo_secret; repo_flaky]
       else ok [];
     commits_endpoint r :=
       if String.eqb (url r) "https://api.github.com/repos/octocat/hello/commits" then
         if String.eqb (page_of r) "1" then ok [c_jan05; c_jan20] else ok []
       else if String.eqb (url r) "https://api.github.com/repos/octocat/secret/commits" then
         failed 404 []
       else if String.eqb (url r) "https://api.github.com/repos/octocat/flaky/commits" then
         if String.eqb (page_of r) "1" then ok (replicate 100 c_flaky) else failed 502 []
       else ok [] |}.

(** Two repositories whose commits interleave in time. *)
Definition interleaved_gh : github :=
  {| user_endpoint := accepts_token;
     repos_endpoint r :=
       if String.eqb (page_of r) "1" then ok [repo_hello; repo_secret] else ok [];
     commits_endpoint r :=
       if String.eqb (url r) "https://api.github.com/repos/octocat/hello/commits" then
         if String.eqb (page_of r) "1" then ok [c_jan05; c_jan20] else ok []
       else if String.eqb (url r) "https://api.github.com/repos/octocat/secret/commits" then
         if String.eqb (page_of r) "1" then ok [c_jan10] else ok []
       else ok [] |}.

(** One repository without commits in the window. *)
Definition quiet_gh : github :=
  {| user_endpoint := accepts_token;
     repos_endpoint r := if String.eqb (page_of r) "1" then ok [repo_hello] else ok [];
     commits_endpoint r := ok [] |}.

(** One repository with a commit whose timestamp is not a timestamp. *)
Definition undated_gh : github :=
  {| user_endpoint := accepts_token;
     repos_endpoint r := if String.eqb (page_of r) "1" then ok [repo_hello] else ok [];
     commits_endpoint r :=
       if String.eqb (page_of r) "1" then ok [c_jan05; c_undated] else ok [] |}.

Definition sample_fetcher : GitHubCommitsFetcher := new_fetcher "octocat" "ghp_good".

(** *** Files *)

(** The world after [open(filename, 'w')], and after chunks have been
    written to [filename]. *)
Definition truncate_file (w : world) (filename : string) : world :=
  {| requests := requests w; stdout := stdout w; stdin := stdin w;
     files := <[filename := []]> (files w) |}.

Definition append_file (w : world) (filename : string) (chunks : list string) : world :=
  {| requests := requests w; stdout := stdout w; stdin := stdin w;
     files := <[filename := default [] (files w !! filename) ++ chunks]> (files w) |}.

Definition exported_chunk (filename : string) : string :=
  ("✓ Commits exported to " +:+ filename) +:+ nl.

(** The committer timestamp of [c] parses under the format of the reports. *)
Definition date_parses {datetime : Type}
    (strptime : string -> string -> option datetime) (c : commit) : Prop :=
  is_Some (strptime (committer_date c) "%Y-%m-%dT%H:%M:%SZ").

(** *** Markdown *)

(** The maximal runs of equal neighbours of a list of names. *)
Fixpoint runs (l : list string) : list (list string) :=
  match l with
  | [] => []
  | x :: l' =>
      match runs l' with
      | (y :: r) :: rs =>
          if String.eqb x y then (x :: y :: r) :: rs else [x] :: (y :: r) :: rs
      | _ => [[x]]
      end
  end.

(** The full name of the repository a commit refers to. *)
Definition repo_name_of (c : commit) : string :=
  match commit_repository c with
  | Some r => ref_full_name r
  | None => ""
  end.

(** A chunk of the Markdown file that is a repository heading. *)
Definition is_heading (chunk : string) : bool := String.prefix (nl +:+ "### ") chunk.

(** The chunks of the head of the Markdown report. *)
Definition markdown_head (commits : list commit) (repo_commit_count : dict nat)
    (start_date end_date : string) : list string :=
  ["# GitHub Commits Report" +:+ nl +:+ nl;
   "**Period:** " +:+ start_date +:+ " to " +:+ end_date +:+ nl +:+ nl;
   "**Total Commits:** " +:+ str_of_nat (length commits) +:+ nl +:+ nl;
   "**Repositories:** " +:+ str_of_nat (length repo_commit_count) +:+ nl +:+ nl;
   "## Summary by Repository" +:+ nl +:+ nl]
  ++ map (fun '(repo, count) =>
            "- **" +:+ repo +:+ "**: " +:+ str_of_nat count +:+ " commits" +:+ nl)
       (by_count_desc repo_commit_count)
  ++ [nl +:+ "---" +:+ nl +:+ nl +:+ "## Detailed Commits" +:+ nl +:+ nl].

(** The chunks the loop of [export_to_markdown] writes: a heading when the
    repository differs from [current_repo], then the line of the commit. *)
Definition heading_chunk (r : repo_ref) : string :=
  nl +:+ "### " +:+ (if ref_private r then "🔒 Private" else "🌐 Public")
  +:+ " " +:+ ref_full_name r +:+ nl +:+ nl.

Definition commit_chunk (c : commit) (formatted_date : string) : string :=
  "- **" +:+ slice_to 7 (sha c) +:+ "** (" +:+ formatted_date +:+ "): "
  +:+ first_piece LF (message c) +:+ " [→ View](" +:+ html_url c +:+ ")" +:+ nl.

Fixpoint markdown_body {datetime : Type}
    (strptime : string -> string -> option datetime)
    (strftime : datetime -> string -> string)
    (current_repo : option string) (commits : list commit) : list string :=
  match commits with
  | [] => []
  | c :: commits' =>
      match commit_repository c, strptime (committer_date c) "%Y-%m-%dT%H:%M:%SZ" with
      | Some r, Some d =>
          (if bool_decide (Some (ref_full_name r) = current_repo) then []
           else [heading_chunk r])
          ++ commit_chunk c (strftime d "%Y-%m-%d %H:%M")
          :: markdown_body strptime strftime (Some (ref_full_name r)) commits'
      | _, _ => []
      end
  end.

(** *** CSV *)

(** The content of a file: its chunks, one after the other. *)
Definition file_text (chunks : list string) : string := fold_right String.append "" chunks.

(** [c] occurs in [s]. *)
Fixpoint occurs (c : ascii) (s : string) : bool :=
  match s with
  | EmptyString => false
  | String a t => Ascii.eqb a c || occurs c t
  end.

(** The row of a commit of the aggregated list. *)
Definition row_of (c : commit) : list string :=
  match commit_repository c with
  | Some r => csv_row c r
  | None => []
  end.

(** A listing with a full first page and a short second one, for the
    repositories and for the commits of [octocat/hello]. *)
Definition paged_gh : github :=
  {| user_endpoint := accepts_token;
     repos_endpoint r :=
       if String.eqb (page_of r) "1" then ok (replicate 100 repo_hello)
       else if String.eqb (page_of r) "2" then ok [repo_secret]
       else ok [];
     commits_endpoint r :=
       if String.eqb (url r) "https://api.github.com/repos/octocat/hello/commits" then
         if String.eqb (page_of r) "1" then ok (replicate 100 c_flaky)
         else if String.eqb (page_of r) "2" then ok [c_jan05; c_jan20]
         else ok []
       else ok [] |}.

(** What [fetch_all_commits] returns on [interleaved_gh]. *)
Definition interleaved_commits : list commit :=
  [set_repository c_jan20 (ref_of repo_hello);
   set_repository c_jan10 (ref_of repo_secret);
   set_repository c_jan05 (ref_of repo_hello)].
Definition interleaved_counts : dict nat :=
  [("octocat/hello", 2); ("octocat/secret", 1)].

(** What [fetch_all_commits] returns on [undated_gh]. *)
Definition undated_commits : list commit :=
  [set_repository c_undated (ref_of repo_hello);
   set_repository c_jan05 (ref_of repo_hello)].

(** The Markdown file as text: its lines, and how many of them open with
    [###]. *)
Definition heading_line (l : string) : bool := String.prefix "###" l.
Definition heading_lines (text : string) : nat :=
  length (List.filter heading_line (split LF text)).

(** No line feed in [s]. *)
Definition single_line (s : string) : Prop := occurs LF s = false.

(** No line feed in the data that [export_to_markdown] copies into the
    file: the dates of the period, the repository names, the short hashes,
    the URLs and the formatted dates. *)
Definition markdown_data_single_line {datetime : Type}
    (strftime : datetime -> string -> string)
    (commits : list commit) (repo_commit_count : dict nat)
    (start_date end_date : string) : Prop :=
  single_line start_date /\ single_line end_date
  /\ Forall (fun p : string * nat => single_line p.1) repo_commit_count
  /\ Forall (fun c => single_line (repo_name_of c)
                      /\ single_line (slice_to 7 (sha c))
                      /\ single_line (html_url c)) commits
  /\ ∀ d, single_line (strftime d "%Y-%m-%d %H:%M").

(** The chunk [chunk] adds [k] heading lines to the text that follows it. *)
Definition adds_heading_lines (k : nat) (chunk : string) : Prop :=
  ∀ rest, heading_lines (chunk +:+ rest) = k + heading_lines rest.

(** ** Vocabulary of the further properties *)

(** How often [c] occurs in [s]. *)
Fixpoint occurrences (c : ascii) (s : string) : nat :=
  match s with
  | EmptyString => 0
  | String a t => if Ascii.eqb a c then S (occurrences c t) else occurrences c t
  end.

(** The chunks [get_all_repositories] prints when the listing stops on the
    answer [r], which is not a 200 and whose body decodes to [body], with [n]
    repositories collected; and those it has printed when the body does not
    decode. *)
Definition listing_error_chunks {A} (r : response A) (body : string) (n : nat)
    : list string :=
  ["Fetching your repositories (including private)..." +:+ nl;
   ("Error fetching repositories: " +:+ str_of_nat (status_code r)) +:+ nl;
   body +:+ nl;
   ("Found " +:+ str_of_nat n +:+ " repositories") +:+ nl].
Definition listing_raise_chunks {A} (r : response A) : list string :=
  ["Fetching your repositories (including private)..." +:+ nl;
   ("Error fetching repositories: " +:+ str_of_nat (status_code r)) +:+ nl].

(** The service answers every page of a listing with status 200 and a full
    page. *)
Definition always_full {A} (endpoint : request -> response (list A))
    (req : nat -> request) : Prop :=
  ∀ page, status_code (endpoint (req page)) = 200 /\ full_page (json (endpoint (req page))).

(** *** Further sample services *)

(** A repository whose full name has no slash. *)
Definition repo_slashless : repository :=
  {| full_name := "hello"; private := false;
     repo_html_url := "https://github.com/hello" |}.

(** The listing names one repository twice, as it may under two
    affiliations. *)
Definition doubled_gh : github :=
  {| user_endpoint := accepts_token;
     repos_endpoint r :=
       if String.eqb (page_of r) "1" then ok [repo_hello; repo_secret; repo_hello]
       else ok [];
     commits_endpoint := commits_endpoint interleaved_gh |}.


(** What [fetch_all_commits] returns on [doubled_gh]. *)
Definition doubled_commits : list commit :=
  [set_repository c_jan20 (ref_of repo_hello);
   set_repository c_jan20 (ref_of repo_hello);
   set_repository c_jan10 (ref_of repo_secret);
   set_repository c_jan05 (ref_of repo_hello);
   set_repository c_jan05 (ref_of repo_hello)].


(** *** Early ends of [main] *)

(** The instructions [main] prints when token or user name is missing. *)
Definition setup_chunks : list string :=
  ["ERROR: Please configure your GitHub Personal Access Token and Username" +:+ nl;
   "" +:+ nl;
   "Steps:" +:+ nl;
   "1. Copy the .env.example file to .env" +:+ nl;
   "2. Go to https://github.com/settings/tokens" +:+ nl;
   "3. Click 'Generate new token (classic)'" +:+ nl;
   "4. Give it a name (e.g., 'Commits Fetcher')" +:+ nl;
   "5. Select scope: 'repo' (Full control of private repositories)" +:+ nl;
   "6. Click 'Generate token' and copy it" +:+ nl;
   "7. Edit the .env file and paste your token and username" +:+ nl;
   "" +:+ nl].

(** An environment value that is not set, or set to the empty string. *)
Definition missing (value : option string) : Prop := value = None \/ value = Some "".

(** The two chunks [fetch_all_commits] prints before its loop. *)
Definition fetching_chunks (start_date end_date : string) : list string :=
  [(nl +:+ "Fetching commits from " +:+ start_date +:+ " to " +:+ end_date +:+ "...") +:+ nl;
   repeat_str "-" 80 +:+ nl].

(** The first page of the listing is answered by [r] and the listing
    returns without a repository: the page is empty, or it is refused with
    a body that decodes. *)
Definition no_repository {A} (r : response (list A)) : Prop :=
  (status_code r = 200 /\ json r = []) \/ (status_code r <> 200 /\ is_Some (error_json r)).

(** The chunks [get_all_repositories] prints then. *)
Definition empty_listing_chunks {A} (r : response A) : list string :=
  if (status_code r =? 200)%nat then
    ["Fetching your repositories (including private)..." +:+ nl;
     ("Found " +:+ str_of_nat 0 +:+ " repositories") +:+ nl]
  else listing_error_chunks r (default "" (error_json r)) 0.


(** *** The export menu *)

(** The chunks of one showing of the menu, the prompt last. *)
Definition menu_chunks : list string :=
  [(nl +:+ "Would you like to export the commits?") +:+ nl;
   "1. Export to CSV" +:+ nl;
   "2. Export to Markdown" +:+ nl;
   "3. Export to both CSV and Markdown" +:+ nl;
   "4. No export, exit" +:+ nl;
   nl +:+ "Enter your choice (1-4): "].
Definition invalid_choice_chunk : string :=
  "Invalid choice. Please enter 1, 2, 3, or 4." +:+ nl.

(** A line that, stripped, is one of the four choices. *)
Definition valid_choice (line : string) : Prop :=
  strip line = "1" \/ strip line = "2" \/ strip line = "3" \/ strip line = "4".

(** What the menu prints while it reads the refused lines [bad]. *)
Definition refusals (bad : list string) : list string :=
  concat (map (fun _ => menu_chunks ++ [invalid_choice_chunk]) bad).

(** The world once [out] has been printed and stdin read down to [rest]. *)
Definition prompted (w : world) (out : list string) (rest : list string) : world :=
  {| requests := requests w; stdout := stdout w ++ out; stdin := rest; files := files w |}.

(** The names of the export files. *)
Definition csv_filename (start_date end_date : string) : string :=
  "commits_" +:+ start_date +:+ "_to_" +:+ end_date +:+ ".csv".
Definition md_filename (start_date end_date : string) : string :=
  "commits_" +:+ start_date +:+ "_to_" +:+ end_date +:+ ".md".

(** The chunks of the two export files. *)
Definition csv_file_chunks (commits : list commit) : list string :=
  map Csv.writerow (fieldnames :: map row_of commits).
Definition markdown_file_chunks {datetime : Type}
    (strptime : string -> string -> option datetime)
    (strftime : datetime -> string -> string)
    (commits : list commit) (repo_commit_count : dict nat)
    (start_date end_date : string) : list string :=
  markdown_head commits repo_commit_count start_date end_date
  ++ markdown_body strptime strftime None commits.


(** The files after the export of the choice [choice], and the lines that
    announce them. *)
Definition written_files {datetime : Type}
    (strptime : string -> string -> option datetime)
    (strftime : datetime -> string -> string)
    (commits : list commit) (repo_commit_count : dict nat)
    (start_date end_date : string) (choice : string)
    (fs : gmap string (list string)) : gmap string (list string) :=
  let csv := csv_filename start_date end_date in
  let md := md_filename start_date end_date in
  let md_chunks := markdown_file_chunks strptime strftime commits repo_commit_count
                     start_date end_date in
  if String.eqb choice "1" then <[csv := csv_file_chunks commits]> fs
  else if String.eqb choice "2" then <[md := md_chunks]> fs
  else if String.eqb choice "3" then <[md := md_chunks]> (<[csv := csv_file_chunks commits]> fs)
  else fs.

Definition announcements (start_date end_date : string) (choice : string) : list string :=
  let csv := csv_filename start_date end_date in
  let md := md_filename start_date end_date in
  if String.eqb choice "1" then [exported_chunk csv]
  else if String.eqb choice "2" then [exported_chunk md]
  else if String.eqb choice "3" then [exported_chunk csv; exported_chunk md]
  else [].


(** *** The console report *)

(** The line of the summary for an entry of the count mapping, on the
    console and in the Markdown report. *)
Definition summary_line (p : string * nat) : string :=
  ("  " +:+ p.1 +:+ ": " +:+ str_of_nat p.2 +:+ " commits") +:+ nl.
Definition summary_bullet (p : string * nat) : string :=
  "- **" +:+ p.1 +:+ "**: " +:+ str_of_nat p.2 +:+ " commits" +:+ nl.

(** What [display_commits] prints before the detailed list. *)
Definition summary_chunks (commits : list commit) (repo_commit_count : dict nat)
    : list string :=
  [(nl +:+ repeat_str "=" 80) +:+ nl;
   "SUMMARY" +:+ nl;
   repeat_str "=" 80 +:+ nl;
   ("Total commits: " +:+ str_of_nat (length commits)) +:+ nl;
   ("Repositories with commits: " +:+ str_of_nat (length repo_commit_count)) +:+ nl;
   "" +:+ nl;
   "Commits by repository:" +:+ nl]
  ++ map summary_line (by_count_desc repo_commit_count)
  ++ [(nl +:+ repeat_str "=" 80) +:+ nl;
      "DETAILED COMMIT LIST" +:+ nl;
      (repeat_str "=" 80 +:+ nl) +:+ nl].

(** The six chunks of the detailed list for the commit [c] numbered [i],
    with the reference [r] and the formatted date. *)
Definition detail_entry (i : nat) (c : commit) (r : repo_ref) (formatted_date : string)
    : list string :=
  [(str_of_nat i +:+ ". " +:+ privacy_label_of (ref_private r)
    +:+ " [" +:+ ref_full_name r +:+ "]") +:+ nl;
   ("   SHA: " +:+ slice_to 7 (sha c)) +:+ nl;
   ("   Date: " +:+ formatted_date) +:+ nl;
   ("   Message: " +:+ first_piece LF (message c)) +:+ nl;
   ("   URL: " +:+ html_url c) +:+ nl;
   "" +:+ nl].

Fixpoint detail_chunks {datetime : Type}
    (strptime : string -> string -> option datetime)
    (strftime : datetime -> string -> string)
    (i : nat) (commits : list commit) : list string :=
  match commits with
  | [] => []
  | c :: commits' =>
      match commit_repository c, strptime (committer_date c) "%Y-%m-%dT%H:%M:%SZ" with
      | Some r, Some d =>
          detail_entry i c r (strftime d "%Y-%m-%d %H:%M")
          ++ detail_chunks strptime strftime (S i) commits'
      | _, _ => []
      end
  end.


(** *** The requests of a run *)

(** The computation [m] only adds requests to the log, and those it adds
    satisfy [P]. *)
Definition sends_only {A} (P : request -> Prop) (m : M A) : Prop :=
  ∀ w, ∃ reqs, requests (m w).2 = requests w ++ reqs /\ Forall P reqs.

(** The requests of the script: the identity lookup, a page of the
    repository listing, or a page of the commits of a repository in the
    window given on the command line. *)
Definition api_request (token username : string) (argv : list string) (r : request)
    : Prop :=
  let fetcher := new_fetcher username token in
  r = user_request token
  \/ (∃ page, 1 <= page /\ r = repos_request fetcher page)
  \/ (∃ prog start_date end_date owner repo page,
        argv = [prog; start_date; end_date] /\ 1 <= page
        /\ r = commits_request fetcher
                 ("https://api.github.com" +:+ "/repos/" +:+ owner +:+ "/" +:+ repo
                  +:+ "/commits")
                 start_date end_date page).


(** *** Ends of a run *)

(** The computation [m] never ends in [sys.exit]. *)
Definition never_exits {A} (m : M A) : Prop := ∀ w code, (m w).1 <> Exited code.


(** *** The order of the fetch *)

(** The requests [get_commits_from_repo] sends for [repo]. *)
Definition repo_requests (gh : github) (fuel : nat) (self : GitHubCommitsFetcher)
    (start_date end_date : string) (repo : repository) : list request :=
  requests (get_commits_from_repo gh fuel self (full_name repo) start_date end_date emp).2.

(** The progress lines of the loop over the repositories, numbered from
    [i]. *)
Fixpoint progress_chunks (i total : nat) (repos : list repository)
    (lists : list (list commit)) : list string :=
  match repos, lists with
  | repo :: repos', l :: lists' =>
      progress_chunk i total repo :: count_chunk (length l)
      :: progress_chunks (S i) total repos' lists'
  | _, _ => []
  end.


(** A line made of ASCII characters only; on such a line [strip] is
    [str.strip]. *)
Fixpoint ascii_only (s : string) : bool :=
  match s with
  | EmptyString => true
  | String c t => (nat_of_ascii c <? 128)%nat && ascii_only t
  end.
Definition ascii_line (line : string) : Prop := ascii_only line = true.


(** * Theorems *)

(** ** The monad *)

Lemma add_log_nil w : add_log w [] [] = w.
Proof. destruct w; unfold add_log; simpl. by rewrite !app_nil_r. Qed.

Lemma add_log_add_log w r1 o1 r2 o2 :
  add_log (add_log w r1 o1) r2 o2 = add_log w (r1 ++ r2) (o1 ++ o2).
Proof. unfold add_log; simpl. by rewrite !app_assoc. Qed.

Lemma bind_eq {A B} (m : M A) (k : A -> M B) w :
  (m ≫= k) w =
  match m w with
  | (Returned a, w') => k a w'
  | (Raised e, w') => (Raised e, w')
  | (Exited c, w') => (Exited c, w')
  | (OutOfFuel, w') => (OutOfFuel, w')
  end.
Proof. reflexivity. Qed.

Lemma bind_returned {A B} (m : M A) (k : A -> M B) w a w' :
  m w = (Returned a, w') -> (m ≫= k) w = k a w'.
Proof. intros H. by rewrite bind_eq, H. Qed.

Lemma bind_inv {A B} (m : M A) (k : A -> M B) w b w' :
  (m ≫= k) w = (Returned b, w') ->
  ∃ a w1, m w = (Returned a, w1) /\ k a w1 = (Returned b, w').
Proof.
  rewrite bind_eq. destruct (m w) as [[a|e|c|] w1]; try discriminate. eauto.
Qed.

Lemma mret_eq {A} (a : A) (w : world) : (mret a : M A) w = (Returned a, w).
Proof. reflexivity. Qed.

Lemma print_end_eq s e w : print_end s e w = (Returned tt, add_log w [] [s +:+ e]).
Proof. unfold print_end, add_log. by rewrite app_nil_r. Qed.

Lemma print_eq s w : print s w = (Returned tt, add_log w [] [s +:+ nl]).
Proof. apply print_end_eq. Qed.

Lemma http_get_eq {A} (endpoint : request -> response A) r w :
  http_get endpoint r w = (Returned (endpoint r), add_log w [r] []).
Proof. unfold http_get, add_log. by rewrite app_nil_r. Qed.

Lemma log_only_ret {A} (a : A) : log_only (mret a).
Proof. exists (Returned a), [], []. intros w. by rewrite add_log_nil. Qed.

Lemma log_only_raise {A} e : log_only (@raise A e).
Proof. exists (Raised e), [], []. intros w. by rewrite add_log_nil. Qed.

Lemma log_only_out_of_fuel {A} : log_only (@out_of_fuel A).
Proof. exists OutOfFuel, [], []. intros w. by rewrite add_log_nil. Qed.

Lemma log_only_print_end s e : log_only (print_end s e).
Proof. exists (Returned tt), [], [s +:+ e]. apply print_end_eq. Qed.

Lemma log_only_print s : log_only (print s).
Proof. apply log_only_print_end. Qed.

Lemma log_only_http_get {A} (endpoint : request -> response A) r :
  log_only (http_get endpoint r).
Proof. exists (Returned (endpoint r)), [r], []. apply http_get_eq. Qed.

Lemma log_only_bind {A B} (m : M A) (k : A -> M B) :
  log_only m -> (∀ a, log_only (k a)) -> log_only (m ≫= k).
Proof.
  intros (o & r1 & o1 & Hm) Hk. destruct o as [a|e|c|].
  - destruct (Hk a) as (o' & r2 & o2 & Hka).
    exists o', (r1 ++ r2), (o1 ++ o2). intros w.
    rewrite (bind_returned _ _ _ _ _ (Hm w)), Hka. by rewrite add_log_add_log.
  - exists (Raised e), r1, o1. intros w. by rewrite bind_eq, Hm.
  - exists (Exited c), r1, o1. intros w. by rewrite bind_eq, Hm.
  - exists OutOfFuel, r1, o1. intros w. by rewrite bind_eq, Hm.
Qed.

Lemma log_only_result {A} (m : M A) w1 w2 : log_only m -> (m w1).1 = (m w2).1.
Proof. intros (o & r & out & H). by rewrite !H. Qed.

Lemma log_only_frame {A} (m : M A) w :
  log_only m -> stdin (m w).2 = stdin w /\ files (m w).2 = files w.
Proof. intros (o & r & out & H). by rewrite H. Qed.

Create HintDb log_only.
#[global] Hint Resolve log_only_ret log_only_raise log_only_out_of_fuel
  log_only_print_end log_only_print log_only_http_get : log_only.

Ltac log_only_step :=
  first [ apply log_only_bind; [|intros ?]
        | apply log_only_ret | apply log_only_raise | apply log_only_out_of_fuel
        | apply log_only_print | apply log_only_print_end | apply log_only_http_get ].

(** ** Strings *)

Lemma append_cons x (a b : string) : String x a +:+ b = String x (a +:+ b).
Proof. reflexivity. Qed.

Lemma append_assoc (a b c : string) : (a +:+ b) +:+ c = a +:+ (b +:+ c).
Proof. induction a as [|x a IH]; [done|]. by rewrite !append_cons, IH. Qed.

Lemma append_nil_r (a : string) : a +:+ "" = a.
Proof. induction a as [|x a IH]; [done|]. by rewrite append_cons, IH. Qed.

Lemma append_snoc (a : string) c (b : string) : (a +:+ String c "") +:+ b = a +:+ String c b.
Proof. by rewrite append_assoc. Qed.

Lemma occurs_app c (a b : string) : occurs c (a +:+ b) = occurs c a || occurs c b.
Proof.
  induction a as [|x a IH]; [done|].
  rewrite append_cons. cbn [occurs]. by rewrite IH, orb_assoc.
Qed.

Lemma file_text_app l1 l2 : file_text (l1 ++ l2) = file_text l1 +:+ file_text l2.
Proof.
  induction l1 as [|x l1 IH]; [done|].
  cbn [app file_text fold_right]. fold (file_text (l1 ++ l2)). fold (file_text l1).
  by rewrite IH, append_assoc.
Qed.

Lemma single_line_file_text segs : Forall single_line segs -> single_line (file_text segs).
Proof.
  unfold single_line. induction 1 as [|x segs Hx _ IH]; [done|].
  cbn [file_text fold_right]. fold (file_text segs). by rewrite occurs_app, Hx, IH.
Qed.

(** The decimal numeral of a number has no line feed in it. *)
Lemma single_line_str_of_nat n : single_line (str_of_nat n).
Proof.
  unfold single_line, str_of_nat. generalize (Nat.to_uint n). intros d.
  induction d; cbn; done.
Qed.

(** Nor has the first piece of a split at line feeds. *)
Lemma single_line_first_piece s : single_line (first_piece LF s).
Proof.
  unfold single_line, first_piece. induction s as [|a s IH]; [done|].
  cbn [split]. destruct (Ascii.eqb a LF) eqn:Ha; [done|].
  destruct (split LF s) as [|piece rest]; cbn [occurs]; rewrite Ha; [done | exact IH].
Qed.

(** A line without line feed, its line feed, and the rest of the text. *)
Lemma split_line l rest :
  single_line l -> split LF (l +:+ String LF rest) = l :: split LF rest.
Proof.
  unfold single_line. induction l as [|a l IH]; intros Hl.
  - reflexivity.
  - cbn [occurs] in Hl. apply orb_false_elim in Hl as [Ha Hl].
    rewrite append_cons. cbn [split]. by rewrite Ha, IH.
Qed.

Lemma heading_lines_line l rest :
  single_line l ->
  heading_lines (l +:+ String LF rest)
  = (if heading_line l then 1 else 0) + heading_lines rest.
Proof.
  intros Hl. unfold heading_lines. rewrite split_line by done.
  cbn [List.filter]. by destruct (heading_line l).
Qed.

(** The same for a line given by its segments. *)
Lemma heading_lines_segments segs rest :
  Forall single_line segs ->
  heading_lines (file_text segs +:+ String LF rest)
  = (if heading_line (file_text segs) then 1 else 0) + heading_lines rest.
Proof. intros H. by apply heading_lines_line, single_line_file_text. Qed.

(** ** Pagination *)

Section Pagination.
Context (gh : github) (self : GitHubCommitsFetcher).

Lemma full_page_not_short {A} (p : list A) :
  full_page p -> (length p <? 100)%nat = false /\ ∃ x p', p = x :: p'.
Proof.
  unfold full_page. intros H. split; [by apply Nat.ltb_ge|].
  destruct p as [|x p']; simpl in H; [lia | eauto].
Qed.

(** One iteration of the commit loop on a full page. *)
Lemma get_commits_loop_step fuel url s e acc page w p :
  status_code (commits_endpoint gh (commits_request self url s e page)) = 200 ->
  json (commits_endpoint gh (commits_request self url s e page)) = p ->
  full_page p ->
  get_commits_loop gh (S fuel) self url s e acc page w =
  get_commits_loop gh fuel self url s e (acc ++ p) (page + 1)
    (add_log w [commits_request self url s e page] []).
Proof.
  intros Hst Hj Hfull. cbn [get_commits_loop].
  rewrite (bind_returned _ _ _ _ _ (http_get_eq _ _ _)).
  rewrite Hst, Hj. cbn [Nat.eqb negb].
  destruct (full_page_not_short p Hfull) as [Hlt (x & p' & ->)].
  by rewrite Hlt.
Qed.

(** The iterations over a run of full pages. *)
Lemma get_commits_loop_full url s e full : ∀ fuel acc page w,
  Forall full_page full ->
  (∀ i p, full !! i = Some p ->
     status_code (commits_endpoint gh (commits_request self url s e (page + i))) = 200 /\
     json (commits_endpoint gh (commits_request self url s e (page + i))) = p) ->
  get_commits_loop gh (length full + fuel) self url s e acc page w =
  get_commits_loop gh fuel self url s e (acc ++ concat full) (page + length full)
    (add_log w (map (commits_request self url s e) (seq page (length full))) []).
Proof.
  induction full as [|p full IH]; intros fuel acc page w Hfull Hsrv.
  - simpl. by rewrite app_nil_r, Nat.add_0_r, add_log_nil.
  - inversion Hfull as [|? ? Hp Hrest]; subst.
    destruct (Hsrv 0 p eq_refl) as [Hst Hj]. rewrite Nat.add_0_r in Hst, Hj.
    cbn [length Nat.add]. rewrite (get_commits_loop_step _ _ _ _ _ _ _ p) by done.
    rewrite IH; [|done|].
    + rewrite add_log_add_log. cbn [concat seq map app].
      rewrite <- app_assoc, Nat.add_1_r.
      by replace (S page + length full) with (page + S (length full)) by lia.
    + intros i q Hq. replace (page + 1 + i) with (page + S i) by lia.
      by apply Hsrv.
Qed.

(** The last iteration: a short page, possibly empty. *)
Lemma get_commits_loop_short fuel url s e acc page w p :
  status_code (commits_endpoint gh (commits_request self url s e page)) = 200 ->
  json (commits_endpoint gh (commits_request self url s e page)) = p ->
  short_page p ->
  get_commits_loop gh (S fuel) self url s e acc page w =
  (Returned (acc ++ p), add_log w [commits_request self url s e page] []).
Proof.
  intros Hst Hj Hshort. cbn [get_commits_loop].
  rewrite (bind_returned _ _ _ _ _ (http_get_eq _ _ _)).
  rewrite Hst, Hj. cbn [Nat.eqb negb].
  destruct p as [|x p']; [by rewrite app_nil_r|].
  unfold short_page in Hshort. apply Nat.ltb_lt in Hshort. by rewrite Hshort.
Qed.

(** The last iteration: any status other than 200. *)
Lemma get_commits_loop_error fuel url s e acc page w :
  status_code (commits_endpoint gh (commits_request self url s e page)) <> 200 ->
  get_commits_loop gh (S fuel) self url s e acc page w =
  (Returned acc, add_log w [commits_request self url s e page] []).
Proof.
  intros Hst. cbn [get_commits_loop].
  rewrite (bind_returned _ _ _ _ _ (http_get_eq _ _ _)).
  apply Nat.eqb_neq in Hst. by rewrite Hst.
Qed.

Lemma get_repositories_loop_step fuel acc page w p :
  status_code (repos_endpoint gh (repos_request self page)) = 200 ->
  json (repos_endpoint gh (repos_request self page)) = p ->
  full_page p ->
  get_all_repositories_loop gh (S fuel) self acc page w =
  get_all_repositories_loop gh fuel self (acc ++ p) (page + 1)
    (add_log w [repos_request self page] []).
Proof.
  intros Hst Hj Hfull. cbn [get_all_repositories_loop].
  rewrite (bind_returned _ _ _ _ _ (http_get_eq _ _ _)).
  rewrite Hst, Hj. cbn [Nat.eqb negb].
  destruct (full_page_not_short p Hfull) as [Hlt (x & p' & ->)].
  by rewrite Hlt.
Qed.

Lemma get_repositories_loop_full full : ∀ fuel acc page w,
  Forall full_page full ->
  (∀ i p, full !! i = Some p ->
     status_code (repos_endpoint gh (repos_request self (page + i))) = 200 /\
     json (repos_endpoint gh (repos_request self (page + i))) = p) ->
  get_all_repositories_loop gh (length full + fuel) self acc page w =
  get_all_repositories_loop gh fuel self (acc ++ concat full) (page + length full)
    (add_log w (map (repos_request self) (seq page (length full))) []).
Proof.
  induction full as [|p full IH]; intros fuel acc page w Hfull Hsrv.
  - simpl. by rewrite app_nil_r, Nat.add_0_r, add_log_nil.
  - inversion Hfull as [|? ? Hp Hrest]; subst.
    destruct (Hsrv 0 p eq_refl) as [Hst Hj]. rewrite Nat.add_0_r in Hst, Hj.
    cbn [length Nat.add]. rewrite (get_repositories_loop_step _ _ _ _ p) by done.
    rewrite IH; [|done|].
    + rewrite add_log_add_log. cbn [concat seq map app].
      rewrite <- app_assoc, Nat.add_1_r.
      by replace (S page + length full) with (page + S (length full)) by lia.
    + intros i q Hq. replace (page + 1 + i) with (page + S i) by lia.
      by apply Hsrv.
Qed.

Lemma get_repositories_loop_short fuel acc page w p :
  status_code (repos_endpoint gh (repos_request self page)) = 200 ->
  json (repos_endpoint gh (repos_request self page)) = p ->
  short_page p ->
  get_all_repositories_loop gh (S fuel) self acc page w =
  (Returned (acc ++ p), add_log w [repos_request self page] []).
Proof.
  intros Hst Hj Hshort. cbn [get_all_repositories_loop].
  rewrite (bind_returned _ _ _ _ _ (http_get_eq _ _ _)).
  rewrite Hst, Hj. cbn [Nat.eqb negb].
  destruct p as [|x p']; [by rewrite app_nil_r|].
  unfold short_page in Hshort. apply Nat.ltb_lt in Hshort. by rewrite Hshort.
Qed.

Lemma serves_app_l {A} (endpoint : request -> response (list A)) req full last :
  serves endpoint req (full ++ [last]) ->
  (∀ i p, full !! i = Some p ->
     status_code (endpoint (req (1 + i))) = 200 /\ json (endpoint (req (1 + i))) = p)
  /\ status_code (endpoint (req (1 + length full))) = 200
  /\ json (endpoint (req (1 + length full))) = last.
Proof.
  intros H. split.
  - intros i p Hi. apply H. by apply lookup_app_l_Some.
  - apply H. rewrite lookup_app_r by lia. by rewrite Nat.sub_diag.
Qed.

Lemma concat_snoc {A} (ls : list (list A)) l : concat (ls ++ [l]) = concat ls ++ l.
Proof. by rewrite concat_app; simpl; rewrite app_nil_r. Qed.

Lemma length_concat_sum {A} (ls : list (list A)) :
  length (concat ls) = sum_list (map length ls).
Proof. induction ls as [|l ls IH]; simpl; [done|]. by rewrite length_app, IH. Qed.

(** Commit pagination over full pages followed by one short page. *)
Lemma get_commits_loop_pages fuel url s e w full last :
  Forall full_page full -> short_page last ->
  serves (commits_endpoint gh) (commits_request self url s e) (full ++ [last]) ->
  length full < fuel ->
  get_commits_loop gh fuel self url s e [] 1 w =
  (Returned (concat (full ++ [last])),
   add_log w (map (commits_request self url s e) (seq 1 (S (length full)))) []).
Proof.
  intros Hfull Hshort Hsrv Hfuel.
  apply serves_app_l in Hsrv as (Hsrv & Hst & Hj).
  replace fuel with (length full + S (fuel - S (length full))) by lia.
  rewrite get_commits_loop_full by done.
  rewrite (get_commits_loop_short _ _ _ _ _ _ _ last) by done.
  rewrite add_log_add_log, concat_snoc. cbn [app]. do 2 f_equal.
  by rewrite seq_S, map_app.
Qed.

Lemma get_repositories_loop_pages fuel w full last :
  Forall full_page full -> short_page last ->
  serves (repos_endpoint gh) (repos_request self) (full ++ [last]) ->
  length full < fuel ->
  get_all_repositories_loop gh fuel self [] 1 w =
  (Returned (concat (full ++ [last])),
   add_log w (map (repos_request self) (seq 1 (S (length full)))) []).
Proof.
  intros Hfull Hshort Hsrv Hfuel.
  apply serves_app_l in Hsrv as (Hsrv & Hst & Hj).
  replace fuel with (length full + S (fuel - S (length full))) by lia.
  rewrite get_repositories_loop_full by done.
  rewrite (get_repositories_loop_short _ _ _ _ last) by done.
  rewrite add_log_add_log, concat_snoc. cbn [app]. do 2 f_equal.
  by rewrite seq_S, map_app.
Qed.

End Pagination.

Lemma serves_prefix {A} (endpoint : request -> response (list A)) req pages beyond :
  serves endpoint req (pages ++ beyond) -> serves endpoint req pages.
Proof. intros H i p Hi. apply H. by apply lookup_app_l_Some. Qed.

(** C3.  Let the service hold, for a listing, a sequence of pages that
    starts with full pages followed by a short (possibly empty) page, and
    answer the request for page [i] with status 200 and the [i]-th page.
    Then the repository enumerator and the per-repository commit paginator
    both return the items of the pages up to and including that short page,
    concatenated in the order received, as many as the sizes of these pages
    add up to; and the requests they issue are those for these pages, one
    each and in order: nothing is asked for beyond the first short page,
    whatever the service holds there. *)
Theorem pagination_returns_every_page
    (gh : github) (self : GitHubCommitsFetcher) (fuel : nat) (w : world)
    (rfull : list (list repository)) (rlast : list repository)
    (rbeyond : list (list repository))
    (repo_full_name url start_date end_date : string)
    (cfull : list (list commit)) (clast : list commit) (cbeyond : list (list commit)) :
  Forall full_page rfull -> short_page rlast ->
  serves (repos_endpoint gh) (repos_request self) (rfull ++ rlast :: rbeyond) ->
  Forall full_page cfull -> short_page clast ->
  commits_url self repo_full_name = Some url ->
  serves (commits_endpoint gh) (commits_request self url start_date end_date)
    (cfull ++ clast :: cbeyond) ->
  length rfull < fuel -> length cfull < fuel ->
  let rpages := rfull ++ [rlast] in
  let cpages := cfull ++ [clast] in
  let r := get_all_repositories gh fuel self w in
  let c := get_commits_from_repo gh fuel self repo_full_name start_date end_date w in
  (r.1 = Returned (concat rpages)
   /\ length (concat rpages) = sum_list (map length rpages)
   /\ requests r.2 = requests w ++ map (repos_request self) (seq 1 (length rpages)))
  /\ (c.1 = Returned (concat cpages)
      /\ length (concat cpages) = sum_list (map length cpages)
      /\ requests c.2 =
         requests w ++ map (commits_request self url start_date end_date)
                           (seq 1 (length cpages))).
Proof.
  intros Hrfull Hrshort Hrsrv Hcfull Hcshort Hurl Hcsrv Hrfuel Hcfuel rpages cpages r c.
  replace (rfull ++ rlast :: rbeyond) with ((rfull ++ [rlast]) ++ rbeyond) in Hrsrv
    by (by rewrite <- app_assoc).
  replace (cfull ++ clast :: cbeyond) with ((cfull ++ [clast]) ++ cbeyond) in Hcsrv
    by (by rewrite <- app_assoc).
  apply serves_prefix in Hrsrv, Hcsrv.
  split.
  - subst r. unfold get_all_repositories.
    rewrite (bind_returned _ _ _ _ _ (print_eq _ _)).
    rewrite (bind_returned _ _ _ _ _
               (get_repositories_loop_pages gh self fuel _ rfull rlast
                  Hrfull Hrshort Hrsrv Hrfuel)).
    rewrite (bind_returned _ _ _ _ _ (print_eq _ _)).
    cbn [fst snd]. split; [done|]. split; [apply length_concat_sum|].
    subst rpages. rewrite length_app. cbn [length]. rewrite Nat.add_1_r.
    simpl. by rewrite !app_nil_r.
  - subst c. unfold get_commits_from_repo. rewrite Hurl.
    rewrite (get_commits_loop_pages gh self fuel url start_date end_date w cfull clast)
      by done.
    cbn [fst snd]. split; [done|]. split; [apply length_concat_sum|].
    subst cpages. rewrite length_app. cbn [length]. by rewrite Nat.add_1_r.
Qed.

(** ** Failure containment *)

Section Containment.
Context (gh : github) (self : GitHubCommitsFetcher).

(** A repository whose pagination meets a status other than 200 after the
    full pages [full]. *)
Lemma get_commits_from_repo_error fuel name url s e w full :
  commits_url self name = Some url ->
  Forall full_page full ->
  serves (commits_endpoint gh) (commits_request self url s e) full ->
  status_code (commits_endpoint gh (commits_request self url s e (S (length full)))) <> 200 ->
  length full < fuel ->
  get_commits_from_repo gh fuel self name s e w =
  (Returned (concat full),
   add_log w (map (commits_request self url s e) (seq 1 (S (length full)))) []).
Proof.
  intros Hurl Hfull Hsrv Hst Hfuel. unfold get_commits_from_repo. rewrite Hurl.
  replace fuel with (length full + S (fuel - S (length full))) by lia.
  rewrite get_commits_loop_full; [|done|intros i p Hi; by apply Hsrv].
  rewrite get_commits_loop_error by done.
  rewrite add_log_add_log. cbn [app]. do 2 f_equal.
  by rewrite seq_S, map_app.
Qed.

(** One turn of the loop over the repositories, for a repository whose
    commits were fetched without an exception. *)
Lemma fetch_repos_loop_cons fuel s e repo todo i total acc counts w commits reqs :
  get_commits_from_repo gh fuel self (full_name repo) s e
    (add_log w []
       [progress_chunk i total repo])
  = (Returned commits,
     add_log
       (add_log w []
          [progress_chunk i total repo])
       reqs []) ->
  fetch_repos_loop gh fuel self s e (repo :: todo) i total acc counts w =
  fetch_repos_loop gh fuel self s e todo (S i) total
    (acc ++ tagged repo commits)
    (match commits with
     | [] => counts
     | _ :: _ => dict_set (full_name repo) (length commits) counts
     end)
    (add_log w reqs
       [progress_chunk i total repo; count_chunk (length commits)]).
Proof.
  intros Hget. cbn [fetch_repos_loop].
  rewrite (bind_returned _ _ _ _ _ (print_end_eq _ _ _)).
  rewrite (bind_returned _ _ _ _ _ Hget).
  destruct commits as [|c commits].
  - rewrite (bind_returned _ _ _ _ _ (print_eq _ _)).
    rewrite !add_log_add_log. unfold tagged. cbn [map app length].
    by rewrite !app_nil_r.
  - rewrite (bind_returned _ _ _ _ _ (print_eq _ _)).
    rewrite !add_log_add_log. unfold tagged. by rewrite length_map, !app_nil_r.
Qed.

End Containment.

(** ** Sorting *)

Section SortFacts.
Context {A K : Type} (leb : K -> K -> bool) (key : A -> K).
Hypothesis leb_total : ∀ x y, leb x y = true \/ leb y x = true.

(** [a] may stand before [b] in a descending list. *)
Local Abbreviation desc := (fun a b : A => leb (key b) (key a) = true).

Lemma insert_desc_hd x y l :
  desc y x -> HdRel desc y l -> HdRel desc y (insert_desc leb key x l).
Proof.
  intros Hyx Hhd. destruct l as [|z l]; simpl; [by constructor|].
  destruct (leb (key z) (key x)); constructor; [done|].
  by inversion Hhd.
Qed.

Lemma insert_desc_sorted x l :
  Sorted desc l -> Sorted desc (insert_desc leb key x l).
Proof.
  induction l as [|y l IH]; intros Hs; simpl.
  - by repeat constructor.
  - inversion Hs as [|? ? Hl Hhd]; subst.
    destruct (leb (key y) (key x)) eqn:Hle.
    + constructor; [done|]. by constructor.
    + constructor; [by apply IH|].
      apply insert_desc_hd; [|done].
      destruct (leb_total (key x) (key y)); congruence.
Qed.

Lemma sort_desc_sorted l : Sorted desc (sort_desc leb key l).
Proof.
  induction l as [|x l IH]; simpl; [constructor|]. by apply insert_desc_sorted.
Qed.

Lemma insert_desc_perm x l : Permutation (insert_desc leb key x l) (x :: l).
Proof using Type.
  induction l as [|y l IH]; simpl; [done|].
  destruct (leb (key y) (key x)); [done|].
  rewrite IH. apply perm_swap.
Qed.

Lemma sort_desc_perm l : Permutation (sort_desc leb key l) l.
Proof using Type.
  induction l as [|x l IH]; simpl; [done|].
  rewrite insert_desc_perm. by constructor.
Qed.

Lemma sorted_adjacent (R : A -> A -> Prop) l :
  Sorted R l -> ∀ i a b, l !! i = Some a -> l !! S i = Some b -> R a b.
Proof using Type.
  induction 1 as [|x l Hs IH Hhd]; intros i a b Ha Hb; [done|].
  destruct i as [|i]; simpl in *.
  - injection Ha as ->. destruct l as [|y l]; [done|].
    simpl in Hb. injection Hb as ->. by inversion Hhd.
  - by eapply IH.
Qed.
End SortFacts.

Lemma string_leb_total (x y : string) : (x <=? y)%string = true \/ (y <=? x)%string = true.
Proof. apply String.leb_total. Qed.

(** ** The aggregation loop *)

Section Aggregation.
Context (gh : github) (self : GitHubCommitsFetcher) (fuel : nat).
Context (start_date end_date : string).

Lemma log_only_get_commits_loop url : ∀ fuel' acc page,
  log_only (get_commits_loop gh fuel' self url start_date end_date acc page).
Proof.
  induction fuel' as [|fuel' IH]; intros acc page; cbn [get_commits_loop].
  - apply log_only_out_of_fuel.
  - log_only_step; [log_only_step|].
    destruct (negb _); [log_only_step|].
    destruct (json a); [log_only_step|].
    destruct (_ <? _)%nat; [log_only_step | apply IH].
Qed.

Lemma log_only_get_commits_from_repo name :
  log_only (get_commits_from_repo gh fuel self name start_date end_date).
Proof.
  unfold get_commits_from_repo.
  destruct (commits_url self name); [apply log_only_get_commits_loop | log_only_step].
Qed.

Lemma log_only_get_all_repositories_loop : ∀ fuel' acc page,
  log_only (get_all_repositories_loop gh fuel' self acc page).
Proof.
  induction fuel' as [|fuel' IH]; intros acc page; cbn [get_all_repositories_loop].
  - apply log_only_out_of_fuel.
  - log_only_step; [log_only_step|].
    destruct (negb _).
    { log_only_step; [log_only_step|]. destruct (error_json a); repeat log_only_step. }
    destruct (json a); [log_only_step|].
    destruct (_ <? _)%nat; [log_only_step | apply IH].
Qed.

Lemma log_only_get_all_repositories : log_only (get_all_repositories gh fuel self).
Proof.
  unfold get_all_repositories.
  log_only_step; [log_only_step|].
  log_only_step; [apply log_only_get_all_repositories_loop|].
  repeat log_only_step.
Qed.

Lemma log_only_fetch_repos_loop total : ∀ todo i acc counts,
  log_only (fetch_repos_loop gh fuel self start_date end_date todo i total acc counts).
Proof.
  induction todo as [|repo todo IH]; intros i acc counts; cbn [fetch_repos_loop].
  - log_only_step.
  - log_only_step; [log_only_step|].
    log_only_step; [apply log_only_get_commits_from_repo|].
    destruct a0; (log_only_step; [log_only_step | apply IH]).
Qed.

Lemma log_only_fetch_all_commits :
  log_only (fetch_all_commits gh fuel self start_date end_date).
Proof.
  unfold fetch_all_commits.
  log_only_step; [apply log_only_get_all_repositories|].
  log_only_step; [log_only_step|].
  log_only_step; [log_only_step|].
  log_only_step; [apply log_only_fetch_repos_loop|].
  destruct a2. log_only_step.
Qed.

(** What a normal end of the loop over the repositories says about its
    result. *)
Lemma fetch_repos_loop_inv total : ∀ todo i acc counts w cs cnt w',
  fetch_repos_loop gh fuel self start_date end_date todo i total acc counts w
    = (Returned (cs, cnt), w') ->
  ∃ lists,
    Forall2 (fetched_from gh fuel self start_date end_date) todo lists
    /\ cs = acc ++ concat (zip_with tagged todo lists)
    /\ cnt = counted todo lists counts.
Proof.
  induction todo as [|repo todo IH]; intros i acc counts w cs cnt w' Hrun.
  - cbn in Hrun. injection Hrun as <- <- <-. exists [].
    split; [constructor|]. by rewrite app_nil_r.
  - cbn [fetch_repos_loop] in Hrun.
    apply bind_inv in Hrun as (? & w1 & _ & Hrun).
    apply bind_inv in Hrun as (l & w2 & Hget & Hrun).
    assert (fetched_from gh fuel self start_date end_date repo l) as Hf.
    { intros w0.
      rewrite (log_only_result _ w0 w1) by apply log_only_get_commits_from_repo.
      by rewrite Hget. }
    destruct l as [|c l].
    + apply bind_inv in Hrun as (? & w3 & _ & Hrun).
      apply IH in Hrun as (lists & Hall & -> & ->).
      exists ([] :: lists). split; [by constructor|]. done.
    + apply bind_inv in Hrun as (? & w3 & _ & Hrun).
      apply IH in Hrun as (lists & Hall & -> & ->).
      exists ((c :: l) :: lists). split; [by constructor|].
      split.
      * cbn [zip_with concat]. by rewrite <- app_assoc.
      * cbn [counted]. f_equal. unfold tagged. by rewrite length_map.
Qed.

(** What a normal end of [fetch_all_commits] says about its result. *)
Lemma fetch_all_commits_inv w cs cnt w' :
  fetch_all_commits gh fuel self start_date end_date w = (Returned (cs, cnt), w') ->
  ∃ repos lists,
    (get_all_repositories gh fuel self w).1 = Returned repos
    /\ Forall2 (fetched_from gh fuel self start_date end_date) repos lists
    /\ cs = sort_desc String.leb committer_date (concat (zip_with tagged repos lists))
    /\ cnt = counted repos lists [].
Proof.
  unfold fetch_all_commits. intros Hrun.
  apply bind_inv in Hrun as (repos & w1 & Hrepos & Hrun).
  apply bind_inv in Hrun as (? & w2 & _ & Hrun).
  apply bind_inv in Hrun as (? & w3 & _ & Hrun).
  apply bind_inv in Hrun as ([all cnt'] & w4 & Hloop & Hrun).
  injection Hrun as <- <- <-.
  apply fetch_repos_loop_inv in Hloop as (lists & Hall & -> & ->).
  exists repos, lists. by rewrite Hrepos.
Qed.

(** The loop over the repositories returns when every fetch does. *)
Lemma fetch_repos_loop_returns total : ∀ todo i acc counts w,
  Forall (fun repo => ∃ l, fetched_from gh fuel self start_date end_date repo l) todo ->
  ∃ cs cnt w',
    fetch_repos_loop gh fuel self start_date end_date todo i total acc counts w
    = (Returned (cs, cnt), w').
Proof.
  induction todo as [|repo todo IH]; intros i acc counts w Hall.
  - by eexists _, _, _.
  - apply Forall_cons in Hall as [[l Hl] Hall]. cbn [fetch_repos_loop].
    rewrite (bind_returned _ _ _ _ _ (print_end_eq _ _ _)).
    match goal with
    | |- context [(get_commits_from_repo _ _ _ _ _ _ ≫= _) ?w0] =>
        pose proof (Hl w0) as Hget;
        destruct (get_commits_from_repo gh fuel self (full_name repo)
                    start_date end_date w0) as [o w1] eqn:Hrun
    end.
    simpl in Hget. subst o. rewrite (bind_returned _ _ _ _ _ Hrun).
    destruct l as [|c l]; rewrite (bind_returned _ _ _ _ _ (print_eq _ _)); by apply IH.
Qed.

(** [fetch_all_commits] returns when the enumeration and every fetch do:
    within the fuel, no repository name without its one slash. *)
Lemma fetch_all_commits_returns w repos :
  (get_all_repositories gh fuel self w).1 = Returned repos ->
  Forall (fun repo => ∃ l, fetched_from gh fuel self start_date end_date repo l) repos ->
  ∃ cs cnt w',
    fetch_all_commits gh fuel self start_date end_date w = (Returned (cs, cnt), w').
Proof.
  intros Hrepos Hall. unfold fetch_all_commits.
  destruct (get_all_repositories gh fuel self w) as [o w1] eqn:Hrun.
  simpl in Hrepos. subst o. rewrite (bind_returned _ _ _ _ _ Hrun).
  do 2 rewrite (bind_returned _ _ _ _ _ (print_eq _ _)).
  match goal with
  | |- context [(fetch_repos_loop _ _ _ _ _ ?todo ?i ?total ?acc ?counts ≫= _) ?w0] =>
      destruct (fetch_repos_loop_returns total todo i acc counts w0 Hall)
        as (cs & cnt & w' & Hloop)
  end.
  rewrite (bind_returned _ _ _ _ _ Hloop). by eexists _, _, _.
Qed.

End Aggregation.

(** ** Timestamps: the order of the strings is the order in time *)

Section Timestamps.

Lemma string_compare_cons a s b t :
  (String a s ?= String b t)%string =
  match Ascii.compare a b with
  | Eq => (s ?= t)%string
  | c => c
  end.
Proof. reflexivity. Qed.

Lemma ascii_compare_refl a : Ascii.compare a a = Eq.
Proof. unfold Ascii.compare. apply N.compare_refl. Qed.

Lemma string_compare_app a1 : ∀ a2 r1 r2,
  String.length a1 = String.length a2 ->
  (a1 +:+ r1 ?= a2 +:+ r2)%string = lex (a1 ?= a2)%string (r1 ?= r2)%string.
Proof.
  induction a1 as [|c a1 IH]; intros [|d a2] r1 r2 Hlen; try discriminate.
  - reflexivity.
  - change (String c a1 +:+ r1) with (String c (a1 +:+ r1)).
    change (String d a2 +:+ r2) with (String d (a2 +:+ r2)).
    rewrite !string_compare_cons.
    destruct (Ascii.compare c d) eqn:Hcd.
    + rewrite IH by (by injection Hlen). unfold lex.
      by destruct (a1 ?= a2)%string.
    + done.
    + done.
Qed.

Lemma string_compare_lit c r1 r2 :
  (String c r1 ?= String c r2)%string = (r1 ?= r2)%string.
Proof. by rewrite string_compare_cons, ascii_compare_refl. Qed.

Lemma string_compare_lit_app c r1 r2 :
  (String c "" +:+ r1 ?= String c "" +:+ r2)%string = (r1 ?= r2)%string.
Proof. apply string_compare_lit. Qed.

Lemma digit_compare x y :
  x < 10 -> y < 10 -> Ascii.compare (digit x) (digit y) = (x ?= y)%nat.
Proof.
  intros Hx Hy.
  do 10 (destruct x as [|x]; [do 10 (destruct y as [|y]; [reflexivity|]); lia|]).
  lia.
Qed.

Lemma length_zero_pad w : ∀ n, String.length (zero_pad w n) = w.
Proof. induction w as [|w IH]; intros n; simpl; [done|]. by rewrite IH. Qed.

Lemma nat_compare_div_mod b n m :
  0 < b -> (n ?= m)%nat = lex (n / b ?= m / b)%nat (n mod b ?= m mod b)%nat.
Proof.
  intros Hb.
  pose proof (Nat.div_mod_eq n b) as Hn. pose proof (Nat.div_mod_eq m b) as Hm.
  pose proof (Nat.mod_upper_bound n b ltac:(lia)) as Hnr.
  pose proof (Nat.mod_upper_bound m b ltac:(lia)) as Hmr.
  destruct (Nat.compare_spec (n / b) (m / b)) as [Hq|Hq|Hq]; cbn [lex].
  - destruct (Nat.compare_spec (n mod b) (m mod b)) as [Hr|Hr|Hr].
    + apply Nat.compare_eq_iff. congruence.
    + apply Nat.compare_lt_iff. rewrite Hn, Hm, Hq. lia.
    + apply Nat.compare_gt_iff. rewrite Hn, Hm, Hq. lia.
  - apply Nat.compare_lt_iff. nia.
  - apply Nat.compare_gt_iff. nia.
Qed.

(** Fixed width and zero padding make the order of the numerals the order
    of the numbers. *)
Lemma zero_pad_compare w : ∀ n m,
  n < 10 ^ w -> m < 10 ^ w ->
  (zero_pad w n ?= zero_pad w m)%string = (n ?= m)%nat.
Proof.
  induction w as [|w IH]; intros n m Hn Hm.
  - simpl in *. by replace n with 0 by lia; replace m with 0 by lia.
  - cbn [zero_pad]. rewrite string_compare_cons.
    assert (0 < 10 ^ w) as Hpos by (apply Nat.neq_0_lt_0, Nat.pow_nonzero; lia).
    rewrite Nat.pow_succ_r' in Hn, Hm.
    rewrite digit_compare.
    + rewrite IH by (apply Nat.mod_upper_bound; lia).
      rewrite (nat_compare_div_mod (10 ^ w) n m) by done.
      unfold lex. by destruct (_ ?= _)%nat.
    + apply Nat.Div0.div_lt_upper_bound. lia.
    + apply Nat.Div0.div_lt_upper_bound. lia.
Qed.

Lemma iso8601_compare t1 t2 :
  fits t1 -> fits t2 ->
  (iso8601 t1 ?= iso8601 t2)%string = chron_compare t1 t2.
Proof.
  intros (Hy1 & Hmo1 & Hd1 & Hh1 & Hmi1 & Hs1) (Hy2 & Hmo2 & Hd2 & Hh2 & Hmi2 & Hs2).
  unfold iso8601, chron_compare.
  repeat (rewrite string_compare_app by (by rewrite !length_zero_pad);
          rewrite zero_pad_compare by done;
          f_equal;
          rewrite ?string_compare_lit_app).
  unfold lex. by destruct (second t1 ?= second t2)%nat.
Qed.

Lemma string_leb_compare s1 s2 :
  (s1 <=? s2)%string = true <-> (s1 ?= s2)%string <> Gt.
Proof. unfold String.leb. destruct (s1 ?= s2)%string; split; congruence. Qed.

Lemma iso8601_leb t1 t2 :
  fits t1 -> fits t2 ->
  (iso8601 t1 <=? iso8601 t2)%string = true <-> chron_le t1 t2.
Proof.
  intros H1 H2. rewrite string_leb_compare, iso8601_compare by done. reflexivity.
Qed.

End Timestamps.

(** C2.  In every list of commits that [fetch_all_commits] returns, each
    commit's committer timestamp is greater than or equal to that of the
    commit after it, in the order of strings; and on timestamps of the
    fixed-width zero-padded shape YYYY-MM-DDTHH:MM:SSZ the order of strings
    is the order in time. *)
Theorem aggregated_commits_newest_first
    (gh : github) (fuel : nat) (self : GitHubCommitsFetcher)
    (start_date end_date : string) (w w' : world)
    (commits : list commit) (repo_commit_count : dict nat) :
  fetch_all_commits gh fuel self start_date end_date w
    = (Returned (commits, repo_commit_count), w') ->
  (∀ i a b, commits !! i = Some a -> commits !! S i = Some b ->
            (committer_date b <=? committer_date a)%string = true)
  /\ (∀ t1 t2, fits t1 -> fits t2 ->
        ((iso8601 t1 <=? iso8601 t2)%string = true <-> chron_le t1 t2)).
Proof.
  intros Hrun. split; [|apply iso8601_leb].
  apply fetch_all_commits_inv in Hrun as (repos & lists & _ & _ & -> & _).
  intros i a b Ha Hb.
  apply (sorted_adjacent (fun a b => (committer_date b <=? committer_date a)%string = true)
           _ (sort_desc_sorted String.leb committer_date string_leb_total _) i a b Ha Hb).
Qed.

(** ** The count mapping *)

Section DictFacts.
Context {V : Type}.
Implicit Types (d : dict V) (k : string) (v : V).

Lemma dict_get_set_eq k v d : dict_get k (dict_set k v d) = Some v.
Proof.
  induction d as [|[k' v'] d IH]; simpl.
  - by rewrite String.eqb_refl.
  - destruct (String.eqb k' k) eqn:E; simpl; rewrite E; [done | apply IH].
Qed.

Lemma dict_get_set_ne k k' v d : k <> k' -> dict_get k' (dict_set k v d) = dict_get k' d.
Proof.
  intros Hne. induction d as [|[k0 v0] d IH]; simpl.
  - apply String.eqb_neq in Hne. by rewrite Hne.
  - destruct (String.eqb k0 k) eqn:E; simpl.
    + apply String.eqb_eq in E as ->.
      apply String.eqb_neq in Hne. by rewrite Hne.
    + by rewrite IH.
Qed.

Lemma dict_get_None_keys k d : dict_get k d = None <-> k ∉ dict_keys d.
Proof.
  induction d as [|[k0 v0] d IH]; simpl.
  - split; [intros _; apply not_elem_of_nil | done].
  - rewrite not_elem_of_cons. destruct (String.eqb k0 k) eqn:E.
    + apply String.eqb_eq in E. subst k0. split; [done | intros [? _]; done].
    + apply String.eqb_neq in E. rewrite IH.
      split; [intros ?; split; [congruence | done] | by intros [_ ?]].
Qed.

Lemma dict_keys_set_new k v d :
  dict_get k d = None -> dict_keys (dict_set k v d) = dict_keys d ++ [k].
Proof.
  induction d as [|[k0 v0] d IH]; simpl; [done|].
  destruct (String.eqb k0 k) eqn:E; [done|]. intros H. simpl. by rewrite IH.
Qed.

Lemma dict_values_set_new k v d :
  dict_get k d = None -> dict_values (dict_set k v d) = dict_values d ++ [v].
Proof.
  induction d as [|[k0 v0] d IH]; simpl; [done|].
  destruct (String.eqb k0 k) eqn:E; [done|]. intros H. simpl. by rewrite IH.
Qed.
End DictFacts.

Section Counting.
Context (gh : github) (self : GitHubCommitsFetcher) (fuel : nat).
Context (start_date end_date : string).

Lemma sum_list_snoc l n : sum_list (l ++ [n]) = sum_list l + n.
Proof. induction l as [|m l IH]; simpl; lia. Qed.

(** The loop's effect on the count mapping, for repositories of pairwise
    distinct names none of which is in the mapping yet. *)
Lemma counted_spec : ∀ repos lists counts,
  length repos = length lists ->
  NoDup (map full_name repos) ->
  (∀ repo, repo ∈ repos -> dict_get (full_name repo) counts = None) ->
  NoDup (dict_keys counts) ->
  let cnt := counted repos lists counts in
  NoDup (dict_keys cnt)
  /\ sum_list (dict_values cnt)
     = sum_list (dict_values counts) + length (concat (zip_with tagged repos lists))
  /\ ∀ name n,
       dict_get name cnt = Some n <->
       dict_get name counts = Some n
       \/ ∃ j repo l, repos !! j = Some repo /\ lists !! j = Some l
                      /\ full_name repo = name /\ l <> [] /\ n = length l.
Proof.
  induction repos as [|repo repos IH]; intros [|l lists] counts Hlen Hnd Hfresh Hkeys;
    try discriminate.
  - simpl. split; [done|]. split; [lia|]. intros name n. split; [by left|].
    intros [?|(j & ? & ? & ? & _)]; done.
  - cbn [counted]. cbn [map] in Hnd. apply NoDup_cons in Hnd as [Hnotin Hnd].
    injection Hlen as Hlen.
    assert (∀ r, r ∈ repos -> full_name r <> full_name repo) as Hother.
    { intros r Hr Heq. apply Hnotin. rewrite <- Heq.
      apply list_elem_of_fmap. eauto. }
    pose proof (Hfresh repo ltac:(left)) as Hnone.
    destruct l as [|c l].
    + destruct (IH lists counts Hlen Hnd) as (Hk & Hsum & Hget); [|done|].
      { intros r Hr. apply Hfresh. by right. }
      split; [done|]. split; [done|].
      intros name n. rewrite Hget. split.
      * intros [?|(j & r & l' & ? & ? & ? & ? & ?)]; [by left|].
        right. by exists (S j), r, l'.
      * intros [?|(j & r & l' & Hj & Hl & ? & ? & ?)]; [by left|].
        destruct j as [|j]; simpl in Hj, Hl; [congruence|].
        right. by exists j, r, l'.
    + set (counts' := dict_set (full_name repo) (length (c :: l)) counts).
      destruct (IH lists counts' Hlen Hnd) as (Hk & Hsum & Hget).
      { intros r Hr. unfold counts'. rewrite dict_get_set_ne by (symmetry; by apply Hother).
        apply Hfresh. by right. }
      { unfold counts'. rewrite dict_keys_set_new by done.
        apply NoDup_app. split; [done|]. split; [|apply NoDup_singleton].
        intros k Hk ->%list_elem_of_singleton.
        by apply dict_get_None_keys in Hnone. }
      split; [done|]. split.
      * rewrite Hsum. unfold counts'. rewrite dict_values_set_new by done.
        rewrite sum_list_snoc. cbn [zip_with concat]. rewrite length_app.
        unfold tagged at 2. rewrite length_map. lia.
      * intros name n. rewrite Hget. unfold counts'. split.
        -- intros [Hc|(j & r & l' & ? & ? & ? & ? & ?)].
           ++ destruct (decide (full_name repo = name)) as [<-|Hne].
              ** rewrite dict_get_set_eq in Hc. injection Hc as <-.
                 right. by exists 0, repo, (c :: l).
              ** rewrite dict_get_set_ne in Hc by done. by left.
           ++ right. by exists (S j), r, l'.
        -- intros [Hc|(j & r & l' & Hj & Hl & Hname & Hne & Hn)].
           ++ left. rewrite dict_get_set_ne; [done|]. congruence.
           ++ destruct j as [|j]; simpl in Hj, Hl.
              ** injection Hj as <-. injection Hl as <-. subst name n.
                 left. apply dict_get_set_eq.
              ** right. by exists j, r, l'.
Qed.

End Counting.

(** C10.  Take a run of [fetch_all_commits] that returns, and in which the
    full names of the repositories returned by the enumerator are pairwise
    distinct.  Then the count mapping has an entry [name -> n] exactly when
    [name] is the full name of an enumerated repository for which
    [get_commits_from_repo] returned a non-empty list of [n] commits; no key
    occurs twice; and the counts add up to the length of the aggregated
    list. *)
Theorem repo_commit_count_matches_fetched_commits
    (gh : github) (fuel : nat) (self : GitHubCommitsFetcher)
    (start_date end_date : string) (w w' : world)
    (repos : list repository)
    (commits : list commit) (repo_commit_count : dict nat) :
  fetch_all_commits gh fuel self start_date end_date w
    = (Returned (commits, repo_commit_count), w') ->
  (get_all_repositories gh fuel self w).1 = Returned repos ->
  NoDup (map full_name repos) ->
  (∀ name n,
     dict_get name repo_commit_count = Some n <->
     ∃ repo l, repo ∈ repos /\ full_name repo = name
               /\ fetched_from gh fuel self start_date end_date repo l
               /\ l <> [] /\ n = length l)
  /\ NoDup (dict_keys repo_commit_count)
  /\ sum_list (dict_values repo_commit_count) = length commits.
Proof.
  intros Hrun Hrepos Hnd.
  apply fetch_all_commits_inv in Hrun as (repos' & lists & Hrepos' & Hall & -> & ->).
  assert (repos' = repos) as -> by congruence.
  pose proof (Forall2_length _ _ _ Hall) as Hlen.
  destruct (counted_spec repos lists [] Hlen Hnd) as (Hkeys & Hsum & Hget);
    [done | constructor |].
  split; [|split; [done|]].
  - intros name n. rewrite Hget. split.
    + intros [?|(j & repo & l & Hj & Hl & ? & ? & ?)]; [done|].
      exists repo, l. split; [by eapply list_elem_of_lookup_2|]. split; [done|].
      split; [|done]. by eapply Forall2_lookup_lr.
    + intros (repo & l & Hin & Hname & Hf & Hne & ->). right.
      apply list_elem_of_lookup in Hin as (j & Hj).
      destruct (Forall2_lookup_l _ _ _ _ _ Hall Hj) as (l' & Hl' & Hf').
      exists j, repo, l'. split; [done|]. split; [done|]. split; [done|].
      assert (l' = l) as ->; [|done].
      specialize (Hf emp). specialize (Hf' emp). congruence.
  - rewrite Hsum. simpl.
    symmetry. apply Permutation_length, sort_desc_perm.
Qed.

(** Every commit of the aggregated list carries the reference of one of the
    enumerated repositories. *)
Lemma tagged_spec repo l c :
  c ∈ tagged repo l -> commit_repository c = Some (ref_of repo).
Proof. unfold tagged. intros (c0 & -> & _)%list_elem_of_fmap. done. Qed.

Lemma fetch_all_commits_tagged gh fuel self start_date end_date w w' commits cnt :
  fetch_all_commits gh fuel self start_date end_date w = (Returned (commits, cnt), w') ->
  ∃ repos, (get_all_repositories gh fuel self w).1 = Returned repos
    /\ Forall (fun c => ∃ repo, repo ∈ repos /\ commit_repository c = Some (ref_of repo))
         commits.
Proof.
  intros Hrun.
  apply fetch_all_commits_inv in Hrun as (repos & lists & Hrepos & Hall & -> & _).
  exists repos. split; [done|].
  apply Forall_forall. intros c Hc.
  apply list_elem_of_In in Hc.
  apply (Permutation_in _ (sort_desc_perm String.leb committer_date _)) in Hc.
  apply in_concat in Hc as (l & Hl & Hc).
  apply list_elem_of_In in Hl, Hc.
  apply list_elem_of_lookup in Hl as (j & Hj).
  apply lookup_zip_with_Some in Hj as (repo & l0 & -> & Hrepo & _).
  exists repo. split; [by eapply list_elem_of_lookup_2 | by eapply tagged_spec].
Qed.

(** ** Token validation and the run of [main] *)

Ltac step :=
  first
    [ rewrite (bind_returned _ _ _ _ _ (print_eq _ _))
    | rewrite (bind_returned _ _ _ _ _ (print_end_eq _ _ _))
    | rewrite (bind_returned _ _ _ _ _ (http_get_eq _ _ _)) ].

Section Run.
Context (gh : github).
Context {datetime : Type} (strptime : string -> string -> option datetime).
Context (strftime : datetime -> string -> string).

Lemma validate_token_eq token w :
  validate_token gh token w =
  (Returned (validation_result (user_endpoint gh (user_request token))),
   add_log w [user_request token] []).
Proof.
  unfold validate_token, validation_result. step.
  destruct (_ =? 200)%nat; [done|]. by destruct (_ =? 401)%nat.
Qed.

Lemma configured_check GITHUB_TOKEN USERNAME :
  configured GITHUB_TOKEN USERNAME ->
  negb (truthy_str GITHUB_TOKEN) || negb (truthy_str USERNAME) = false.
Proof. intros [-> ->]. done. Qed.

(** Without configuration [main] exits before it sends anything. *)
Lemma main_not_configured GITHUB_TOKEN USERNAME argv fuel w :
  ~ configured GITHUB_TOKEN USERNAME ->
  ∃ out, main gh strptime strftime GITHUB_TOKEN USERNAME argv fuel w
         = (Exited 1, add_log w [] out).
Proof.
  intros Hcfg. unfold main. do 4 step.
  assert (negb (truthy_str GITHUB_TOKEN) || negb (truthy_str USERNAME) = true) as ->.
  { unfold configured in Hcfg.
    destruct (truthy_str GITHUB_TOKEN), (truthy_str USERNAME); try done.
    by destruct Hcfg. }
  rewrite bind_eq. do 11 step. unfold sys_exit.
  rewrite !add_log_add_log. eauto.
Qed.

(** A token that the identity endpoint does not answer with 200. *)
Lemma main_token_refused GITHUB_TOKEN USERNAME argv fuel w :
  configured GITHUB_TOKEN USERNAME ->
  let token := default "" GITHUB_TOKEN in
  let r := user_endpoint gh (user_request token) in
  status_code r <> 200 ->
  main gh strptime strftime GITHUB_TOKEN USERNAME argv fuel w
  = (Exited 1,
     add_log w [user_request token]
       (banner ++ [validating_chunk] ++ invalid_token_chunks (validation_result r).2)).
Proof.
  intros Hcfg token r Hst. unfold main. do 4 step.
  rewrite (configured_check _ _ Hcfg).
  rewrite (bind_returned _ _ _ _ _ (mret_eq tt _)).
  step. rewrite (bind_returned _ _ _ _ _ (validate_token_eq _ _)).
  fold token. fold r. unfold validation_result.
  apply Nat.eqb_neq in Hst. rewrite Hst.
  destruct (status_code r =? 401)%nat; cbn [negb fst snd];
    rewrite bind_eq; do 2 step; unfold sys_exit; by rewrite !add_log_add_log.
Qed.

(** A token that is accepted: [main] reaches the command line. *)
Lemma main_bad_arguments GITHUB_TOKEN USERNAME argv fuel w :
  configured GITHUB_TOKEN USERNAME ->
  let token := default "" GITHUB_TOKEN in
  let r := user_endpoint gh (user_request token) in
  status_code r = 200 ->
  ~ two_arguments argv \/ malformed_dates strptime argv ->
  main gh strptime strftime GITHUB_TOKEN USERNAME argv fuel w
  = (Exited 1,
     add_log (after_validation w token (json r)) []
       (if decide (two_arguments argv) then date_error_chunks else usage_chunks)).
Proof.
  intros Hcfg token r Hst Hbad. unfold main. do 4 step.
  rewrite (configured_check _ _ Hcfg).
  rewrite (bind_returned _ _ _ _ _ (mret_eq tt _)).
  step. rewrite (bind_returned _ _ _ _ _ (validate_token_eq _ _)).
  fold token. fold r. unfold validation_result. rewrite Hst. cbn [Nat.eqb negb].
  rewrite (bind_returned _ _ _ _ _ (mret_eq tt _)).
  step. unfold after_validation, two_arguments in *.
  destruct Hbad as [Hcount|(prog & s & e & -> & Hdates)].
  - rewrite decide_False by done.
    destruct argv as [|a0 [|a1 [|a2 [|a3 l]]]]; try (simpl in Hcount; lia);
      do 3 step; unfold sys_exit; by rewrite !add_log_add_log.
  - rewrite decide_True by done.
    assert (match strptime s "%Y-%m-%d", strptime e "%Y-%m-%d" with
            | Some _, Some _ => false
            | _, _ => true
            end = true) as Hmatch.
    { destruct Hdates as [-> | ->]; [done|]. by destruct (strptime s _). }
    destruct (strptime s "%Y-%m-%d"), (strptime e "%Y-%m-%d"); try discriminate;
      rewrite bind_eq; step; unfold sys_exit; by rewrite !add_log_add_log.
Qed.

End Run.

(** C5.  [validate_token] returns success exactly when the identity endpoint
    answers 200, and then the second component is the login name; on 401 it
    returns failure with the reason [Invalid token]; on any other status it
    returns failure with the reason [Error: ] followed by the status code.
    A configured run whose token is answered with 401 prints the banner, the
    validation notice and the invalid-token error, exits with code 1, and has
    sent the identity request and nothing else. *)
Theorem validate_token_contract
    (gh : github) {datetime : Type} (strptime : string -> string -> option datetime)
    (strftime : datetime -> string -> string)
    (token : string) (GITHUB_TOKEN USERNAME : option string) (argv : list string)
    (fuel : nat) (w : world) :
  (let r := user_endpoint gh (user_request token) in
   ∃ valid result,
     validate_token gh token w = (Returned (valid, result), add_log w [user_request token] [])
     /\ (valid = true <-> status_code r = 200)
     /\ (status_code r = 200 -> result = json r)
     /\ (status_code r = 401 ->
         result = "Invalid token" /\ lower result = "invalid token")
     /\ (status_code r <> 200 -> status_code r <> 401 ->
         result = "Error: " +:+ str_of_nat (status_code r)))
  /\ (configured GITHUB_TOKEN USERNAME ->
      status_code (user_endpoint gh (user_request (default "" GITHUB_TOKEN))) = 401 ->
      let m := main gh strptime strftime GITHUB_TOKEN USERNAME argv fuel w in
      m = (Exited 1,
           add_log w [user_request (default "" GITHUB_TOKEN)]
             (banner ++ [validating_chunk] ++ invalid_token_chunks "Invalid token"))
      /\ exit_status m.1 = Some 1
      /\ requests m.2 = requests w ++ [user_request (default "" GITHUB_TOKEN)]).
Proof.
  split.
  - intros r. exists (validation_result r).1, (validation_result r).2.
    split; [rewrite validate_token_eq; unfold r; by destruct (validation_result _)|].
    unfold validation_result.
    destruct (status_code r =? 200)%nat eqn:E200.
    + apply Nat.eqb_eq in E200. cbn [fst snd].
      split; [done|]. split; [done|]. split; [intros ?; lia | done].
    + apply Nat.eqb_neq in E200.
      destruct (status_code r =? 401)%nat eqn:E401; cbn [fst snd].
      * apply Nat.eqb_eq in E401.
        split; [split; [done | intros ?; lia]|]. split; [done|]. split; [done|].
        intros ? ?; lia.
      * apply Nat.eqb_neq in E401.
        split; [split; [done | intros ?; lia]|]. split; [done|]. split; [done|].
        done.
  - intros Hcfg Hst m. subst m.
    rewrite (main_token_refused gh strptime strftime _ _ argv fuel w Hcfg)
      by (rewrite Hst; lia).
    unfold validation_result. rewrite Hst. cbn [Nat.eqb fst snd].
    done.
Qed.

(** C1, as the code has it.  When the command line does not have exactly two
    arguments, or one of the two dates is refused by the YYYY-MM-DD parse,
    the process exits with code 1 and never sends a repository or commit
    request: the only request that can have been sent is the identity lookup
    that validates the token.  When token and user name are configured and
    the token is accepted, that request has been sent, and the run ends by
    printing the usage message (wrong number of arguments) or the
    date-format error (malformed date). *)
Theorem bad_arguments_exit_after_token_validation
    (gh : github) {datetime : Type} (strptime : string -> string -> option datetime)
    (strftime : datetime -> string -> string)
    (GITHUB_TOKEN USERNAME : option string) (argv : list string)
    (fuel : nat) (w : world) :
  ~ two_arguments argv \/ malformed_dates strptime argv ->
  let token := default "" GITHUB_TOKEN in
  let r := user_endpoint gh (user_request token) in
  let m := main gh strptime strftime GITHUB_TOKEN USERNAME argv fuel w in
  m.1 = Exited 1
  /\ (requests m.2 = requests w \/ requests m.2 = requests w ++ [user_request token])
  /\ (configured GITHUB_TOKEN USERNAME -> status_code r = 200 ->
      m.2 = add_log (after_validation w token (json r)) []
              (if decide (two_arguments argv) then date_error_chunks else usage_chunks)).
Proof.
  intros Hbad token r m.
  assert (Decision (configured GITHUB_TOKEN USERNAME)) as [Hcfg|Hcfg].
  { unfold configured. apply _. }
  - destruct (decide (status_code r = 200)) as [Hst|Hst].
    + subst m. rewrite (main_bad_arguments gh strptime strftime _ _ argv fuel w Hcfg Hst Hbad).
      split; [done|]. split; [|done]. right. simpl. by rewrite app_nil_r.
    + subst m. rewrite (main_token_refused gh strptime strftime _ _ argv fuel w Hcfg Hst).
      split; [done|]. split; [by right | done].
  - destruct (main_not_configured gh strptime strftime _ _ argv fuel w Hcfg) as (out & Hm).
    subst m. rewrite Hm. split; [done|]. split; [|done]. left. simpl. by rewrite app_nil_r.
Qed.

(** C1, as stated, fails: with one argument missing the run exits with the
    usage message, but the identity request has been sent by then. *)
Lemma usage_error_comes_after_a_request :
  let argv := ["fetch_commits.py"; "2024-01-01"] in
  let m := main sample_gh sample_strptime sample_strftime
             (Some "ghp_good") (Some "octocat") argv 0 emp in
  ~ two_arguments argv
  /\ m.1 = Exited 1
  /\ requests m.2 = [user_request "ghp_good"]
  /\ requests m.2 <> requests emp.
Proof. vm_compute. repeat split; [intros H | intros H]; discriminate. Qed.

(** ** The console report *)

Section Display.
Context {datetime : Type} (strptime : string -> string -> option datetime).
Context (strftime : datetime -> string -> string).

Lemma for_each_print {A} (body : A -> M unit) (f : A -> string) :
  (∀ x, body x = print (f x)) ->
  ∀ l w, for_each l body w = (Returned tt, add_log w [] (map (fun x => f x +:+ nl) l)).
Proof.
  intros Hbody. induction l as [|x l IH]; intros w; cbn [for_each map].
  - by rewrite mret_eq, add_log_nil.
  - rewrite Hbody. step. by rewrite IH, add_log_add_log.
Qed.

Lemma display_commits_empty cnt w :
  display_commits strptime strftime [] cnt w
  = (Returned tt, add_log w [] no_commits_chunks).
Proof.
  unfold display_commits. do 2 step. rewrite print_eq.
  by rewrite !add_log_add_log.
Qed.

(** The detailed list stops with [ValueError] at the first commit whose
    timestamp does not parse. *)
Lemma display_commit_list_raises : ∀ commits i w,
  all_tagged commits ->
  Exists (fun c => strptime (committer_date c) "%Y-%m-%dT%H:%M:%SZ" = None) commits ->
  ∃ out, display_commit_list strptime strftime i commits w
         = (Raised ValueError, add_log w [] out).
Proof.
  induction commits as [|c commits IH]; intros i w Htag Hbad.
  - by apply Exists_nil in Hbad.
  - apply Forall_cons in Htag as [[r Hr] Htag]. cbn [display_commit_list].
    unfold display_commit at 1. rewrite Hr.
    destruct (strptime (committer_date c) _) as [d|] eqn:Hd.
    + apply Exists_cons in Hbad as [Hbad|Hbad]; [congruence|].
      rewrite bind_eq. do 5 step. rewrite print_eq. cbv beta iota.
      match goal with
      | |- context [display_commit_list _ _ _ _ ?w0] =>
          destruct (IH (S i) w0 Htag Hbad) as (out & ->)
      end.
      rewrite !add_log_add_log. eauto.
    + exists []. by rewrite bind_eq, add_log_nil.
Qed.

Lemma display_commits_raises commits cnt w :
  all_tagged commits ->
  Exists (fun c => strptime (committer_date c) "%Y-%m-%dT%H:%M:%SZ" = None) commits ->
  ∃ out, display_commits strptime strftime commits cnt w
         = (Raised ValueError, add_log w [] out).
Proof.
  intros Htag Hbad. unfold display_commits.
  destruct commits as [|c commits]; [by apply Exists_nil in Hbad|].
  do 7 step.
  assert (∀ (l : list (string * nat)) w0,
            for_each l (fun '(repo, count) =>
                          print ("  " +:+ repo +:+ ": " +:+ str_of_nat count +:+ " commits")) w0
            = (Returned tt,
               add_log w0 []
                 (map (fun p : string * nat =>
                         ("  " +:+ p.1 +:+ ": " +:+ str_of_nat p.2 +:+ " commits") +:+ nl) l)))
    as Hsummary.
  { apply for_each_print. by intros []. }
  rewrite (bind_returned _ _ _ _ _ (Hsummary _ _)).
  do 3 step.
  match goal with
  | |- context [display_commit_list _ _ _ _ ?w0] =>
      destruct (display_commit_list_raises (c :: commits) 1 w0 Htag Hbad) as (out & ->)
  end.
  rewrite !add_log_add_log. eauto.
Qed.

End Display.

Section Reporting.
Context (gh : github).
Context {datetime : Type} (strptime : string -> string -> option datetime).
Context (strftime : datetime -> string -> string).

(** With configuration, an accepted token, two dates that parse and a
    fetch that returns, [main] goes on to the reports. *)
Lemma main_reports GITHUB_TOKEN USERNAME prog start_date end_date fuel w
    commits cnt w2 :
  configured GITHUB_TOKEN USERNAME ->
  let token := default "" GITHUB_TOKEN in
  let r := user_endpoint gh (user_request token) in
  status_code r = 200 ->
  is_Some (strptime start_date "%Y-%m-%d") ->
  is_Some (strptime end_date "%Y-%m-%d") ->
  fetch_all_commits gh fuel (new_fetcher (default "" USERNAME) token)
    start_date end_date (after_validation w token (json r))
    = (Returned (commits, cnt), w2) ->
  main gh strptime strftime GITHUB_TOKEN USERNAME [prog; start_date; end_date] fuel w
  = (display_commits strptime strftime commits cnt;;
     match commits with
     | _ :: _ =>
         print (nl +:+ repeat_str "=" 80);;
         print "EXPORT OPTIONS";;
         print (repeat_str "=" 80);;
         export_menu strptime strftime fuel commits cnt start_date end_date
     | [] => mret tt
     end;;
     print (nl +:+ "Done!")) w2.
Proof.
  intros Hcfg token r Hst [ds Hs] [de He] Hfetch. unfold main. do 4 step.
  rewrite (configured_check _ _ Hcfg).
  rewrite (bind_returned _ _ _ _ _ (mret_eq tt _)).
  step. rewrite (bind_returned _ _ _ _ _ (validate_token_eq _ _ _)).
  fold token. fold r. unfold validation_result. rewrite Hst. cbn [Nat.eqb negb].
  rewrite (bind_returned _ _ _ _ _ (mret_eq tt _)).
  step. rewrite Hs, He.
  rewrite (bind_returned _ _ _ _ _ (mret_eq tt _)).
  rewrite !add_log_add_log. cbn [app].
  unfold after_validation, banner, validating_chunk, authenticated_chunk in Hfetch.
  cbn [app] in Hfetch.
  by rewrite (bind_returned _ _ _ _ _ Hfetch).
Qed.

End Reporting.

(** C9.  [display_commits] on the empty list prints the three chunks of the
    no-commits notice and nothing else.  A run of [main] whose fetch returns
    the empty list prints, after the fetch, that notice and the closing line
    only (no summary, no export menu), reads nothing from stdin, writes no
    file, and returns, so that the exit status is 0. *)
Theorem no_commits_notice_and_exit_0
    (gh : github) {datetime : Type} (strptime : string -> string -> option datetime)
    (strftime : datetime -> string -> string)
    (GITHUB_TOKEN USERNAME : option string) (prog start_date end_date : string)
    (fuel : nat) (w w2 : world) (repo_commit_count : dict nat) :
  configured GITHUB_TOKEN USERNAME ->
  let token := default "" GITHUB_TOKEN in
  let r := user_endpoint gh (user_request token) in
  status_code r = 200 ->
  is_Some (strptime start_date "%Y-%m-%d") ->
  is_Some (strptime end_date "%Y-%m-%d") ->
  fetch_all_commits gh fuel (new_fetcher (default "" USERNAME) token)
    start_date end_date (after_validation w token (json r))
    = (Returned ([], repo_commit_count), w2) ->
  let m := main gh strptime strftime GITHUB_TOKEN USERNAME
             [prog; start_date; end_date] fuel w in
  (∀ w0, display_commits strptime strftime [] repo_commit_count w0
         = (Returned tt, add_log w0 [] no_commits_chunks))
  /\ m = (Returned tt, add_log w2 [] (no_commits_chunks ++ [done_chunk]))
  /\ exit_status m.1 = Some 0
  /\ stdin m.2 = stdin w
  /\ files m.2 = files w.
Proof.
  intros Hcfg token r Hst Hs He Hfetch m.
  split; [intros w0; apply display_commits_empty|].
  assert (m = (Returned tt, add_log w2 [] (no_commits_chunks ++ [done_chunk]))) as ->.
  { subst m.
    rewrite (main_reports gh strptime strftime _ _ prog _ _ fuel w [] repo_commit_count w2)
      by done.
    rewrite (bind_returned _ _ _ _ _ (display_commits_empty _ _ _ _)).
    rewrite (bind_returned _ _ _ _ _ (mret_eq tt _)).
    rewrite print_eq. by rewrite add_log_add_log. }
  split; [done|]. split; [done|]. cbn [fst snd add_log stdin files].
  pose proof (log_only_frame _ (after_validation w token (json r))
                (log_only_fetch_all_commits gh
                   (new_fetcher (default "" USERNAME) token) fuel start_date end_date))
    as [Hin Hfiles].
  rewrite Hfetch in Hin, Hfiles. done.
Qed.

(** ** Files *)

Lemma fopen_eq f w : fopen f w = (Returned tt, truncate_file w f).
Proof. reflexivity. Qed.

Lemma fwrite_eq f s w : fwrite f s w = (Returned tt, append_file w f [s]).
Proof. reflexivity. Qed.

Lemma append_file_append_file w f c1 c2 :
  append_file (append_file w f c1) f c2 = append_file w f (c1 ++ c2).
Proof.
  unfold append_file. cbn [requests stdout stdin files]. f_equal.
  by rewrite lookup_insert_eq, insert_insert_eq, app_assoc.
Qed.

Lemma append_truncate_lookup w f chunks :
  files (append_file (truncate_file w f) f chunks) !! f = Some chunks.
Proof.
  unfold append_file, truncate_file. cbn [files].
  by rewrite lookup_insert_eq, lookup_insert_eq.
Qed.

Lemma append_file_other w f chunks g :
  g <> f -> files (append_file w f chunks) !! g = files w !! g.
Proof. intros Hne. unfold append_file. cbn [files]. by rewrite lookup_insert_ne. Qed.

Ltac fstep :=
  first
    [ rewrite (bind_returned _ _ _ _ _ (fopen_eq _ _))
    | rewrite (bind_returned _ _ _ _ _ (fwrite_eq _ _ _)) ].

Lemma for_each_fwrite {A} (body : A -> M unit) (f : string) (g : A -> string) :
  (∀ x, body x = fwrite f (g x)) ->
  ∀ l w pre, for_each l body (append_file w f pre)
             = (Returned tt, append_file w f (pre ++ map g l)).
Proof.
  intros Hbody. induction l as [|x l IH]; intros w pre; cbn [for_each map].
  - by rewrite mret_eq, app_nil_r.
  - rewrite Hbody. fstep. rewrite append_file_append_file, IH.
    by rewrite <- app_assoc.
Qed.

(** ** The Markdown report *)

Section Markdown.
Context {datetime : Type} (strptime : string -> string -> option datetime).
Context (strftime : datetime -> string -> string).

(** The loop over the commits writes [markdown_body]. *)
Lemma markdown_commit_list_eq f : ∀ commits cur w pre,
  all_tagged commits -> Forall (date_parses strptime) commits ->
  markdown_commit_list strptime strftime f cur commits (append_file w f pre)
  = (Returned tt,
     append_file w f (pre ++ markdown_body strptime strftime cur commits)).
Proof.
  induction commits as [|c commits IH]; intros cur w pre Htag Hdates.
  - cbn. by rewrite app_nil_r.
  - apply Forall_cons in Htag as [[r Hr] Htag].
    apply Forall_cons in Hdates as [[d Hd] Hdates].
    cbn [markdown_commit_list markdown_body]. rewrite Hr, Hd.
    destruct (bool_decide (Some (ref_full_name r) = cur)) eqn:Hcur; cbn [negb].
    + apply bool_decide_eq_true in Hcur as <-.
      rewrite (bind_returned _ _ _ _ _ (mret_eq tt _)).
      fstep. rewrite append_file_append_file, IH by done.
      by rewrite <- app_assoc.
    + fstep. fstep. rewrite !append_file_append_file, IH by done.
      by rewrite <- !app_assoc.
Qed.

(** With a timestamp that does not parse the loop raises [ValueError]. *)
Lemma markdown_commit_list_raises f : ∀ commits cur w,
  all_tagged commits ->
  Exists (fun c => strptime (committer_date c) "%Y-%m-%dT%H:%M:%SZ" = None) commits ->
  (markdown_commit_list strptime strftime f cur commits w).1 = Raised ValueError.
Proof.
  induction commits as [|c commits IH]; intros cur w Htag Hbad.
  - by apply Exists_nil in Hbad.
  - apply Forall_cons in Htag as [[r Hr] Htag].
    cbn [markdown_commit_list]. rewrite Hr.
    destruct (strptime (committer_date c) _) as [d|] eqn:Hd.
    + apply Exists_cons in Hbad as [Hbad|Hbad]; [congruence|].
      destruct (negb _).
      * fstep. fstep. by apply IH.
      * rewrite (bind_returned _ _ _ _ _ (mret_eq tt _)). fstep. by apply IH.
    + destruct (negb _).
      * by fstep.
      * by rewrite (bind_returned _ _ _ _ _ (mret_eq tt _)).
Qed.

Lemma export_to_markdown_eq commits cnt start_date end_date f w :
  all_tagged commits -> Forall (date_parses strptime) commits ->
  export_to_markdown strptime strftime commits cnt start_date end_date f w
  = (Returned tt,
     add_log
       (append_file (truncate_file w f) f
          (markdown_head commits cnt start_date end_date
           ++ markdown_body strptime strftime None commits))
       [] [exported_chunk f]).
Proof.
  intros Htag Hdates. unfold export_to_markdown. do 6 fstep.
  rewrite !append_file_append_file. cbn [app].
  assert (∀ (l : list (string * nat)) w0 pre,
            for_each l (fun '(repo, count) =>
                          fwrite f ("- **" +:+ repo +:+ "**: " +:+ str_of_nat count
                                    +:+ " commits" +:+ nl)) (append_file w0 f pre)
            = (Returned tt,
               append_file w0 f
                 (pre ++ map (fun '(repo, count) =>
                                "- **" +:+ repo +:+ "**: " +:+ str_of_nat count
                                +:+ " commits" +:+ nl) l))) as Hsummary.
  { apply for_each_fwrite. by intros []. }
  rewrite (bind_returned _ _ _ _ _ (Hsummary _ _ _)).
  fstep. rewrite append_file_append_file.
  rewrite (bind_returned _ _ _ _ _ (markdown_commit_list_eq _ _ _ _ _ Htag Hdates)).
  rewrite print_eq. unfold markdown_head, exported_chunk.
  by rewrite <- !app_assoc.
Qed.

Lemma export_to_markdown_raises commits cnt start_date end_date f w :
  all_tagged commits ->
  Exists (fun c => strptime (committer_date c) "%Y-%m-%dT%H:%M:%SZ" = None) commits ->
  (export_to_markdown strptime strftime commits cnt start_date end_date f w).1
  = Raised ValueError.
Proof.
  intros Htag Hbad. unfold export_to_markdown. do 6 fstep.
  rewrite !append_file_append_file.
  assert (∀ (l : list (string * nat)) w0 pre,
            for_each l (fun '(repo, count) =>
                          fwrite f ("- **" +:+ repo +:+ "**: " +:+ str_of_nat count
                                    +:+ " commits" +:+ nl)) (append_file w0 f pre)
            = (Returned tt,
               append_file w0 f
                 (pre ++ map (fun '(repo, count) =>
                                "- **" +:+ repo +:+ "**: " +:+ str_of_nat count
                                +:+ " commits" +:+ nl) l))) as Hsummary.
  { apply for_each_fwrite. by intros []. }
  rewrite (bind_returned _ _ _ _ _ (Hsummary _ _ _)).
  fstep. rewrite bind_eq.
  pose proof (markdown_commit_list_raises f commits None
                (append_file
                   (append_file (truncate_file w f) f
                      (([] ++ ["# GitHub Commits Report" +:+ nl +:+ nl] ++
                        ["**Period:** " +:+ start_date +:+ " to " +:+ end_date +:+ nl +:+ nl] ++
                        ["**Total Commits:** " +:+ str_of_nat (length commits) +:+ nl +:+ nl] ++
                        ["**Repositories:** " +:+ str_of_nat (length cnt) +:+ nl +:+ nl] ++
                        ["## Summary by Repository" +:+ nl +:+ nl]) ++
                       map (fun '(repo, count) =>
                              "- **" +:+ repo +:+ "**: " +:+ str_of_nat count
                              +:+ " commits" +:+ nl) (by_count_desc cnt)))
                   f [nl +:+ "---" +:+ nl +:+ nl +:+ "## Detailed Commits" +:+ nl +:+ nl])
                Htag Hbad) as Hraise.
  destruct (markdown_commit_list _ _ _ _ _ _) as [o w']. simpl in Hraise. by subst o.
Qed.

End Markdown.

(** ** Runs and headings *)

Section Headings.
Context {datetime : Type} (strptime : string -> string -> option datetime).
Context (strftime : datetime -> string -> string).

Lemma runs_cons_head y l : ∃ r rs, runs (y :: l) = (y :: r) :: rs.
Proof.
  cbn [runs]. destruct (runs l) as [|[|z r] rs]; [by eexists _, _ ..|].
  destruct (String.eqb y z); by eexists _, _.
Qed.

Lemma length_runs_cons x y l :
  length (runs (x :: y :: l)) =
  if String.eqb x y then length (runs (y :: l)) else S (length (runs (y :: l))).
Proof.
  destruct (runs_cons_head y l) as (r & rs & Hr).
  change (runs (x :: y :: l)) with
    (match runs (y :: l) with
     | (z :: r) :: rs =>
         if String.eqb x z then (x :: z :: r) :: rs else [x] :: (z :: r) :: rs
     | _ => [[x]]
     end).
  rewrite Hr. by destruct (String.eqb x y).
Qed.

(** [runs] cuts the list into non-empty constant pieces, and neighbouring
    pieces carry different names: the pieces are the maximal runs. *)
Lemma runs_spec l :
  concat (runs l) = l
  /\ Forall (fun r => ∃ x, r <> [] /\ Forall (eq x) r) (runs l)
  /\ ∀ i r1 r2, runs l !! i = Some r1 -> runs l !! S i = Some r2 -> head r1 <> head r2.
Proof.
  induction l as [|x l (Hcat & Hconst & Hmax)]; [by repeat split|].
  cbn [runs]. destruct (runs l) as [|[|y r] rs] eqn:Hr.
  - simpl in Hcat. subst l. repeat split; [|done].
    repeat constructor. exists x. split; [done | by repeat constructor].
  - apply Forall_cons in Hconst as [(? & ? & _) _]. done.
  - destruct (String.eqb x y) eqn:Hxy.
    + apply String.eqb_eq in Hxy as ->. split; [by rewrite <- Hcat|]. split.
      * apply Forall_cons in Hconst as [(z & _ & Hz) Hrs].
        apply Forall_cons; split; [|done]. exists z. split; [done|].
        apply Forall_cons in Hz as [-> Hz]. by repeat constructor.
      * intros [|i] r1 r2 H1 H2.
        -- injection H1 as <-. by apply (Hmax 0 (y :: r) r2).
        -- by apply (Hmax (S i) r1 r2).
    + apply String.eqb_neq in Hxy. split; [by rewrite <- Hcat|]. split.
      * apply Forall_cons; split; [|done].
        exists x. split; [done | by repeat constructor].
      * intros [|i] r1 r2 H1 H2.
        -- injection H1 as <-. injection H2 as <-. simpl. congruence.
        -- by apply (Hmax i r1 r2).
Qed.

Lemma prefix_app s1 s2 : String.prefix s1 (s1 +:+ s2) = true.
Proof.
  induction s1 as [|a s1 IH]; [by destruct s2|].
  simpl. by destruct (ascii_dec a a).
Qed.

Lemma is_heading_heading_chunk r : is_heading (heading_chunk r) = true.
Proof.
  exact (prefix_app (nl +:+ "### ")
           ((if ref_private r then "🔒 Private" else "🌐 Public")
            +:+ " " +:+ ref_full_name r +:+ nl +:+ nl)).
Qed.

Lemma is_heading_commit_chunk c d : is_heading (commit_chunk c d) = false.
Proof. reflexivity. Qed.

(** The headings written by the loop, the pending one included, are as
    many as the runs. *)
Lemma markdown_body_headings : ∀ commits cur,
  all_tagged commits -> Forall (date_parses strptime) commits ->
  length (List.filter is_heading (markdown_body strptime strftime cur commits))
  + match commits with
    | c :: _ => if bool_decide (Some (repo_name_of c) = cur) then 1 else 0
    | [] => 0
    end
  = length (runs (map repo_name_of commits)).
Proof.
  induction commits as [|c commits IH]; intros cur Htag Hdates; [done|].
  apply Forall_cons in Htag as [[r Hr] Htag].
  apply Forall_cons in Hdates as [[d Hd] Hdates].
  specialize (IH (Some (ref_full_name r)) Htag Hdates).
  cbn [markdown_body]. rewrite Hr, Hd.
  assert (repo_name_of c = ref_full_name r) as Hname by (unfold repo_name_of; by rewrite Hr).
  rewrite Hname.
  assert (length (List.filter is_heading
                    (markdown_body strptime strftime (Some (ref_full_name r)) commits))
          + 1 = length (runs (map repo_name_of (c :: commits)))) as Hgoal.
  { destruct commits as [|c' commits].
    - reflexivity.
    - cbn [map]. rewrite length_runs_cons, Hname.
      cbn [map] in IH. rewrite <- IH.
      destruct (String.eqb_spec (ref_full_name r) (repo_name_of c')) as [Heq|Hne].
      + rewrite bool_decide_eq_true_2 by congruence. done.
      + rewrite bool_decide_eq_false_2 by congruence. lia. }
  rewrite <- Hgoal.
  destruct (bool_decide (Some (ref_full_name r) = cur)).
  - cbn [app List.filter]. rewrite is_heading_commit_chunk. lia.
  - cbn [app List.filter]. rewrite is_heading_heading_chunk, is_heading_commit_chunk.
    cbn [length]. lia.
Qed.

Lemma markdown_head_no_heading commits cnt start_date end_date :
  List.filter is_heading (markdown_head commits cnt start_date end_date) = [].
Proof.
  unfold markdown_head. rewrite !List.filter_app.
  assert (∀ l : list (string * nat),
            List.filter is_heading
              (map (fun '(repo, count) =>
                      "- **" +:+ repo +:+ "**: " +:+ str_of_nat count +:+ " commits" +:+ nl) l)
            = []) as ->.
  { induction l as [|[repo count] l IH]; [done|]. cbn [map List.filter].
    by rewrite IH. }
  reflexivity.
Qed.

End Headings.

(** ** The Markdown file as text *)

Section MarkdownText.
Context {datetime : Type} (strptime : string -> string -> option datetime).
Context (strftime : datetime -> string -> string).

Lemma heading_lines_file_text chunks :
  Forall (fun chunk => adds_heading_lines (if is_heading chunk then 1 else 0) chunk) chunks ->
  heading_lines (file_text chunks) = length (List.filter is_heading chunks).
Proof.
  induction 1 as [|chunk chunks Hc _ IH]; [reflexivity|].
  cbn [file_text fold_right List.filter]. fold (file_text chunks).
  rewrite Hc, IH. by destruct (is_heading chunk).
Qed.

(** A chunk of one line. *)
Lemma adds_one_line segs :
  Forall single_line segs ->
  heading_line (file_text segs) = false ->
  adds_heading_lines 0 (file_text segs +:+ nl).
Proof.
  intros Hsegs Hline rest. rewrite append_assoc.
  change (nl +:+ rest) with (String LF rest).
  by rewrite heading_lines_segments, Hline.
Qed.

(** A chunk of one line and an empty line. *)
Lemma adds_two_lines segs :
  Forall single_line segs ->
  heading_line (file_text segs) = false ->
  adds_heading_lines 0 (file_text segs +:+ nl +:+ nl).
Proof.
  intros Hsegs Hline rest. rewrite !append_assoc.
  change (nl +:+ nl +:+ rest) with (String LF (file_text [] +:+ String LF rest)).
  rewrite !heading_lines_segments by done. by rewrite Hline.
Qed.

Lemma adds_commit_chunk c d :
  single_line (slice_to 7 (sha c)) -> single_line d -> single_line (html_url c) ->
  adds_heading_lines 0 (commit_chunk c d).
Proof.
  intros Hsha Hd Hurl.
  assert (commit_chunk c d
          = file_text ["- **"; slice_to 7 (sha c); "** ("; d; "): ";
                       first_piece LF (message c); " [→ View]("; html_url c; ")"] +:+ nl)
    as ->.
  { unfold commit_chunk, file_text. cbn [fold_right]. rewrite !append_assoc.
    reflexivity. }
  apply adds_one_line; [|reflexivity].
  repeat (constructor; [first [done | apply single_line_first_piece]|]). constructor.
Qed.

Lemma adds_heading_chunk r :
  single_line (ref_full_name r) -> adds_heading_lines 1 (heading_chunk r).
Proof.
  intros Hname rest.
  assert (heading_chunk r +:+ rest
          = file_text [] +:+ String LF
              (file_text ["### "; if ref_private r then "🔒 Private" else "🌐 Public";
                          " "; ref_full_name r] +:+ String LF
                 (file_text [] +:+ String LF rest))) as ->.
  { unfold heading_chunk, file_text. cbn [fold_right]. rewrite !append_assoc.
    reflexivity. }
  rewrite !heading_lines_segments; [reflexivity|constructor| |constructor].
  repeat (constructor; [first [done | by destruct (ref_private r)]|]). constructor.
Qed.

Lemma adds_markdown_head commits cnt start_date end_date :
  single_line start_date -> single_line end_date ->
  Forall (fun p : string * nat => single_line p.1) cnt ->
  Forall (fun chunk => adds_heading_lines (if is_heading chunk then 1 else 0) chunk)
    (markdown_head commits cnt start_date end_date).
Proof.
  intros Hs He Hcnt. unfold markdown_head. rewrite !Forall_app. split; [|split].
  - apply Forall_cons; split; [intros rest; reflexivity|].
    apply Forall_cons; split.
    { assert ("**Period:** " +:+ start_date +:+ " to " +:+ end_date +:+ nl +:+ nl
              = file_text ["**Period:** "; start_date; " to "; end_date] +:+ nl +:+ nl) as ->.
      { unfold file_text. cbn [fold_right]. by rewrite !append_assoc. }
      apply adds_two_lines; [by repeat constructor | done]. }
    apply Forall_cons; split.
    { assert ("**Total Commits:** " +:+ str_of_nat (length commits) +:+ nl +:+ nl
              = file_text ["**Total Commits:** "; str_of_nat (length commits)] +:+ nl +:+ nl)
        as ->.
      { unfold file_text. cbn [fold_right]. by rewrite !append_assoc. }
      apply adds_two_lines; [|done].
      repeat (constructor; [first [done | apply single_line_str_of_nat]|]). constructor. }
    apply Forall_cons; split.
    { assert ("**Repositories:** " +:+ str_of_nat (length cnt) +:+ nl +:+ nl
              = file_text ["**Repositories:** "; str_of_nat (length cnt)] +:+ nl +:+ nl)
        as ->.
      { unfold file_text. cbn [fold_right]. by rewrite !append_assoc. }
      apply adds_two_lines; [|done].
      repeat (constructor; [first [done | apply single_line_str_of_nat]|]). constructor. }
    apply Forall_cons; split; [intros rest; reflexivity | constructor].
  - apply Forall_fmap, Forall_forall. intros [repo count] Hin.
    assert (single_line repo) as Hrepo.
    { apply list_elem_of_In in Hin.
      apply (Permutation_in _ (sort_desc_perm Nat.leb snd cnt)) in Hin.
      apply list_elem_of_In in Hin.
      by apply (proj1 (Forall_forall (fun p : string * nat => single_line p.1) cnt) Hcnt
                  (repo, count)). }
    cbn.
    assert ("- **" +:+ repo +:+ "**: " +:+ str_of_nat count +:+ " commits" +:+ nl
            = file_text ["- **"; repo; "**: "; str_of_nat count; " commits"] +:+ nl) as ->.
    { unfold file_text. cbn [fold_right]. by rewrite !append_assoc. }
    apply adds_one_line; [|done].
    repeat (constructor; [first [done | apply single_line_str_of_nat]|]). constructor.
  - apply Forall_cons; split; [intros rest; reflexivity | constructor].
Qed.

Lemma adds_markdown_body : ∀ commits cur,
  all_tagged commits -> Forall (date_parses strptime) commits ->
  Forall (fun c => single_line (repo_name_of c)
                   /\ single_line (slice_to 7 (sha c))
                   /\ single_line (html_url c)) commits ->
  (∀ d, single_line (strftime d "%Y-%m-%d %H:%M")) ->
  Forall (fun chunk => adds_heading_lines (if is_heading chunk then 1 else 0) chunk)
    (markdown_body strptime strftime cur commits).
Proof.
  induction commits as [|c commits IH]; intros cur Htag Hdates Hdata Hfmt; [constructor|].
  apply Forall_cons in Htag as [[r Hr] Htag].
  apply Forall_cons in Hdates as [[d Hd] Hdates].
  apply Forall_cons in Hdata as [(Hname & Hsha & Hurl) Hdata].
  unfold repo_name_of in Hname. rewrite Hr in Hname.
  cbn [markdown_body]. rewrite Hr, Hd.
  apply Forall_app. split.
  - destruct (bool_decide _); [constructor|].
    repeat constructor. rewrite is_heading_heading_chunk. by apply adds_heading_chunk.
  - constructor; [|by apply IH].
    rewrite is_heading_commit_chunk. by apply adds_commit_chunk.
Qed.

End MarkdownText.

(** C6.  For a commit list in which every commit carries its repository
    reference and a timestamp that parses (as every list that reaches the
    export does), [export_to_markdown] returns and leaves in the file a
    sequence of chunks in which the repository headings, the chunks that
    open a line with [###], are as many as the maximal runs of neighbouring
    commits of the same repository: a repository whose commits are
    interleaved with another's is headed once per run, not once.  When the
    data copied into the file has no line feed in it, the same holds of the
    text of the file: its lines that open with [###] are as many as the
    runs. *)
Theorem markdown_headings_are_the_runs
    {datetime : Type} (strptime : string -> string -> option datetime)
    (strftime : datetime -> string -> string)
    (commits : list commit) (repo_commit_count : dict nat)
    (start_date end_date filename : string) (w : world) :
  all_tagged commits -> Forall (date_parses strptime) commits ->
  let m := export_to_markdown strptime strftime commits repo_commit_count
             start_date end_date filename w in
  ∃ chunks,
    m.1 = Returned tt
    /\ files m.2 !! filename = Some chunks
    /\ length (List.filter is_heading chunks) = length (runs (map repo_name_of commits))
    /\ (markdown_data_single_line strftime commits repo_commit_count start_date end_date ->
        heading_lines (file_text chunks) = length (runs (map repo_name_of commits)))
    /\ concat (runs (map repo_name_of commits)) = map repo_name_of commits
    /\ Forall (fun r => ∃ x, r <> [] /\ Forall (eq x) r) (runs (map repo_name_of commits))
    /\ (∀ i r1 r2, runs (map repo_name_of commits) !! i = Some r1 ->
                   runs (map repo_name_of commits) !! S i = Some r2 ->
                   head r1 <> head r2).
Proof.
  intros Htag Hdates m.
  exists (markdown_head commits repo_commit_count start_date end_date
          ++ markdown_body strptime strftime None commits).
  subst m. rewrite export_to_markdown_eq by done. cbn [fst snd].
  assert (length (List.filter is_heading
                    (markdown_head commits repo_commit_count start_date end_date
                     ++ markdown_body strptime strftime None commits))
          = length (runs (map repo_name_of commits))) as Hcount.
  { rewrite List.filter_app, markdown_head_no_heading. cbn [app].
    rewrite <- (markdown_body_headings strptime strftime commits None Htag Hdates).
    destruct commits as [|c commits]; [done|].
    rewrite bool_decide_eq_false_2 by done. lia. }
  split; [done|]. split; [apply append_truncate_lookup|]. split; [exact Hcount|].
  split; [|apply runs_spec].
  intros (Hs & He & Hcnt & Hdata & Hfmt).
  rewrite <- Hcount. apply heading_lines_file_text, Forall_app. split.
  - by apply adds_markdown_head.
  - by apply adds_markdown_body.
Qed.

(** ** Timestamps at report time *)

Section ReportTime.
Context {datetime : Type} (strptime : string -> string -> option datetime).
Context (strftime : datetime -> string -> string).

Lemma display_commit_list_returns : ∀ commits i w,
  all_tagged commits -> Forall (date_parses strptime) commits ->
  ∃ out, display_commit_list strptime strftime i commits w
         = (Returned tt, add_log w [] out).
Proof.
  induction commits as [|c commits IH]; intros i w Htag Hdates.
  - exists []. cbn. by rewrite add_log_nil.
  - apply Forall_cons in Htag as [[r Hr] Htag].
    apply Forall_cons in Hdates as [[d Hd] Hdates].
    cbn [display_commit_list]. unfold display_commit at 1. rewrite Hr, Hd.
    rewrite bind_eq. do 5 step. rewrite print_eq. cbv beta iota.
    match goal with
    | |- context [display_commit_list _ _ _ _ ?w0] =>
        destruct (IH (S i) w0 Htag Hdates) as (out & ->)
    end.
    rewrite !add_log_add_log. eauto.
Qed.

Lemma display_commits_returns commits cnt w :
  all_tagged commits -> Forall (date_parses strptime) commits ->
  ∃ out, display_commits strptime strftime commits cnt w
         = (Returned tt, add_log w [] out).
Proof.
  intros Htag Hdates. unfold display_commits.
  destruct commits as [|c commits].
  { do 2 step. rewrite print_eq, !add_log_add_log. eauto. }
  do 7 step.
  assert (∀ (l : list (string * nat)) w0,
            for_each l (fun '(repo, count) =>
                          print ("  " +:+ repo +:+ ": " +:+ str_of_nat count +:+ " commits")) w0
            = (Returned tt,
               add_log w0 []
                 (map (fun p : string * nat =>
                         ("  " +:+ p.1 +:+ ": " +:+ str_of_nat p.2 +:+ " commits") +:+ nl) l)))
    as Hsummary.
  { apply for_each_print. by intros []. }
  rewrite (bind_returned _ _ _ _ _ (Hsummary _ _)).
  do 3 step.
  match goal with
  | |- context [display_commit_list _ _ _ _ ?w0] =>
      destruct (display_commit_list_returns (c :: commits) 1 w0 Htag Hdates) as (out & ->)
  end.
  rewrite !add_log_add_log. eauto.
Qed.

End ReportTime.

(** C8.  In a run of [main] that gets as far as the fetch, every commit of
    the aggregated list carries the reference (full name, visibility flag,
    URL) of one of the enumerated repositories.  If the committer timestamp
    of one of them does not parse under [%Y-%m-%dT%H:%M:%SZ], the console
    report raises [ValueError], and so would the Markdown export; nothing
    catches it: [main] ends with that exception, exit status 1, before any
    export is offered (stdin is not read, no file is written).  If all of
    them parse, the console report returns. *)
Theorem aggregated_commits_tagged_and_dated
    (gh : github) {datetime : Type} (strptime : string -> string -> option datetime)
    (strftime : datetime -> string -> string)
    (GITHUB_TOKEN USERNAME : option string) (prog start_date end_date : string)
    (fuel : nat) (w w2 : world) (commits : list commit) (repo_commit_count : dict nat) :
  configured GITHUB_TOKEN USERNAME ->
  let token := default "" GITHUB_TOKEN in
  let r := user_endpoint gh (user_request token) in
  let fetcher := new_fetcher (default "" USERNAME) token in
  status_code r = 200 ->
  is_Some (strptime start_date "%Y-%m-%d") ->
  is_Some (strptime end_date "%Y-%m-%d") ->
  fetch_all_commits gh fuel fetcher start_date end_date (after_validation w token (json r))
    = (Returned (commits, repo_commit_count), w2) ->
  let m := main gh strptime strftime GITHUB_TOKEN USERNAME
             [prog; start_date; end_date] fuel w in
  (∃ repos,
     (get_all_repositories gh fuel fetcher (after_validation w token (json r))).1
       = Returned repos
     /\ Forall (fun c => ∃ repo, repo ∈ repos
                         /\ commit_repository c
                            = Some {| ref_full_name := full_name repo;
                                      ref_private := private repo;
                                      ref_url := repo_html_url repo |}) commits)
  /\ (Exists (fun c => strptime (committer_date c) "%Y-%m-%dT%H:%M:%SZ" = None) commits ->
      (∀ w0, (display_commits strptime strftime commits repo_commit_count w0).1
             = Raised ValueError)
      /\ (∀ filename w0,
            (export_to_markdown strptime strftime commits repo_commit_count
               start_date end_date filename w0).1 = Raised ValueError)
      /\ m.1 = Raised ValueError
      /\ exit_status m.1 = Some 1
      /\ stdin m.2 = stdin w
      /\ files m.2 = files w)
  /\ (Forall (date_parses strptime) commits ->
      ∀ w0, (display_commits strptime strftime commits repo_commit_count w0).1
            = Returned tt).
Proof.
  intros Hcfg token r fetcher Hst Hs He Hfetch m.
  pose proof (fetch_all_commits_tagged _ _ _ _ _ _ _ _ _ Hfetch) as (repos & Hrepos & Htagged).
  assert (all_tagged commits) as Htag.
  { eapply Forall_impl; [exact Htagged|]. intros c (repo & _ & ->). by eexists. }
  split; [by exists repos|]. split.
  - intros Hbad.
    split; [intros w0; by destruct (display_commits_raises strptime strftime commits
                                      repo_commit_count w0 Htag Hbad) as (out & ->)|].
    split; [intros filename w0; by apply export_to_markdown_raises|].
    subst m.
    rewrite (main_reports gh strptime strftime _ _ prog _ _ fuel w commits
               repo_commit_count w2) by done.
    destruct (display_commits_raises strptime strftime commits repo_commit_count w2
                Htag Hbad) as (out & Hdisp).
    rewrite bind_eq, Hdisp. cbn [fst snd add_log stdin files exit_status].
    split; [done|]. split; [done|].
    pose proof (log_only_frame _ (after_validation w token (json r))
                  (log_only_fetch_all_commits gh fetcher fuel start_date end_date))
      as [Hin Hfiles].
    rewrite Hfetch in Hin, Hfiles. done.
  - intros Hdates w0.
    by destruct (display_commits_returns strptime strftime commits repo_commit_count w0
                   Htag Hdates) as (out & ->).
Qed.

(** ** The CSV writer and reader: reading back what was written *)

Module CsvFacts.
Import Csv.

Lemma special_false c :
  special c = false ->
  Ascii.eqb c delimiter = false /\ Ascii.eqb c quotechar = false
  /\ Ascii.eqb c CR = false /\ Ascii.eqb c LF = false.
Proof.
  unfold special. intros H.
  destruct (Ascii.eqb c delimiter), (Ascii.eqb c quotechar),
    (Ascii.eqb c CR), (Ascii.eqb c LF); done.
Qed.

(** The flag does not matter when there is a next character. *)
Lemma read_from_pending r p1 p2 c t :
  read_from r p1 (String c t) = read_from r p2 (String c t).
Proof. reflexivity. Qed.

(** The characters of an unquoted field, once the field has begun. *)
Lemma read_plain f : ∀ fld flds pend d rest,
  needs_quotes f = false ->
  read_from (Build_reader IN_FIELD fld flds) pend (f +:+ String d rest)
  = read_from (Build_reader IN_FIELD (fld +:+ f) flds) true (String d rest).
Proof.
  induction f as [|c f IH]; intros fld flds pend d rest Hplain.
  - by rewrite append_nil_r.
  - simpl in Hplain. apply orb_false_elim in Hplain as [Hc Hf].
    apply special_false in Hc as (Hd & Hq & Hcr & Hlf).
    change (String c f +:+ String d rest) with (String c (f +:+ String d rest)).
    cbn [read_from]. unfold process_char, is_newline, ends_line. cbn [state].
    rewrite Hlf, Hcr, Hd. cbn [orb andb mbind option_bind].
    unfold add_char. cbn [field fields]. rewrite IH by done.
    by rewrite append_snoc.
Qed.

Lemma process_quoted_char fld flds c :
  Ascii.eqb c quotechar = false ->
  process_char (Build_reader IN_QUOTED_FIELD fld flds) (Some c)
  = Some (Build_reader IN_QUOTED_FIELD (fld +:+ String c "") flds).
Proof. intros Hq. unfold process_char. cbn [state]. by rewrite Hq. Qed.

Lemma process_quoted_eol fld flds :
  process_char (Build_reader IN_QUOTED_FIELD fld flds) None
  = Some (Build_reader IN_QUOTED_FIELD fld flds).
Proof. reflexivity. Qed.

(** The characters of a quoted field up to and including the closing
    quote. *)
Lemma read_quoted f : ∀ fld flds pend rest,
  read_from (Build_reader IN_QUOTED_FIELD fld flds) pend
    (escape f +:+ String quotechar rest)
  = read_from (Build_reader QUOTE_IN_QUOTED_FIELD (fld +:+ f) flds) true rest.
Proof.
  induction f as [|c f IH]; intros fld flds pend rest.
  - rewrite append_nil_r. reflexivity.
  - cbn [escape]. destruct (Ascii.eqb c quotechar) eqn:Hq.
    + apply Ascii.eqb_eq in Hq as ->.
      change (String quotechar (String quotechar (escape f)) +:+ String quotechar rest)
        with (String quotechar (String quotechar (escape f +:+ String quotechar rest))).
      change (read_from (Build_reader IN_QUOTED_FIELD fld flds) pend
                (String quotechar (String quotechar (escape f +:+ String quotechar rest))))
        with (read_from (Build_reader IN_QUOTED_FIELD (fld +:+ String quotechar "") flds)
                true (escape f +:+ String quotechar rest)).
      rewrite IH. by rewrite append_snoc.
    + change (String c (escape f) +:+ String quotechar rest)
        with (String c (escape f +:+ String quotechar rest)).
      cbn [read_from]. rewrite process_quoted_char by done.
      cbn [mbind option_bind].
      destruct (ends_line c _).
      * rewrite process_quoted_eol. cbn [mbind option_bind state].
        rewrite IH. by rewrite append_snoc.
      * rewrite IH. by rewrite append_snoc.
Qed.

(** A whole field, from the start of the field to the character [d] that
    follows it: the reader has the field's text and is in one of the three
    states in which a field can end. *)
Lemma read_field f flds pend d rest :
  ∃ st, (st = START_FIELD \/ st = IN_FIELD \/ st = QUOTE_IN_QUOTED_FIELD)
    /\ read_from (Build_reader START_FIELD "" flds) pend (write_field f +:+ String d rest)
       = read_from (Build_reader st f flds) true (String d rest).
Proof.
  unfold write_field. destruct (needs_quotes f) eqn:Hq.
  - exists QUOTE_IN_QUOTED_FIELD. split; [by right; right|].
    rewrite append_cons, append_assoc, append_cons.
    change (read_from (Build_reader START_FIELD "" flds) pend
              (String quotechar (escape f +:+ String quotechar ("" +:+ String d rest))))
      with (read_from (Build_reader IN_QUOTED_FIELD "" flds) true
              (escape f +:+ String quotechar (String d rest))).
    by rewrite read_quoted.
  - destruct f as [|c f].
    + exists START_FIELD. split; [by left|]. reflexivity.
    + exists IN_FIELD. split; [by right; left|].
      cbn [needs_quotes] in Hq. apply orb_false_elim in Hq as [Hc Hf].
      apply special_false in Hc as (Hd & Hqc & Hcr & Hlf).
      rewrite append_cons. cbn [read_from].
      unfold process_char, start_field, is_newline, ends_line. cbn [state].
      rewrite Hlf, Hcr, Hd, Hqc. cbn [orb andb mbind option_bind].
      unfold add_char. cbn [field fields].
      by rewrite read_plain.
Qed.

Lemma after_field_delimiter st f flds rest :
  st = START_FIELD \/ st = IN_FIELD \/ st = QUOTE_IN_QUOTED_FIELD ->
  read_from (Build_reader st f flds) true (String delimiter rest)
  = read_from (Build_reader START_FIELD "" (flds ++ [f])) true rest.
Proof. by intros [-> | [-> | ->]]. Qed.

Lemma after_field_crlf st f flds text :
  st = START_FIELD \/ st = IN_FIELD \/ st = QUOTE_IN_QUOTED_FIELD ->
  read_from (Build_reader st f flds) true (String CR (String LF text))
  = cons (flds ++ [f]) <$> read_from reset false text.
Proof. by intros [-> | [-> | ->]]. Qed.

(** The fields of a record and the line terminator. *)
Lemma read_fields : ∀ fs flds pend text,
  fs <> [] ->
  read_from (Build_reader START_FIELD "" flds) pend
    (join_fields fs +:+ lineterminator +:+ text)
  = cons (flds ++ fs) <$> read_from reset false text.
Proof.
  induction fs as [|f fs IH]; intros flds pend text Hne; [done|].
  destruct fs as [|f2 fs].
  - cbn [join_fields].
    destruct (read_field f flds pend CR (String LF text)) as (st & Hst & Hread).
    change (lineterminator +:+ text) with (String CR (String LF text)).
    by rewrite Hread, after_field_crlf.
  - change (join_fields (f :: f2 :: fs))
      with (write_field f +:+ String delimiter (join_fields (f2 :: fs))).
    rewrite append_assoc, append_cons.
    destruct (read_field f flds pend delimiter
                (join_fields (f2 :: fs) +:+ lineterminator +:+ text))
      as (st & Hst & Hread).
    rewrite Hread, after_field_delimiter by done.
    rewrite IH by done. by rewrite <- app_assoc.
Qed.

Lemma write_field_first_char f :
  f <> "" -> ∃ c s, write_field f = String c s /\ is_newline c = false.
Proof.
  intros Hne. unfold write_field. destruct (needs_quotes f) eqn:Hq.
  - by eexists _, _.
  - destruct f as [|c f]; [done|].
    cbn [needs_quotes] in Hq. apply orb_false_elim in Hq as [Hc _].
    apply special_false in Hc as (_ & _ & Hcr & Hlf).
    exists c, f. split; [done|]. unfold is_newline. by rewrite Hlf, Hcr.
Qed.

Lemma join_fields_first_char fs :
  fs <> [] -> fs <> [""] ->
  ∃ c s, join_fields fs = String c s /\ is_newline c = false.
Proof.
  intros Hne Hne'. destruct fs as [|f fs]; [done|].
  destruct (decide (f = "")) as [->|Hf].
  - destruct fs as [|f2 fs]; [done|]. by eexists _, _.
  - destruct (write_field_first_char f Hf) as (c & s & Hw & Hc).
    destruct fs as [|f2 fs].
    + by exists c, s.
    + exists c, (s +:+ String delimiter (join_fields (f2 :: fs))).
      split; [|done].
      change (join_fields (f :: f2 :: fs))
        with (write_field f +:+ String delimiter (join_fields (f2 :: fs))).
      by rewrite Hw.
Qed.

(** At the start of a record a character that is no line break is read as
    at the start of a field. *)
Lemma read_record_start flds pend c t :
  is_newline c = false ->
  read_from (Build_reader START_RECORD "" flds) pend (String c t)
  = read_from (Build_reader START_FIELD "" flds) pend (String c t).
Proof.
  intros Hc. cbn [read_from]. unfold process_char. cbn [state]. by rewrite Hc.
Qed.

(** One record: what [writerow] wrote is read back as the record. *)
Lemma read_row row text pend :
  read_from reset pend (writerow row +:+ text) = cons row <$> read_from reset false text.
Proof.
  destruct (decide (row = [])) as [->|Hne]; [reflexivity|].
  destruct (decide (row = [""])) as [->|Hne']; [reflexivity|].
  assert (writerow row = join_fields row +:+ lineterminator) as ->.
  { destruct row as [|[|c f] [|f2 fs]]; done. }
  rewrite append_assoc.
  destruct (join_fields_first_char row Hne Hne') as (c & s & Hj & Hc).
  unfold reset.
  assert (read_from (Build_reader START_RECORD "" []) pend
            (join_fields row +:+ lineterminator +:+ text)
          = read_from (Build_reader START_FIELD "" []) pend
              (join_fields row +:+ lineterminator +:+ text)) as ->.
  { rewrite Hj, append_cons. by apply read_record_start. }
  by rewrite read_fields.
Qed.

(** A whole file of records. *)
Lemma read_rows rows : read (file_text (map writerow rows)) = Some rows.
Proof.
  unfold read. induction rows as [|row rows IH]; [reflexivity|].
  cbn [map file_text fold_right]. rewrite read_row.
  fold (file_text (map writerow rows)). by rewrite IH.
Qed.

End CsvFacts.


(** ** The CSV report *)

Section CsvReport.

Lemma occurs_replace_newline s : occurs LF (replace LF " | " s) = false.
Proof.
  induction s as [|a s IH]; [done|]. cbn [replace].
  destruct (Ascii.eqb a LF) eqn:Ha.
  - exact IH.
  - cbn [occurs]. by rewrite Ha.
Qed.

Lemma export_rows_eq f : ∀ commits w pre,
  all_tagged commits ->
  for_each commits
    (fun commit =>
       match commit_repository commit with
       | None => raise KeyError
       | Some repository => fwrite f (Csv.writerow (csv_row commit repository))
       end) (append_file w f pre)
  = (Returned tt, append_file w f (pre ++ map (fun c => Csv.writerow (row_of c)) commits)).
Proof.
  induction commits as [|c commits IH]; intros w pre Htag.
  - cbn. by rewrite app_nil_r.
  - apply Forall_cons in Htag as [[r Hr] Htag].
    cbn [for_each map]. unfold row_of at 1. rewrite Hr. fstep.
    rewrite append_file_append_file, IH by done. by rewrite <- app_assoc.
Qed.

Lemma export_to_csv_eq commits f w :
  all_tagged commits ->
  export_to_csv commits f w
  = (Returned tt,
     add_log
       (append_file (truncate_file w f) f
          (map Csv.writerow (fieldnames :: map row_of commits)))
       [] [exported_chunk f]).
Proof.
  intros Htag. unfold export_to_csv. do 2 fstep.
  rewrite (bind_returned _ _ _ _ _ (export_rows_eq _ _ _ _ Htag)).
  rewrite print_eq. cbn [map app]. by rewrite map_map.
Qed.

End CsvReport.

(** C7.  For a commit list in which every commit carries its repository
    reference, [export_to_csv] returns, and reading the file back with the
    CSV reader gives the header row followed by exactly one row per commit,
    in order: timestamp, repository, [Yes] for a private repository and [No]
    otherwise, the first seven characters of the hash, the message with
    every line feed replaced by [ | ] (so that no line feed is left in it),
    and the URL.  Line feeds, commas or quotes in any field do not change
    the number of rows. *)
Theorem csv_export_reads_back_one_row_per_commit
    (commits : list commit) (filename : string) (w : world) :
  all_tagged commits ->
  let m := export_to_csv commits filename w in
  ∃ chunks rows,
    m.1 = Returned tt
    /\ files m.2 !! filename = Some chunks
    /\ Csv.read (file_text chunks) = Some (fieldnames :: rows)
    /\ length rows = length commits
    /\ ∀ i c, commits !! i = Some c ->
         ∃ r, commit_repository c = Some r
           /\ rows !! i = Some [committer_date c;
                                ref_full_name r;
                                if ref_private r then "Yes" else "No";
                                slice_to 7 (sha c);
                                replace LF " | " (message c);
                                html_url c]
           /\ occurs LF (replace LF " | " (message c)) = false.
Proof.
  intros Htag m.
  exists (map Csv.writerow (fieldnames :: map row_of commits)), (map row_of commits).
  subst m. rewrite export_to_csv_eq by done. cbn [fst snd].
  split; [done|]. split; [apply append_truncate_lookup|].
  split; [apply CsvFacts.read_rows|]. split; [apply length_map|].
  intros i c Hc.
  pose proof (Forall_lookup_1 _ _ _ _ Htag Hc) as [r Hr].
  exists r. split; [done|]. split; [|apply occurs_replace_newline].
  rewrite list_lookup_fmap, Hc. cbn. unfold row_of. by rewrite Hr.
Qed.

(** ** The theorems at work on the sample services *)

Lemma pagination_returns_every_page_witness :
  let rfull := [replicate 100 repo_hello] in
  let rlast := [repo_secret] in
  let cfull := [replicate 100 c_flaky] in
  let clast := [c_jan05; c_jan20] in
  let url := "https://api.github.com/repos/octocat/hello/commits" in
  let r := get_all_repositories paged_gh 5 sample_fetcher emp in
  let c := get_commits_from_repo paged_gh 5 sample_fetcher "octocat/hello"
             "2024-01-01" "2024-01-31" emp in
  (r.1 = Returned (concat (rfull ++ [rlast]))
   /\ length (concat (rfull ++ [rlast])) = sum_list (map length (rfull ++ [rlast]))
   /\ requests r.2 = requests emp ++ map (repos_request sample_fetcher) (seq 1 2))
  /\ (c.1 = Returned (concat (cfull ++ [clast]))
      /\ length (concat (cfull ++ [clast])) = sum_list (map length (cfull ++ [clast]))
      /\ requests c.2 =
         requests emp ++ map (commits_request sample_fetcher url "2024-01-01" "2024-01-31")
                             (seq 1 2)).
Proof.
  intros rfull rlast cfull clast url.
  apply (pagination_returns_every_page paged_gh sample_fetcher 5 emp
           rfull rlast [[]] "octocat/hello" url "2024-01-01" "2024-01-31" cfull clast [[]]).
  - constructor; [unfold full_page; vm_compute; lia | constructor].
  - unfold short_page. vm_compute. lia.
  - intros [|[|[|i]]] p Hp; simplify_eq/=; by vm_compute.
  - constructor; [unfold full_page; vm_compute; lia | constructor].
  - unfold short_page. vm_compute. lia.
  - reflexivity.
  - intros [|[|[|i]]] p Hp; simplify_eq/=; by vm_compute.
  - vm_compute. lia.
  - vm_compute. lia.
Defined.

Lemma interleaved_run :
  fetch_all_commits interleaved_gh 3 sample_fetcher "2024-01-01" "2024-01-31" emp
  = (Returned (interleaved_commits, interleaved_counts),
     (fetch_all_commits interleaved_gh 3 sample_fetcher "2024-01-01" "2024-01-31" emp).2).
Proof. vm_compute. reflexivity. Defined.

Lemma aggregated_commits_newest_first_witness :
  (fetch_all_commits interleaved_gh 3 sample_fetcher "2024-01-01" "2024-01-31" emp).1
    = Returned (interleaved_commits, interleaved_counts)
  /\ (∀ i a b, interleaved_commits !! i = Some a -> interleaved_commits !! S i = Some b ->
               (committer_date b <=? committer_date a)%string = true)
  /\ (∀ t1 t2, fits t1 -> fits t2 ->
        ((iso8601 t1 <=? iso8601 t2)%string = true <-> chron_le t1 t2)).
Proof.
  split; [by rewrite interleaved_run|].
  exact (aggregated_commits_newest_first interleaved_gh 3 sample_fetcher
           "2024-01-01" "2024-01-31" emp _ interleaved_commits interleaved_counts
           interleaved_run).
Defined.

Lemma repo_commit_count_matches_fetched_commits_witness :
  let repos := [repo_hello; repo_secret] in
  (get_all_repositories interleaved_gh 3 sample_fetcher emp).1 = Returned repos
  /\ NoDup (map full_name repos)
  /\ (∀ name n,
        dict_get name interleaved_counts = Some n <->
        ∃ repo l, repo ∈ repos /\ full_name repo = name
                  /\ fetched_from interleaved_gh 3 sample_fetcher
                       "2024-01-01" "2024-01-31" repo l
                  /\ l <> [] /\ n = length l)
  /\ NoDup (dict_keys interleaved_counts)
  /\ sum_list (dict_values interleaved_counts) = length interleaved_commits.
Proof.
  intros repos.
  assert ((get_all_repositories interleaved_gh 3 sample_fetcher emp).1 = Returned repos)
    as Hrepos by (vm_compute; reflexivity).
  assert (NoDup (map full_name repos)) as Hnd.
  { apply (bool_decide_unpack _). vm_compute. exact I. }
  split; [exact Hrepos|]. split; [exact Hnd|].
  exact (repo_commit_count_matches_fetched_commits interleaved_gh 3 sample_fetcher
           "2024-01-01" "2024-01-31" emp _ repos interleaved_commits interleaved_counts
           interleaved_run Hrepos Hnd).
Defined.

Lemma validate_token_contract_witness :
  configured (Some "ghp_bad") (Some "octocat")
  /\ status_code (user_endpoint sample_gh (user_request "ghp_bad")) = 401
  /\ let m := main sample_gh sample_strptime sample_strftime (Some "ghp_bad") (Some "octocat")
                ["fetch_commits.py"; "2024-01-01"; "2024-01-31"] 3 emp in
     m = (Exited 1,
          add_log emp [user_request "ghp_bad"]
            (banner ++ [validating_chunk] ++ invalid_token_chunks "Invalid token"))
     /\ exit_status m.1 = Some 1
     /\ requests m.2 = requests emp ++ [user_request "ghp_bad"].
Proof.
  assert (configured (Some "ghp_bad") (Some "octocat")) as Hcfg by (split; reflexivity).
  assert (status_code (user_endpoint sample_gh (user_request "ghp_bad")) = 401) as Hst
    by reflexivity.
  split; [exact Hcfg|]. split; [exact Hst|].
  exact (proj2 (validate_token_contract sample_gh sample_strptime sample_strftime
                  "ghp_bad" (Some "ghp_bad") (Some "octocat")
                  ["fetch_commits.py"; "2024-01-01"; "2024-01-31"] 3 emp) Hcfg Hst).
Defined.

Lemma bad_arguments_exit_after_token_validation_witness :
  let argv := ["fetch_commits.py"; "2024-01-01"; "31/01/2024"] in
  let m := main sample_gh sample_strptime sample_strftime (Some "ghp_good") (Some "octocat")
             argv 3 emp in
  malformed_dates sample_strptime argv
  /\ m.1 = Exited 1
  /\ (requests m.2 = requests emp \/ requests m.2 = requests emp ++ [user_request "ghp_good"])
  /\ (configured (Some "ghp_good") (Some "octocat") ->
      status_code (user_endpoint sample_gh (user_request "ghp_good")) = 200 ->
      m.2 = add_log (after_validation emp "ghp_good" "octocat") []
              (if decide (two_arguments argv) then date_error_chunks else usage_chunks)).
Proof.
  intros argv m.
  assert (malformed_dates sample_strptime argv) as Hbad.
  { exists "fetch_commits.py", "2024-01-01", "31/01/2024". split; [reflexivity|].
    right. vm_compute. reflexivity. }
  split; [exact Hbad|].
  exact (bad_arguments_exit_after_token_validation sample_gh sample_strptime sample_strftime
           (Some "ghp_good") (Some "octocat") argv 3 emp (or_intror Hbad)).
Defined.

Lemma markdown_headings_are_the_runs_witness :
  all_tagged interleaved_commits
  /\ Forall (date_parses sample_strptime) interleaved_commits
  /\ length (runs (map repo_name_of interleaved_commits)) = 3
  /\ length (remove_dups (map repo_name_of interleaved_commits)) = 2
  /\ let m := export_to_markdown sample_strptime sample_strftime interleaved_commits
                interleaved_counts "2024-01-01" "2024-01-31" "report.md" emp in
     ∃ chunks,
       m.1 = Returned tt
       /\ files m.2 !! "report.md" = Some chunks
       /\ length (List.filter is_heading chunks)
          = length (runs (map repo_name_of interleaved_commits))
       /\ (markdown_data_single_line sample_strftime interleaved_commits
             interleaved_counts "2024-01-01" "2024-01-31" ->
           heading_lines (file_text chunks)
           = length (runs (map repo_name_of interleaved_commits)))
       /\ concat (runs (map repo_name_of interleaved_commits))
          = map repo_name_of interleaved_commits
       /\ Forall (fun r => ∃ x, r <> [] /\ Forall (eq x) r)
            (runs (map repo_name_of interleaved_commits))
       /\ (∀ i r1 r2, runs (map repo_name_of interleaved_commits) !! i = Some r1 ->
                      runs (map repo_name_of interleaved_commits) !! S i = Some r2 ->
                      head r1 <> head r2).
Proof.
  assert (all_tagged interleaved_commits) as Htag.
  { repeat (constructor; [by eexists|]). constructor. }
  assert (Forall (date_parses sample_strptime) interleaved_commits) as Hdates.
  { repeat (constructor; [eexists; vm_compute; reflexivity|]). constructor. }
  split; [exact Htag|]. split; [exact Hdates|].
  split; [reflexivity|]. split; [vm_compute; reflexivity|].
  exact (markdown_headings_are_the_runs sample_strptime sample_strftime interleaved_commits
           interleaved_counts "2024-01-01" "2024-01-31" "report.md" emp Htag Hdates).
Defined.

(** The text of that report has three lines that open with [###]. *)
Lemma interleaved_report_heading_lines :
  ∃ chunks,
    files (export_to_markdown sample_strptime sample_strftime interleaved_commits
             interleaved_counts "2024-01-01" "2024-01-31" "report.md" emp).2 !! "report.md"
    = Some chunks
    /\ heading_lines (file_text chunks) = 3.
Proof. eexists. split; vm_compute; reflexivity. Qed.

Lemma csv_export_reads_back_one_row_per_commit_witness :
  all_tagged interleaved_commits
  /\ let m := export_to_csv interleaved_commits "report.csv" emp in
     ∃ chunks rows,
       m.1 = Returned tt
       /\ files m.2 !! "report.csv" = Some chunks
       /\ Csv.read (file_text chunks) = Some (fieldnames :: rows)
       /\ length rows = length interleaved_commits
       /\ ∀ i c, interleaved_commits !! i = Some c ->
            ∃ r, commit_repository c = Some r
              /\ rows !! i = Some [committer_date c;
                                   ref_full_name r;
                                   if ref_private r then "Yes" else "No";
                                   slice_to 7 (sha c);
                                   replace LF " | " (message c);
                                   html_url c]
              /\ occurs LF (replace LF " | " (message c)) = false.
Proof.
  assert (all_tagged interleaved_commits) as Htag.
  { repeat (constructor; [by eexists|]). constructor. }
  split; [exact Htag|].
  exact (csv_export_reads_back_one_row_per_commit interleaved_commits "report.csv" emp Htag).
Defined.

Lemma undated_run :
  fetch_all_commits undated_gh 3 (new_fetcher "octocat" "ghp_good")
    "2024-01-01" "2024-01-31" (after_validation emp "ghp_good" "octocat")
  = (Returned (undated_commits, [("octocat/hello", 2)]),
     (fetch_all_commits undated_gh 3 (new_fetcher "octocat" "ghp_good")
        "2024-01-01" "2024-01-31" (after_validation emp "ghp_good" "octocat")).2).
Proof. vm_compute. reflexivity. Defined.

Lemma aggregated_commits_tagged_and_dated_witness :
  let m := main undated_gh sample_strptime sample_strftime (Some "ghp_good") (Some "octocat")
             ["fetch_commits.py"; "2024-01-01"; "2024-01-31"] 3 emp in
  Exists (fun c => sample_strptime (committer_date c) "%Y-%m-%dT%H:%M:%SZ" = None)
    undated_commits
  /\ Forall (fun c => commit_repository c = Some (ref_of repo_hello)) undated_commits
  /\ m.1 = Raised ValueError
  /\ exit_status m.1 = Some 1
  /\ stdin m.2 = stdin emp
  /\ files m.2 = files emp.
Proof.
  intros m.
  assert (Exists (fun c => sample_strptime (committer_date c) "%Y-%m-%dT%H:%M:%SZ" = None)
            undated_commits) as Hbad.
  { apply Exists_cons_hd. vm_compute. reflexivity. }
  split; [exact Hbad|]. split; [by repeat constructor|].
  pose proof (aggregated_commits_tagged_and_dated undated_gh sample_strptime sample_strftime
                (Some "ghp_good") (Some "octocat") "fetch_commits.py"
                "2024-01-01" "2024-01-31" 3 emp _ undated_commits [("octocat/hello", 2)]
                (conj eq_refl eq_refl) eq_refl
                (ex_intro _ _ eq_refl) (ex_intro _ _ eq_refl) undated_run) as (_ & Hfatal & _).
  destruct (Hfatal Hbad) as (_ & _ & Hm). exact Hm.
Defined.

Lemma quiet_run :
  fetch_all_commits quiet_gh 3 (new_fetcher "octocat" "ghp_good")
    "2024-01-01" "2024-01-31" (after_validation emp "ghp_good" "octocat")
  = (Returned ([], []),
     (fetch_all_commits quiet_gh 3 (new_fetcher "octocat" "ghp_good")
        "2024-01-01" "2024-01-31" (after_validation emp "ghp_good" "octocat")).2).
Proof. vm_compute. reflexivity. Defined.

Lemma no_commits_notice_and_exit_0_witness :
  let m := main quiet_gh sample_strptime sample_strftime (Some "ghp_good") (Some "octocat")
             ["fetch_commits.py"; "2024-01-01"; "2024-01-31"] 3 emp in
  (∀ w0, display_commits sample_strptime sample_strftime [] [] w0
         = (Returned tt, add_log w0 [] no_commits_chunks))
  /\ m = (Returned tt,
          add_log (fetch_all_commits quiet_gh 3 (new_fetcher "octocat" "ghp_good")
                     "2024-01-01" "2024-01-31" (after_validation emp "ghp_good" "octocat")).2
            [] (no_commits_chunks ++ [done_chunk]))
  /\ exit_status m.1 = Some 0
  /\ stdin m.2 = stdin emp
  /\ files m.2 = files emp.
Proof.
  exact (no_commits_notice_and_exit_0 quiet_gh sample_strptime sample_strftime
           (Some "ghp_good") (Some "octocat") "fetch_commits.py"
           "2024-01-01" "2024-01-31" 3 emp _ []
           (conj eq_refl eq_refl) eq_refl
           (ex_intro _ _ eq_refl) (ex_intro _ _ eq_refl) quiet_run).
Defined.

(** * Further properties of the script *)

(** ** The repository listing *)

Lemma get_repositories_loop_error gh self fuel acc page w :
  let r := repos_endpoint gh (repos_request self page) in
  status_code r <> 200 ->
  get_all_repositories_loop gh (S fuel) self acc page w =
  match error_json r with
  | Some body =>
      (Returned acc,
       add_log w [repos_request self page]
         [("Error fetching repositories: " +:+ str_of_nat (status_code r)) +:+ nl;
          body +:+ nl])
  | None =>
      (Raised JSONDecodeError,
       add_log w [repos_request self page]
         [("Error fetching repositories: " +:+ str_of_nat (status_code r)) +:+ nl])
  end.
Proof.
  intros r Hst. cbn [get_all_repositories_loop]. step. fold r.
  apply Nat.eqb_neq in Hst. rewrite Hst. cbn [negb]. step.
  destruct (error_json r) as [body|].
  - step. by rewrite mret_eq, !add_log_add_log.
  - unfold raise. by rewrite !add_log_add_log.
Qed.

(** X1.  When the request for a page of the repository listing is answered
    with a status other than 200, after any number of full pages,
    [get_all_repositories] prints the status and then calls
    [response.json()] on the answer.  If the body decodes, it is printed,
    then the number of repositories found, and the repositories of the pages
    before are returned: the listing does not fail.  If the body is not
    JSON, [response.json()] raises [JSONDecodeError], which nothing catches:
    the repositories collected so far are lost and the count line is not
    printed.  Either way the pages up to the failing one have been asked for
    and nothing more. *)
Theorem repository_listing_error_returns_partial_or_raises
    (gh : github) (self : GitHubCommitsFetcher) (fuel : nat) (w : world)
    (full : list (list repository)) :
  Forall full_page full ->
  serves (repos_endpoint gh) (repos_request self) full ->
  let r := repos_endpoint gh (repos_request self (S (length full))) in
  status_code r <> 200 ->
  length full < fuel ->
  get_all_repositories gh fuel self w
  = match error_json r with
    | Some body =>
        (Returned (concat full),
         add_log w (map (repos_request self) (seq 1 (S (length full))))
           (listing_error_chunks r body (length (concat full))))
    | None =>
        (Raised JSONDecodeError,
         add_log w (map (repos_request self) (seq 1 (S (length full))))
           (listing_raise_chunks r))
    end.
Proof.
  intros Hfull Hsrv r Hst Hfuel. unfold get_all_repositories. step.
  assert (∀ w0, get_all_repositories_loop gh fuel self [] 1 w0
                = match error_json r with
                  | Some body =>
                      (Returned (concat full),
                       add_log w0 (map (repos_request self) (seq 1 (S (length full))))
                         [("Error fetching repositories: "
                           +:+ str_of_nat (status_code r)) +:+ nl;
                          body +:+ nl])
                  | None =>
                      (Raised JSONDecodeError,
                       add_log w0 (map (repos_request self) (seq 1 (S (length full))))
                         [("Error fetching repositories: "
                           +:+ str_of_nat (status_code r)) +:+ nl])
                  end) as Hloop.
  { intros w0.
    replace fuel with (length full + S (fuel - S (length full))) by lia.
    rewrite get_repositories_loop_full; [|done|intros i p Hi; by apply Hsrv].
    rewrite get_repositories_loop_error by done.
    change (1 + length full) with (S (length full)). fold r.
    destruct (error_json r); rewrite add_log_add_log; cbn [app]; do 2 f_equal;
      by rewrite seq_S, map_app. }
  rewrite bind_eq, Hloop. unfold listing_error_chunks, listing_raise_chunks.
  destruct (error_json r) as [body|].
  - step. rewrite mret_eq, !add_log_add_log. cbn [app]. by rewrite app_nil_r.
  - by rewrite !add_log_add_log.
Qed.

Lemma repository_listing_error_returns_partial_or_raises_witness :
  let self := sample_fetcher in
  let failing (refusal : response (list repository)) : github :=
    {| user_endpoint := accepts_token;
       repos_endpoint r :=
         if String.eqb (page_of r) "1" then ok (replicate 100 repo_hello) else refusal;
       commits_endpoint r := ok [] |} in
  get_all_repositories (failing (failed 503 [])) 4 self emp
  = (Returned (concat [replicate 100 repo_hello]),
     add_log emp (map (repos_request self) (seq 1 2))
       (listing_error_chunks (failed 503 [] : response (list repository))
          "{'message': 'Not Found'}" 100))
  /\ get_all_repositories (failing (failed_html 503 [])) 4 self emp
     = (Raised JSONDecodeError,
        add_log emp (map (repos_request self) (seq 1 2))
          (listing_raise_chunks (failed_html 503 [] : response (list repository)))).
Proof.
  intros self failing. split.
  - apply (repository_listing_error_returns_partial_or_raises (failing (failed 503 [])) self
             4 emp [replicate 100 repo_hello]).
    + constructor; [unfold full_page; vm_compute; lia | constructor].
    + intros [|i] p Hp; simplify_eq/=; by vm_compute.
    + vm_compute. lia.
    + vm_compute. lia.
  - apply (repository_listing_error_returns_partial_or_raises
             (failing (failed_html 503 [])) self 4 emp [replicate 100 repo_hello]).
    + constructor; [unfold full_page; vm_compute; lia | constructor].
    + intros [|i] p Hp; simplify_eq/=; by vm_compute.
    + vm_compute. lia.
    + vm_compute. lia.
Defined.

(** ** Pagination has no page limit *)

Lemma get_commits_loop_always_full gh self url s e :
  always_full (commits_endpoint gh) (commits_request self url s e) ->
  ∀ fuel acc page w,
    get_commits_loop gh fuel self url s e acc page w
    = (OutOfFuel, add_log w (map (commits_request self url s e) (seq page fuel)) []).
Proof.
  intros Hfull. induction fuel as [|fuel IH]; intros acc page w.
  - cbn. by rewrite add_log_nil.
  - destruct (Hfull page) as [Hst Hp].
    rewrite (get_commits_loop_step gh self fuel url s e acc page w _ Hst eq_refl Hp).
    rewrite IH, add_log_add_log. cbn [seq map app]. by rewrite Nat.add_1_r.
Qed.

Lemma get_repositories_loop_always_full gh self :
  always_full (repos_endpoint gh) (repos_request self) ->
  ∀ fuel acc page w,
    get_all_repositories_loop gh fuel self acc page w
    = (OutOfFuel, add_log w (map (repos_request self) (seq page fuel)) []).
Proof.
  intros Hfull. induction fuel as [|fuel IH]; intros acc page w.
  - cbn. by rewrite add_log_nil.
  - destruct (Hfull page) as [Hst Hp].
    rewrite (get_repositories_loop_step gh self fuel acc page w _ Hst eq_refl Hp).
    rewrite IH, add_log_add_log. cbn [seq map app]. by rewrite Nat.add_1_r.
Qed.

(** X2.  Neither loop has a limit on the number of pages: against a service
    that answers every page with status 200 and 100 items or more, the
    commit paginator and the repository enumerator have not returned after
    any number of iterations, and have by then asked for as many pages, in
    order from page 1. *)
Theorem pagination_never_stops_on_full_pages
    (gh : github) (self : GitHubCommitsFetcher)
    (repo_full_name url start_date end_date : string) (fuel : nat) (w : world) :
  commits_url self repo_full_name = Some url ->
  always_full (commits_endpoint gh) (commits_request self url start_date end_date) ->
  always_full (repos_endpoint gh) (repos_request self) ->
  get_commits_from_repo gh fuel self repo_full_name start_date end_date w
  = (OutOfFuel,
     add_log w (map (commits_request self url start_date end_date) (seq 1 fuel)) [])
  /\ (get_all_repositories gh fuel self w).1 = OutOfFuel
  /\ requests (get_all_repositories gh fuel self w).2
     = requests w ++ map (repos_request self) (seq 1 fuel).
Proof.
  intros Hurl Hc Hr. split.
  - unfold get_commits_from_repo. rewrite Hurl. by apply get_commits_loop_always_full.
  - unfold get_all_repositories. step. rewrite bind_eq.
    rewrite (get_repositories_loop_always_full gh self Hr). cbn [fst snd add_log requests].
    by rewrite app_nil_r.
Qed.

Lemma pagination_never_stops_on_full_pages_witness :
  let endless : github :=
    {| user_endpoint := accepts_token;
       repos_endpoint r := ok (replicate 100 repo_hello);
       commits_endpoint r := ok (replicate 100 c_flaky) |} in
  let url := "https://api.github.com/repos/octocat/hello/commits" in
  get_commits_from_repo endless 7 sample_fetcher "octocat/hello" "2024-01-01" "2024-01-31" emp
  = (OutOfFuel,
     add_log emp (map (commits_request sample_fetcher url "2024-01-01" "2024-01-31")
                    (seq 1 7)) [])
  /\ (get_all_repositories endless 7 sample_fetcher emp).1 = OutOfFuel
  /\ requests (get_all_repositories endless 7 sample_fetcher emp).2
     = requests emp ++ map (repos_request sample_fetcher) (seq 1 7).
Proof.
  intros endless url.
  apply (pagination_never_stops_on_full_pages endless sample_fetcher "octocat/hello" url
           "2024-01-01" "2024-01-31" 7 emp).
  - reflexivity.
  - intros page. split; [reflexivity | unfold full_page; vm_compute; lia].
  - intros page. split; [reflexivity | unfold full_page; vm_compute; lia].
Defined.

(** ** The URL of a repository's commits *)

Lemma split_not_nil c s : split c s <> [].
Proof.
  destruct s as [|a s]; [done|]. cbn [split].
  destruct (Ascii.eqb a c); [done|]. by destruct (split c s).
Qed.

Lemma length_split c s : length (split c s) = S (occurrences c s).
Proof.
  induction s as [|a s IH]; [done|]. cbn [split occurrences].
  destruct (Ascii.eqb a c); [by rewrite <- IH|].
  rewrite <- IH. pose proof (split_not_nil c s). by destruct (split c s).
Qed.

Lemma split_one c s b : split c s = [b] -> s = b.
Proof.
  revert b. induction s as [|a s IH]; intros b; cbn [split].
  - by intros [= <-].
  - destruct (Ascii.eqb a c).
    + intros [= _ H]. by apply split_not_nil in H.
    + destruct (split c s) as [|piece rest] eqn:Hs; [by apply split_not_nil in Hs|].
      intros [= <- ->]. by rewrite (IH piece).
Qed.

Lemma split_two c s a b : split c s = [a; b] -> s = a +:+ String c b.
Proof.
  revert a b. induction s as [|x s IH]; intros a b; cbn [split]; [done|].
  destruct (Ascii.eqb x c) eqn:Hx.
  - apply Ascii.eqb_eq in Hx as ->. intros [= <- H]. by rewrite (split_one _ _ _ H).
  - destruct (split c s) as [|piece rest] eqn:Hs; [done|].
    intros [= <- ->]. by rewrite (IH piece b).
Qed.

Lemma commits_url_of_full_name_aux (self : GitHubCommitsFetcher) (repo_full_name : string) :
  (occurrences "/" repo_full_name = 1 ->
   commits_url self repo_full_name
   = Some (base_url self +:+ "/repos/" +:+ repo_full_name +:+ "/commits"))
  /\ (occurrences "/" repo_full_name <> 1 -> commits_url self repo_full_name = None).
Proof.
  pose proof (length_split "/" repo_full_name) as Hlen. unfold commits_url. split.
  - intros Hone. rewrite Hone in Hlen.
    destruct (split "/" repo_full_name) as [|owner [|repo [|? ?]]] eqn:Hs; try done.
    apply split_two in Hs as ->. by rewrite !append_assoc.
  - intros Hne.
    destruct (split "/" repo_full_name) as [|owner [|repo [|? ?]]] eqn:Hs; try done.
    simpl in Hlen. lia.
Qed.

(** X3.  For a full name with exactly one slash the commits of the
    repository are asked for at [{base_url}/repos/{full_name}/commits], so
    that the first request of [get_commits_from_repo] goes there with the
    author, the window and page 1 as parameters; for any other full name no
    URL is built. *)
Theorem commits_url_of_full_name
    (gh : github) (self : GitHubCommitsFetcher) (fuel : nat)
    (repo_full_name start_date end_date : string) (w : world) :
  (occurrences "/" repo_full_name = 1 ->
   let url := base_url self +:+ "/repos/" +:+ repo_full_name +:+ "/commits" in
   commits_url self repo_full_name = Some url
   /\ ∃ more,
       requests (get_commits_from_repo gh (S fuel) self repo_full_name
                   start_date end_date w).2
       = requests w ++ commits_request self url start_date end_date 1 :: more)
  /\ (occurrences "/" repo_full_name <> 1 -> commits_url self repo_full_name = None).
Proof.
  destruct (commits_url_of_full_name_aux self repo_full_name) as [Hone Hnone].
  split; [|exact Hnone].
  intros H url. split; [by apply Hone|].
  unfold get_commits_from_repo. rewrite (Hone H). fold url.
  destruct (log_only_get_commits_loop gh self start_date end_date url fuel
              ([] ++ json (commits_endpoint gh (commits_request self url start_date end_date 1)))
              (1 + 1)) as (o & reqs & out & Hloop).
  cbn [get_commits_loop]. step.
  destruct (negb _); [exists []; by rewrite mret_eq|].
  destruct (json _) as [|c l]; [exists []; by rewrite mret_eq|].
  destruct (_ <? _)%nat; [exists []; by rewrite mret_eq|].
  exists reqs. rewrite Hloop. cbn [snd add_log requests]. by rewrite <- app_assoc.
Qed.

Lemma commits_url_of_full_name_witness :
  occurrences "/" "octocat/hello" = 1
  /\ commits_url sample_fetcher "octocat/hello"
     = Some "https://api.github.com/repos/octocat/hello/commits"
  /\ occurrences "/" "octocat" <> 1
  /\ commits_url sample_fetcher "octocat" = None.
Proof.
  pose proof (commits_url_of_full_name sample_gh sample_fetcher 3 "octocat/hello"
                "2024-01-01" "2024-01-31" emp) as [Hone _].
  pose proof (commits_url_of_full_name sample_gh sample_fetcher 3 "octocat"
                "2024-01-01" "2024-01-31" emp) as [_ Hnone].
  split; [reflexivity|]. split; [exact (proj1 (Hone eq_refl))|].
  assert (occurrences "/" "octocat" <> 1) as Hne by (vm_compute; lia).
  split; [exact Hne | exact (Hnone Hne)].
Defined.

Section MalformedName.
Context (gh : github) (self : GitHubCommitsFetcher) (fuel : nat).
Context (start_date end_date : string).

(** One turn of the loop, for a repository whose fetch returns. *)
Lemma fetch_repos_loop_turn repo todo i total acc counts w l reqs out :
  (∀ w0, get_commits_from_repo gh fuel self (full_name repo) start_date end_date w0
         = (Returned l, add_log w0 reqs out)) ->
  fetch_repos_loop gh fuel self start_date end_date (repo :: todo) i total acc counts w
  = fetch_repos_loop gh fuel self start_date end_date todo (S i) total
      (acc ++ tagged repo l)
      (match l with
       | [] => counts
       | _ :: _ => dict_set (full_name repo) (length l) counts
       end)
      (add_log w reqs (progress_chunk i total repo :: out ++ [count_chunk (length l)])).
Proof.
  intros Hrun. cbn [fetch_repos_loop]. step.
  rewrite (bind_returned _ _ _ _ _ (Hrun _)).
  destruct l as [|c l]; step; rewrite !add_log_add_log; unfold tagged;
    cbn [map length app]; by rewrite ?length_map, ?app_nil_r.
Qed.

(** The loop over the repositories gets through repositories whose fetch
    returns, and goes on from there. *)
Lemma fetch_repos_loop_app total : ∀ pre i acc counts w,
  Forall (fun repo => ∃ l, fetched_from gh fuel self start_date end_date repo l) pre ->
  ∃ acc' counts' reqs out,
    fetch_repos_loop gh fuel self start_date end_date pre i total acc counts w
    = (Returned (acc', counts'), add_log w reqs out)
    /\ ∀ rest,
        fetch_repos_loop gh fuel self start_date end_date (pre ++ rest) i total acc counts w
        = fetch_repos_loop gh fuel self start_date end_date rest (length pre + i) total
            acc' counts' (add_log w reqs out).
Proof.
  induction pre as [|repo pre IH]; intros i acc counts w Hall.
  - exists acc, counts, [], []. rewrite add_log_nil. by split.
  - apply Forall_cons in Hall as [[l Hl] Hall].
    destruct (log_only_get_commits_from_repo gh self fuel start_date end_date
                (full_name repo)) as (o & reqs & out & Hrun).
    assert (o = Returned l) as ->.
    { specialize (Hl emp). by rewrite Hrun in Hl. }
    pose proof (fetch_repos_loop_turn repo) as Hturn.
    destruct (IH (S i) (acc ++ tagged repo l)
                (match l with
                 | [] => counts
                 | _ :: _ => dict_set (full_name repo) (length l) counts
                 end)
                (add_log w reqs
                   (progress_chunk i total repo :: out ++ [count_chunk (length l)])) Hall)
      as (acc' & counts' & reqs' & out' & Hpre & Hrest).
    exists acc', counts', (reqs ++ reqs'),
      ((progress_chunk i total repo :: out ++ [count_chunk (length l)]) ++ out').
    split.
    + rewrite (Hturn pre i total acc counts w l reqs out Hrun), Hpre.
      by rewrite add_log_add_log.
    + intros rest. cbn [app length].
      rewrite (Hturn (pre ++ rest) i total acc counts w l reqs out Hrun), Hrest.
      rewrite add_log_add_log.
      by replace (length pre + S i) with (S (length pre + i)) by lia.
Qed.

End MalformedName.

(** X4.  A repository whose full name does not have exactly one slash makes
    [get_commits_from_repo] raise [ValueError] before any request is sent,
    and nothing in [fetch_all_commits] catches it: once the repositories
    before it have been fetched, the loop ends with that exception, having
    sent the requests of those fetches and no other; the repositories after
    it are never asked for. *)
Theorem malformed_full_name_aborts_the_fetch
    (gh : github) (self : GitHubCommitsFetcher) (fuel : nat)
    (start_date end_date : string) (w : world)
    (pre post : list repository) (repo : repository) (i total : nat)
    (all_commits : list commit) (repo_commit_count : dict nat) :
  occurrences "/" (full_name repo) <> 1 ->
  Forall (fun r => ∃ l, fetched_from gh fuel self start_date end_date r l) pre ->
  get_commits_from_repo gh fuel self (full_name repo) start_date end_date w
    = (Raised ValueError, w)
  /\ (fetch_repos_loop gh fuel self start_date end_date (pre ++ repo :: post) i total
        all_commits repo_commit_count w).1 = Raised ValueError
  /\ requests (fetch_repos_loop gh fuel self start_date end_date (pre ++ repo :: post)
                 i total all_commits repo_commit_count w).2
     = requests (fetch_repos_loop gh fuel self start_date end_date pre
                   i total all_commits repo_commit_count w).2.
Proof.
  intros Hbad Hpre.
  assert (∀ w0, get_commits_from_repo gh fuel self (full_name repo) start_date end_date w0
                = (Raised ValueError, w0)) as Hraise.
  { intros w0. unfold get_commits_from_repo.
    by rewrite (proj2 (commits_url_of_full_name_aux self (full_name repo)) Hbad). }
  split; [apply Hraise|].
  destruct (fetch_repos_loop_app gh self fuel start_date end_date total pre i
              all_commits repo_commit_count w Hpre)
    as (acc' & counts' & reqs & out & Hrun & Hrest).
  rewrite Hrest, Hrun. cbn [fetch_repos_loop]. step.
  rewrite bind_eq, Hraise. cbn [fst snd add_log requests]. split; [done|].
  by rewrite app_nil_r.
Qed.

(** ** The sort keeps ties in place *)

Section Stability.
Context {A K : Type} (leb eqb : K -> K -> bool) (key : A -> K).
Hypothesis eqb_leb : ∀ x y k, eqb x k = true -> eqb y k = true -> leb x y = true.

Lemma filter_insert_desc k x l :
  List.filter (fun a => eqb (key a) k) (insert_desc leb key x l)
  = List.filter (fun a => eqb (key a) k) (x :: l).
Proof.
  induction l as [|y l IH]; [done|]. cbn [insert_desc].
  destruct (leb (key y) (key x)) eqn:Hle; [done|].
  cbn [List.filter] in *. rewrite IH.
  destruct (eqb (key y) k) eqn:Hy, (eqb (key x) k) eqn:Hx; try done.
  by rewrite (eqb_leb _ _ _ Hy Hx) in Hle.
Qed.

Lemma filter_sort_desc k l :
  List.filter (fun a => eqb (key a) k) (sort_desc leb key l)
  = List.filter (fun a => eqb (key a) k) l.
Proof.
  induction l as [|x l IH]; [done|]. cbn [sort_desc].
  rewrite filter_insert_desc. cbn [List.filter]. by rewrite IH.
Qed.
End Stability.

Lemma string_eqb_leb (x y k : string) :
  String.eqb x k = true -> String.eqb y k = true -> (x <=? y)%string = true.
Proof.
  intros ->%String.eqb_eq ->%String.eqb_eq. by destruct (String.leb_total k k).
Qed.

(** X5.  The list [fetch_all_commits] returns holds exactly the commits that
    were fetched, each with the reference of its repository attached and
    otherwise unchanged: it is a rearrangement of the fetched lists put one
    after the other in the order of the enumeration, nothing lost and
    nothing doubled.  The rearrangement is stable: for every timestamp, the
    commits that carry it stand in the order in which they were fetched. *)
Theorem aggregation_is_a_stable_rearrangement
    (gh : github) (fuel : nat) (self : GitHubCommitsFetcher)
    (start_date end_date : string) (w w' : world)
    (commits : list commit) (repo_commit_count : dict nat) :
  fetch_all_commits gh fuel self start_date end_date w
    = (Returned (commits, repo_commit_count), w') ->
  ∃ repos lists,
    (get_all_repositories gh fuel self w).1 = Returned repos
    /\ Forall2 (fetched_from gh fuel self start_date end_date) repos lists
    /\ let fetched :=
         concat (zip_with (fun repo l => map (fun c => set_repository c (ref_of repo)) l)
                   repos lists) in
       Permutation commits fetched
       /\ ∀ date, List.filter (fun c => String.eqb (committer_date c) date) commits
                  = List.filter (fun c => String.eqb (committer_date c) date) fetched.
Proof.
  intros Hrun.
  apply fetch_all_commits_inv in Hrun as (repos & lists & Hrepos & Hall & -> & _).
  exists repos, lists. split; [done|]. split; [done|]. split.
  - apply sort_desc_perm.
  - intros date. apply filter_sort_desc, string_eqb_leb.
Qed.

Lemma aggregation_is_a_stable_rearrangement_witness :
  (fetch_all_commits interleaved_gh 3 sample_fetcher "2024-01-01" "2024-01-31" emp).1
    = Returned (interleaved_commits, interleaved_counts)
  /\ ∃ repos lists,
       (get_all_repositories interleaved_gh 3 sample_fetcher emp).1 = Returned repos
       /\ Forall2 (fetched_from interleaved_gh 3 sample_fetcher "2024-01-01" "2024-01-31")
            repos lists
       /\ let fetched :=
            concat (zip_with (fun repo l => map (fun c => set_repository c (ref_of repo)) l)
                      repos lists) in
          Permutation interleaved_commits fetched
          /\ ∀ date,
               List.filter (fun c => String.eqb (committer_date c) date) interleaved_commits
               = List.filter (fun c => String.eqb (committer_date c) date) fetched.
Proof.
  split; [by rewrite interleaved_run|].
  exact (aggregation_is_a_stable_rearrangement interleaved_gh 3 sample_fetcher
           "2024-01-01" "2024-01-31" emp _ interleaved_commits interleaved_counts
           interleaved_run).
Defined.

(** ** The count mapping without distinct names *)

Section Overwriting.
Context {V : Type}.
Implicit Types (d : dict V) (k : string) (v : V).

Lemma dict_keys_set_old k v d :
  is_Some (dict_get k d) -> dict_keys (dict_set k v d) = dict_keys d.
Proof.
  induction d as [|[k0 v0] d IH]; simpl; [by intros [? ?]|].
  destruct (String.eqb k0 k) eqn:E; [done|]. intros H. simpl. by rewrite IH.
Qed.

Lemma dict_keys_set_nodup k v d : NoDup (dict_keys d) -> NoDup (dict_keys (dict_set k v d)).
Proof.
  intros Hnd. destruct (dict_get k d) as [v0|] eqn:Hk.
  - by rewrite dict_keys_set_old.
  - rewrite dict_keys_set_new by done.
    apply NoDup_app. split; [done|]. split; [|apply NoDup_singleton].
    intros k' Hk' ->%list_elem_of_singleton. by apply dict_get_None_keys in Hk.
Qed.

Lemma dict_get_set_is_Some k k' v d :
  is_Some (dict_get k' d) -> is_Some (dict_get k' (dict_set k v d)).
Proof.
  intros H. destruct (decide (k = k')) as [->|Hne].
  - rewrite dict_get_set_eq. by eexists.
  - by rewrite dict_get_set_ne.
Qed.
End Overwriting.

Section CountingAgain.

Lemma sum_dict_set k (v : nat) (d : dict nat) :
  sum_list (dict_values (dict_set k v d)) + default 0 (dict_get k d)
  = sum_list (dict_values d) + v.
Proof.
  induction d as [|[k0 v0] d IH]; simpl; [lia|].
  destruct (String.eqb k0 k) eqn:E; simpl; lia.
Qed.

Lemma positive_dict_set k (v : nat) (d : dict nat) :
  0 < v -> Forall (fun p : string * nat => 0 < p.2) d ->
  Forall (fun p : string * nat => 0 < p.2) (dict_set k v d).
Proof.
  intros Hv. induction 1 as [|[k0 v0] d Hp Hd IH]; simpl; [by repeat constructor|].
  destruct (String.eqb k0 k); by constructor.
Qed.

Lemma positive_dict_get k (d : dict nat) n :
  Forall (fun p : string * nat => 0 < p.2) d -> dict_get k d = Some n -> 0 < n.
Proof.
  induction 1 as [|[k0 v0] d Hp Hd IH]; simpl; [done|].
  destruct (String.eqb k0 k); [by intros [= <-] | done].
Qed.

Lemma length_concat_tagged_cons repo (l : list commit) repos lists :
  length (concat (zip_with tagged (repo :: repos) (l :: lists)))
  = length l + length (concat (zip_with tagged repos lists)).
Proof. cbn [zip_with concat]. rewrite length_app. unfold tagged at 1. by rewrite length_map. Qed.

(** The count mapping after the loop, whatever the names: keys stay
    distinct, values positive, entries that were there stay, every entry is
    the length of a non-empty fetched list of a repository of that name,
    every repository with a non-empty list has an entry, and the values add
    up to no more than the number of commits. *)
Lemma counted_general : ∀ repos lists counts,
  NoDup (dict_keys counts) -> Forall (fun p : string * nat => 0 < p.2) counts ->
  let cnt := counted repos lists counts in
  NoDup (dict_keys cnt)
  /\ Forall (fun p : string * nat => 0 < p.2) cnt
  /\ sum_list (dict_values cnt)
     <= sum_list (dict_values counts) + length (concat (zip_with tagged repos lists))
  /\ (∀ k, is_Some (dict_get k counts) -> is_Some (dict_get k cnt))
  /\ (∀ name n, dict_get name cnt = Some n ->
        dict_get name counts = Some n
        \/ ∃ j repo l, repos !! j = Some repo /\ lists !! j = Some l
                       /\ full_name repo = name /\ l <> [] /\ n = length l)
  /\ (∀ j repo l, repos !! j = Some repo -> lists !! j = Some l -> l <> [] ->
        is_Some (dict_get (full_name repo) cnt)).
Proof.
  induction repos as [|repo repos IH]; intros lists counts Hnd Hpos.
  { simpl. repeat split; try done; [lia | by left]. }
  destruct lists as [|l lists].
  { simpl. repeat split; try done; [lia | by left]. }
  cbn [counted]. rewrite length_concat_tagged_cons.
  destruct l as [|c l].
  - destruct (IH lists counts Hnd Hpos) as (Hk & Hp & Hsum & Hkeep & Hsound & Hcomp).
    split; [done|]. split; [done|]. split; [simpl; lia|]. split; [done|]. split.
    + intros name n Hn. destruct (Hsound name n Hn) as [?|(j & r & l' & ? & ? & ? & ? & ?)];
        [by left|]. right. by exists (S j), r, l'.
    + intros [|j] r l' Hr Hl Hne; simpl in Hr, Hl; [congruence|]. by eapply Hcomp.
  - set (counts' := dict_set (full_name repo) (length (c :: l)) counts).
    destruct (IH lists counts') as (Hk & Hp & Hsum & Hkeep & Hsound & Hcomp).
    { by apply dict_keys_set_nodup. }
    { apply positive_dict_set; [simpl; lia | done]. }
    pose proof (sum_dict_set (full_name repo) (length (c :: l)) counts) as Hset.
    fold counts' in Hset.
    split; [done|]. split; [done|]. split; [lia|]. split.
    { intros k Hk'. by apply Hkeep, dict_get_set_is_Some. }
    split.
    + intros name n Hn. destruct (Hsound name n Hn) as [Hc|(j & r & l' & ? & ? & ? & ? & ?)].
      * unfold counts' in Hc. destruct (decide (full_name repo = name)) as [<-|Hne].
        -- rewrite dict_get_set_eq in Hc. injection Hc as <-.
           right. by exists 0, repo, (c :: l).
        -- rewrite dict_get_set_ne in Hc by done. by left.
      * right. by exists (S j), r, l'.
    + intros [|j] r l' Hr Hl Hne; simpl in Hr, Hl.
      * injection Hr as <-. apply Hkeep. unfold counts'.
        rewrite dict_get_set_eq. by eexists.
      * by eapply Hcomp.
Qed.

(** A repository with a non-empty list whose name is in the mapping
    already: its count replaces the old one, and the sum falls short. *)
Lemma counted_overwrites : ∀ repos lists counts j repo l,
  NoDup (dict_keys counts) -> Forall (fun p : string * nat => 0 < p.2) counts ->
  repos !! j = Some repo -> lists !! j = Some l -> l <> [] ->
  is_Some (dict_get (full_name repo) counts) ->
  sum_list (dict_values (counted repos lists counts))
  < sum_list (dict_values counts) + length (concat (zip_with tagged repos lists)).
Proof.
  induction repos as [|r0 repos IH]; intros lists counts j repo l Hnd Hpos Hr Hl Hne Hin;
    [done|].
  destruct lists as [|l0 lists]; [done|].
  cbn [counted]. rewrite length_concat_tagged_cons.
  destruct j as [|j]; simpl in Hr, Hl.
  - injection Hr as ->. injection Hl as ->. destruct l as [|c l]; [done|].
    set (counts' := dict_set (full_name repo) (length (c :: l)) counts).
    destruct (counted_general repos lists counts') as (_ & _ & Hsum & _).
    { by apply dict_keys_set_nodup. }
    { apply positive_dict_set; [simpl; lia | done]. }
    pose proof (sum_dict_set (full_name repo) (length (c :: l)) counts) as Hset.
    fold counts' in Hset. destruct Hin as [n Hn].
    pose proof (positive_dict_get _ _ _ Hpos Hn). rewrite Hn in Hset.
    change (default 0 (Some n)) with n in Hset. lia.
  - destruct l0 as [|c0 l0].
    + specialize (IH lists counts j repo l Hnd Hpos Hr Hl Hne Hin). simpl. lia.
    + set (counts' := dict_set (full_name r0) (length (c0 :: l0)) counts).
      assert (sum_list (dict_values (counted repos lists counts'))
              < sum_list (dict_values counts') + length (concat (zip_with tagged repos lists)))
        as Hlt.
      { apply (IH lists counts' j repo l); try done.
        - by apply dict_keys_set_nodup.
        - apply positive_dict_set; [simpl; lia | done].
        - by apply dict_get_set_is_Some. }
      pose proof (sum_dict_set (full_name r0) (length (c0 :: l0)) counts) as Hset.
      fold counts' in Hset. lia.
Qed.

(** Two repositories of the same name, both with commits. *)
Lemma counted_duplicate : ∀ repos lists counts j1 j2 r1 r2 l1 l2,
  NoDup (dict_keys counts) -> Forall (fun p : string * nat => 0 < p.2) counts ->
  j1 < j2 ->
  repos !! j1 = Some r1 -> repos !! j2 = Some r2 -> full_name r1 = full_name r2 ->
  lists !! j1 = Some l1 -> lists !! j2 = Some l2 -> l1 <> [] -> l2 <> [] ->
  sum_list (dict_values (counted repos lists counts))
  < sum_list (dict_values counts) + length (concat (zip_with tagged repos lists)).
Proof.
  induction repos as [|r0 repos IH];
    intros lists counts j1 j2 r1 r2 l1 l2 Hnd Hpos Hlt Hr1 Hr2 Hname Hl1 Hl2 Hne1 Hne2;
    [done|].
  destruct lists as [|l0 lists]; [done|].
  destruct j2 as [|j2]; [lia|]. simpl in Hr2, Hl2.
  cbn [counted]. rewrite length_concat_tagged_cons.
  destruct j1 as [|j1]; simpl in Hr1, Hl1.
  - injection Hr1 as ->. injection Hl1 as ->. destruct l1 as [|c l1]; [done|].
    set (counts' := dict_set (full_name r1) (length (c :: l1)) counts).
    assert (sum_list (dict_values (counted repos lists counts'))
            < sum_list (dict_values counts') + length (concat (zip_with tagged repos lists)))
      as Hstrict.
    { apply (counted_overwrites repos lists counts' j2 r2 l2); try done.
      - by apply dict_keys_set_nodup.
      - apply positive_dict_set; [simpl; lia | done].
      - rewrite <- Hname. unfold counts'. rewrite dict_get_set_eq. by eexists. }
    pose proof (sum_dict_set (full_name r1) (length (c :: l1)) counts) as Hset.
    fold counts' in Hset. lia.
  - destruct l0 as [|c0 l0].
    + assert (j1 < j2) as Hlt' by lia.
      specialize (IH lists counts j1 j2 r1 r2 l1 l2 Hnd Hpos Hlt' Hr1 Hr2 Hname
                    Hl1 Hl2 Hne1 Hne2).
      simpl. lia.
    + set (counts' := dict_set (full_name r0) (length (c0 :: l0)) counts).
      assert (sum_list (dict_values (counted repos lists counts'))
              < sum_list (dict_values counts') + length (concat (zip_with tagged repos lists)))
        as Hstrict.
      { apply (IH lists counts' j1 j2 r1 r2 l1 l2); try done; [| |lia].
        - by apply dict_keys_set_nodup.
        - apply positive_dict_set; [simpl; lia | done]. }
      pose proof (sum_dict_set (full_name r0) (length (c0 :: l0)) counts) as Hset.
      fold counts' in Hset. lia.
Qed.

End CountingAgain.

(** What [get_commits_from_repo] returns in the empty world, it returns in
    every world. *)
Lemma fetched_from_emp gh fuel self start_date end_date repo l :
  (get_commits_from_repo gh fuel self (full_name repo) start_date end_date emp).1
    = Returned l ->
  fetched_from gh fuel self start_date end_date repo l.
Proof.
  intros Hrun w0.
  by rewrite (log_only_result _ w0 emp)
    by apply log_only_get_commits_from_repo.
Qed.

(** The fetch of a repository depends on its full name only. *)
Lemma fetched_from_name gh fuel self start_date end_date r1 r2 l1 l2 :
  full_name r1 = full_name r2 ->
  fetched_from gh fuel self start_date end_date r1 l1 ->
  fetched_from gh fuel self start_date end_date r2 l2 ->
  l1 = l2.
Proof.
  intros Hname H1 H2. specialize (H1 emp). specialize (H2 emp).
  rewrite Hname in H1. congruence.
Qed.

(** X6.  Nothing in the script removes a repository the listing names more
    than once, and the count mapping is keyed by full name.  So, whatever
    the names: the mapping has an entry [name -> n] exactly when [name] is
    the full name of an enumerated repository for which
    [get_commits_from_repo] returned a non-empty list of [n] commits, and no
    key occurs twice; the counts add up to no more than the number of
    aggregated commits; and as soon as two places of the enumeration carry
    the same full name and commits were fetched for it, the commits are in
    the list once for each place but counted once, so that the counts add up
    to less. *)
Theorem repeated_repository_is_fetched_twice_counted_once
    (gh : github) (fuel : nat) (self : GitHubCommitsFetcher)
    (start_date end_date : string) (w w' : world)
    (repos : list repository)
    (commits : list commit) (repo_commit_count : dict nat) :
  fetch_all_commits gh fuel self start_date end_date w
    = (Returned (commits, repo_commit_count), w') ->
  (get_all_repositories gh fuel self w).1 = Returned repos ->
  (∀ name n,
     dict_get name repo_commit_count = Some n <->
     ∃ repo l, repo ∈ repos /\ full_name repo = name
               /\ fetched_from gh fuel self start_date end_date repo l
               /\ l <> [] /\ n = length l)
  /\ NoDup (dict_keys repo_commit_count)
  /\ sum_list (dict_values repo_commit_count) <= length commits
  /\ (∀ j1 j2 r1 r2 l,
        j1 < j2 -> repos !! j1 = Some r1 -> repos !! j2 = Some r2 ->
        full_name r1 = full_name r2 ->
        fetched_from gh fuel self start_date end_date r1 l -> l <> [] ->
        sum_list (dict_values repo_commit_count) < length commits).
Proof.
  intros Hrun Hrepos.
  apply fetch_all_commits_inv in Hrun as (repos' & lists & Hrepos' & Hall & -> & ->).
  assert (repos' = repos) as -> by congruence.
  assert (length (sort_desc String.leb committer_date (concat (zip_with tagged repos lists)))
          = length (concat (zip_with tagged repos lists))) as ->.
  { apply Permutation_length, sort_desc_perm. }
  destruct (counted_general repos lists []) as (Hk & Hp & Hsum & _ & Hsound & Hcomp);
    [constructor | constructor |].
  split; [|split; [done|]; split; [simpl in Hsum; lia|]].
  - intros name n. split.
    + intros Hn. destruct (Hsound name n Hn) as [?|(j & repo & l & Hj & Hl & ? & ? & ?)];
        [done|].
      exists repo, l. split; [by eapply list_elem_of_lookup_2|]. split; [done|].
      split; [|done]. by eapply Forall2_lookup_lr.
    + intros (repo & l & Hin & Hname & Hf & Hne & ->).
      apply list_elem_of_lookup in Hin as (j & Hj).
      destruct (Forall2_lookup_l _ _ _ _ _ Hall Hj) as (l' & Hl' & Hf').
      assert (l' = l) as -> by (by eapply fetched_from_name).
      destruct (Hcomp j repo l Hj Hl' Hne) as [n Hn]. rewrite Hname in Hn.
      rewrite Hn. f_equal.
      destruct (Hsound name n Hn) as [?|(j0 & r0 & l0 & Hj0 & Hl0 & Hname0 & _ & ->)];
        [done|].
      f_equal. eapply (fetched_from_name _ _ _ _ _ r0 repo); [congruence| |done].
      by eapply Forall2_lookup_lr.
  - intros j1 j2 r1 r2 l Hlt Hr1 Hr2 Hname Hf Hne.
    destruct (Forall2_lookup_l _ _ _ _ _ Hall Hr1) as (l1 & Hl1 & Hf1).
    destruct (Forall2_lookup_l _ _ _ _ _ Hall Hr2) as (l2 & Hl2 & Hf2).
    assert (l1 = l) as E1.
    { exact (fetched_from_name _ _ _ _ _ r1 r1 l1 l eq_refl Hf1 Hf). }
    assert (l2 = l) as E2.
    { exact (fetched_from_name _ _ _ _ _ r2 r1 l2 l (eq_sym Hname) Hf2 Hf). }
    subst l1 l2.
    pose proof (counted_duplicate repos lists [] j1 j2 r1 r2 l l) as Hdup.
    simpl in Hdup. apply Hdup; try done; constructor.
Qed.

Lemma doubled_run :
  fetch_all_commits doubled_gh 3 sample_fetcher "2024-01-01" "2024-01-31" emp
  = (Returned (doubled_commits, interleaved_counts),
     (fetch_all_commits doubled_gh 3 sample_fetcher "2024-01-01" "2024-01-31" emp).2).
Proof. vm_compute. reflexivity. Defined.

Lemma repeated_repository_is_fetched_twice_counted_once_witness :
  let repos := [repo_hello; repo_secret; repo_hello] in
  (get_all_repositories doubled_gh 3 sample_fetcher emp).1 = Returned repos
  /\ (fetch_all_commits doubled_gh 3 sample_fetcher "2024-01-01" "2024-01-31" emp).1
     = Returned (doubled_commits, interleaved_counts)
  /\ (∀ name n,
        dict_get name interleaved_counts = Some n <->
        ∃ repo l, repo ∈ repos /\ full_name repo = name
                  /\ fetched_from doubled_gh 3 sample_fetcher
                       "2024-01-01" "2024-01-31" repo l
                  /\ l <> [] /\ n = length l)
  /\ NoDup (dict_keys interleaved_counts)
  /\ sum_list (dict_values interleaved_counts) <= length doubled_commits
  /\ (∀ j1 j2 r1 r2 l,
        j1 < j2 -> repos !! j1 = Some r1 -> repos !! j2 = Some r2 ->
        full_name r1 = full_name r2 ->
        fetched_from doubled_gh 3 sample_fetcher "2024-01-01" "2024-01-31" r1 l ->
        l <> [] ->
        sum_list (dict_values interleaved_counts) < length doubled_commits).
Proof.
  intros repos.
  assert ((get_all_repositories doubled_gh 3 sample_fetcher emp).1 = Returned repos)
    as Hrepos by (vm_compute; reflexivity).
  split; [exact Hrepos|]. split; [by rewrite doubled_run|].
  exact (repeated_repository_is_fetched_twice_counted_once doubled_gh 3 sample_fetcher
           "2024-01-01" "2024-01-31" emp _ repos doubled_commits interleaved_counts
           doubled_run Hrepos).
Defined.

Lemma malformed_full_name_aborts_the_fetch_witness :
  let loop todo :=
    fetch_repos_loop interleaved_gh 3 sample_fetcher "2024-01-01" "2024-01-31"
      todo 1 3 [] [] emp in
  occurrences "/" (full_name repo_slashless) <> 1
  /\ Forall (fun r => ∃ l, fetched_from interleaved_gh 3 sample_fetcher
                             "2024-01-01" "2024-01-31" r l) [repo_hello]
  /\ get_commits_from_repo interleaved_gh 3 sample_fetcher (full_name repo_slashless)
       "2024-01-01" "2024-01-31" emp
     = (Raised ValueError, emp)
  /\ (loop ([repo_hello] ++ repo_slashless :: [repo_secret])).1 = Raised ValueError
  /\ requests (loop ([repo_hello] ++ repo_slashless :: [repo_secret])).2
     = requests (loop [repo_hello]).2.
Proof.
  intros loop.
  assert (occurrences "/" (full_name repo_slashless) <> 1) as Hbad by (vm_compute; lia).
  assert (Forall (fun r => ∃ l, fetched_from interleaved_gh 3 sample_fetcher
                                  "2024-01-01" "2024-01-31" r l) [repo_hello]) as Hpre.
  { constructor; [|constructor].
    exists [c_jan05; c_jan20]. apply fetched_from_emp. vm_compute. reflexivity. }
  split; [exact Hbad|]. split; [exact Hpre|].
  exact (malformed_full_name_aborts_the_fetch interleaved_gh sample_fetcher 3
           "2024-01-01" "2024-01-31" emp [repo_hello] [repo_secret] repo_slashless 1 3
           [] [] Hbad Hpre).
Defined.

(** ** Early ends of [main] *)

Lemma missing_not_configured GITHUB_TOKEN USERNAME :
  missing GITHUB_TOKEN \/ missing USERNAME <-> ~ configured GITHUB_TOKEN USERNAME.
Proof.
  unfold missing, configured. split.
  - intros [[-> | ->] | [-> | ->]] [? ?]; done.
  - intros Hcfg. destruct GITHUB_TOKEN as [[|? ?]|]; [by left; right| |by left; left].
    destruct USERNAME as [[|? ?]|]; [by right; right| |by right; left].
    by destruct Hcfg.
Qed.

(** X7.  When the token or the user name is not set, or set to the empty
    string, [main] prints the banner and the setup instructions and exits
    with code 1, whatever the command line and whatever the service would
    answer: no request is sent, nothing is read and no file is written. *)
Theorem missing_configuration_exits_before_any_request
    (gh : github) {datetime : Type} (strptime : string -> string -> option datetime)
    (strftime : datetime -> string -> string)
    (GITHUB_TOKEN USERNAME : option string) (argv : list string)
    (fuel : nat) (w : world) :
  missing GITHUB_TOKEN \/ missing USERNAME ->
  let m := main gh strptime strftime GITHUB_TOKEN USERNAME argv fuel w in
  m = (Exited 1, add_log w [] (banner ++ setup_chunks))
  /\ exit_status m.1 = Some 1
  /\ requests m.2 = requests w /\ stdin m.2 = stdin w /\ files m.2 = files w.
Proof.
  intros Hmiss m.
  assert (m = (Exited 1, add_log w [] (banner ++ setup_chunks))) as ->.
  { subst m. unfold main. do 4 step.
    assert (negb (truthy_str GITHUB_TOKEN) || negb (truthy_str USERNAME) = true) as ->.
    { destruct Hmiss as [[-> | ->] | [-> | ->]]; try done; by rewrite orb_true_r. }
    rewrite bind_eq. do 11 step. unfold sys_exit.
    by rewrite !add_log_add_log. }
  cbn [fst snd add_log requests stdin files exit_status].
  by rewrite app_nil_r.
Qed.

Lemma missing_configuration_exits_before_any_request_witness :
  (missing (Some "") \/ missing (Some "octocat"))
  /\ let m := main sample_gh sample_strptime sample_strftime (Some "") (Some "octocat")
                ["fetch_commits.py"; "2024-01-01"; "2024-01-31"] 3 emp in
     m = (Exited 1, add_log emp [] (banner ++ setup_chunks))
     /\ exit_status m.1 = Some 1
     /\ requests m.2 = requests emp /\ stdin m.2 = stdin emp /\ files m.2 = files emp.
Proof.
  assert (missing (Some "") \/ missing (Some "octocat")) as Hmiss by (left; by right).
  split; [exact Hmiss|].
  exact (missing_configuration_exits_before_any_request sample_gh sample_strptime
           sample_strftime (Some "") (Some "octocat")
           ["fetch_commits.py"; "2024-01-01"; "2024-01-31"] 3 emp Hmiss).
Defined.

(** X8.  A token that the identity endpoint answers with a status other than
    200 and 401 ends the run with the line [ERROR: Error: ] followed by the
    status, and exit code 1: the one request is not repeated, and neither
    the command line nor the listing is looked at. *)
Theorem refused_token_reports_the_status
    (gh : github) {datetime : Type} (strptime : string -> string -> option datetime)
    (strftime : datetime -> string -> string)
    (GITHUB_TOKEN USERNAME : option string) (argv : list string)
    (fuel : nat) (w : world) :
  configured GITHUB_TOKEN USERNAME ->
  let token := default "" GITHUB_TOKEN in
  let r := user_endpoint gh (user_request token) in
  status_code r <> 200 -> status_code r <> 401 ->
  let m := main gh strptime strftime GITHUB_TOKEN USERNAME argv fuel w in
  m = (Exited 1,
       add_log w [user_request token]
         (banner ++ [validating_chunk;
                     (nl +:+ nl +:+ "ERROR: " +:+ "Error: " +:+ str_of_nat (status_code r))
                     +:+ nl;
                     "Please check your GitHub token and try again." +:+ nl]))
  /\ exit_status m.1 = Some 1
  /\ requests m.2 = requests w ++ [user_request token].
Proof.
  intros Hcfg token r H200 H401 m. subst m.
  rewrite (main_token_refused gh strptime strftime _ _ argv fuel w Hcfg) by done.
  fold token. fold r. unfold validation_result.
  apply Nat.eqb_neq in H200, H401. rewrite H200, H401.
  done.
Qed.

Lemma refused_token_reports_the_status_witness :
  configured (Some "ghp_other") (Some "octocat")
  /\ status_code (user_endpoint sample_gh (user_request "ghp_other")) = 403
  /\ let m := main sample_gh sample_strptime sample_strftime (Some "ghp_other")
                (Some "octocat") ["fetch_commits.py"] 3 emp in
     m = (Exited 1,
          add_log emp [user_request "ghp_other"]
            (banner ++ [validating_chunk;
                        (nl +:+ nl +:+ "ERROR: " +:+ "Error: " +:+ str_of_nat 403) +:+ nl;
                        "Please check your GitHub token and try again." +:+ nl]))
     /\ exit_status m.1 = Some 1
     /\ requests m.2 = requests emp ++ [user_request "ghp_other"].
Proof.
  assert (status_code (user_endpoint sample_gh (user_request "ghp_other")) = 403) as Hst
    by (vm_compute; reflexivity).
  split; [exact (conj eq_refl eq_refl)|]. split; [exact Hst|].
  assert (status_code (user_endpoint sample_gh (user_request "ghp_other")) <> 200) as H200
    by (rewrite Hst; lia).
  assert (status_code (user_endpoint sample_gh (user_request "ghp_other")) <> 401) as H401
    by (rewrite Hst; lia).
  pose proof (refused_token_reports_the_status sample_gh sample_strptime sample_strftime
                (Some "ghp_other") (Some "octocat") ["fetch_commits.py"] 3 emp
                (conj eq_refl eq_refl) H200 H401) as H.
  cbv zeta in H. cbn [default from_option id] in H. rewrite Hst in H. exact H.
Defined.

(** ** From the checks to the fetch *)

Section Fetches.
Context (gh : github).
Context {datetime : Type} (strptime : string -> string -> option datetime).
Context (strftime : datetime -> string -> string).

(** With configuration, an accepted token and two dates that parse, [main]
    is the fetch followed by the reports. *)
Lemma main_fetches GITHUB_TOKEN USERNAME prog start_date end_date fuel w :
  configured GITHUB_TOKEN USERNAME ->
  let token := default "" GITHUB_TOKEN in
  let r := user_endpoint gh (user_request token) in
  status_code r = 200 ->
  is_Some (strptime start_date "%Y-%m-%d") ->
  is_Some (strptime end_date "%Y-%m-%d") ->
  main gh strptime strftime GITHUB_TOKEN USERNAME [prog; start_date; end_date] fuel w
  = ('(commits, cnt) ← fetch_all_commits gh fuel (new_fetcher (default "" USERNAME) token)
                         start_date end_date;
     display_commits strptime strftime commits cnt;;
     match commits with
     | _ :: _ =>
         print (nl +:+ repeat_str "=" 80);;
         print "EXPORT OPTIONS";;
         print (repeat_str "=" 80);;
         export_menu strptime strftime fuel commits cnt start_date end_date
     | [] => mret tt
     end;;
     print (nl +:+ "Done!")) (after_validation w token (json r)).
Proof.
  intros Hcfg token r Hst [ds Hs] [de He]. unfold main. do 4 step.
  rewrite (configured_check _ _ Hcfg).
  rewrite (bind_returned _ _ _ _ _ (mret_eq tt _)).
  step. rewrite (bind_returned _ _ _ _ _ (validate_token_eq _ _ _)).
  fold token. fold r. unfold validation_result. rewrite Hst. cbn [Nat.eqb negb].
  rewrite (bind_returned _ _ _ _ _ (mret_eq tt _)).
  step. rewrite Hs, He.
  rewrite (bind_returned _ _ _ _ _ (mret_eq tt _)).
  rewrite !add_log_add_log. cbn [app]. reflexivity.
Qed.

End Fetches.

(** ** A listing that gives no repository *)

(** The first page of the listing is empty, or refused with a body that
    decodes. *)
Lemma get_all_repositories_none gh self fuel w :
  let r := repos_endpoint gh (repos_request self 1) in
  no_repository r ->
  get_all_repositories gh (S fuel) self w
  = (Returned [], add_log w [repos_request self 1] (empty_listing_chunks r)).
Proof.
  intros r Hr. unfold get_all_repositories. step.
  cbn [get_all_repositories_loop]. rewrite bind_eq, bind_eq, http_get_eq. fold r.
  unfold empty_listing_chunks, listing_error_chunks.
  destruct Hr as [[Hst Hr]|[Hst [body Hr]]].
  - rewrite Hst. cbn [Nat.eqb negb]. rewrite Hr, mret_eq. step.
    by rewrite mret_eq, !add_log_add_log.
  - apply Nat.eqb_neq in Hst. rewrite Hst, Hr. cbn [negb default from_option id].
    do 2 step. rewrite mret_eq. step. by rewrite mret_eq, !add_log_add_log.
Qed.

(** The first page of the listing is refused with a body that is not
    JSON. *)
Lemma get_all_repositories_undecoded gh self fuel w :
  let r := repos_endpoint gh (repos_request self 1) in
  status_code r <> 200 -> error_json r = None ->
  get_all_repositories gh (S fuel) self w
  = (Raised JSONDecodeError, add_log w [repos_request self 1] (listing_raise_chunks r)).
Proof.
  intros r Hst Hr. unfold get_all_repositories. step.
  rewrite bind_eq, get_repositories_loop_error by done. fold r. rewrite Hr.
  by rewrite !add_log_add_log.
Qed.

Lemma fetch_all_commits_none gh self fuel start_date end_date w :
  let r := repos_endpoint gh (repos_request self 1) in
  no_repository r ->
  fetch_all_commits gh (S fuel) self start_date end_date w
  = (Returned ([], []),
     add_log w [repos_request self 1]
       (empty_listing_chunks r ++ fetching_chunks start_date end_date)).
Proof.
  intros r Hr. unfold fetch_all_commits.
  rewrite (bind_returned _ _ _ _ _ (get_all_repositories_none gh self fuel w Hr)).
  do 2 step. cbn [fetch_repos_loop]. rewrite bind_eq, mret_eq, mret_eq.
  cbn [sort_desc]. by rewrite !add_log_add_log, app_nil_r.
Qed.

(** X9.  A run whose repository listing gives nothing on its first page.
    If the page is empty, or is refused with a body that decodes as JSON,
    the run does not end with an error: [main] prints what the listing
    printed (for a refusal the status and the body, and the number 0 of
    repositories found), then the notice that no commits were found, and
    returns, so that the exit status is 0.  If the page is refused with a
    body that is not JSON, [response.json()] raises [JSONDecodeError] in the
    listing and nothing catches it: [main] ends with that exception, exit
    status 1, after the line with the status.  In both cases two requests
    were sent, the identity lookup and the first page of the listing: no
    commit request, and no second try; nothing is read and no file is
    written. *)
Theorem listing_without_repositories_ends_the_run
    (gh : github) {datetime : Type} (strptime : string -> string -> option datetime)
    (strftime : datetime -> string -> string)
    (GITHUB_TOKEN USERNAME : option string) (prog start_date end_date : string)
    (fuel : nat) (w : world) :
  configured GITHUB_TOKEN USERNAME ->
  let token := default "" GITHUB_TOKEN in
  let login := user_endpoint gh (user_request token) in
  let fetcher := new_fetcher (default "" USERNAME) token in
  let r := repos_endpoint gh (repos_request fetcher 1) in
  status_code login = 200 ->
  is_Some (strptime start_date "%Y-%m-%d") ->
  is_Some (strptime end_date "%Y-%m-%d") ->
  0 < fuel ->
  let m := main gh strptime strftime GITHUB_TOKEN USERNAME
             [prog; start_date; end_date] fuel w in
  ((status_code r = 200 /\ json r = []) \/ (status_code r <> 200 /\ is_Some (error_json r)) ->
   m = (Returned tt,
        add_log w [user_request token; repos_request fetcher 1]
          (banner ++ [validating_chunk; authenticated_chunk (json login)]
           ++ empty_listing_chunks r ++ fetching_chunks start_date end_date
           ++ no_commits_chunks ++ [done_chunk]))
   /\ exit_status m.1 = Some 0)
  /\ (status_code r <> 200 -> error_json r = None ->
      m = (Raised JSONDecodeError,
           add_log w [user_request token; repos_request fetcher 1]
             (banner ++ [validating_chunk; authenticated_chunk (json login)]
              ++ ["Fetching your repositories (including private)..." +:+ nl;
                  ("Error fetching repositories: " +:+ str_of_nat (status_code r)) +:+ nl]))
      /\ exit_status m.1 = Some 1)
  /\ (status_code r <> 200 \/ json r = [] ->
      requests m.2 = requests w ++ [user_request token; repos_request fetcher 1]
      /\ stdin m.2 = stdin w /\ files m.2 = files w).
Proof.
  intros Hcfg token login fetcher r Hst Hs He Hfuel m.
  destruct fuel as [|fuel]; [lia|].
  assert (no_repository r ->
          m = (Returned tt,
               add_log w [user_request token; repos_request fetcher 1]
                 (banner ++ [validating_chunk; authenticated_chunk (json login)]
                  ++ empty_listing_chunks r ++ fetching_chunks start_date end_date
                  ++ no_commits_chunks ++ [done_chunk]))) as Hnone.
  { intros Hr. subst m.
    rewrite (main_reports gh strptime strftime _ _ prog _ _ (S fuel) w [] []
               _ Hcfg Hst Hs He
               (fetch_all_commits_none gh fetcher fuel start_date end_date _ Hr)).
    rewrite (bind_returned _ _ _ _ _ (display_commits_empty _ _ _ _)).
    rewrite (bind_returned _ _ _ _ _ (mret_eq tt _)).
    rewrite print_eq. unfold after_validation.
    rewrite !add_log_add_log. cbn [app]. by rewrite <- !app_assoc. }
  assert (status_code r <> 200 -> error_json r = None ->
          m = (Raised JSONDecodeError,
               add_log w [user_request token; repos_request fetcher 1]
                 (banner ++ [validating_chunk; authenticated_chunk (json login)]
                  ++ listing_raise_chunks r))) as Hraise.
  { intros Hr Hbody. subst m.
    rewrite (main_fetches gh strptime strftime _ _ prog _ _ (S fuel) w Hcfg Hst Hs He).
    unfold fetch_all_commits.
    rewrite !bind_eq, (get_all_repositories_undecoded gh fetcher fuel _ Hr Hbody).
    unfold after_validation. by rewrite !add_log_add_log. }
  split; [|split].
  - intros Hr. by rewrite (Hnone Hr).
  - intros Hr Hbody. by rewrite (Hraise Hr Hbody).
  - intros Hr.
    assert (no_repository r \/ (status_code r <> 200 /\ error_json r = None)) as [Hn|[H1 H2]].
    { unfold no_repository. destruct (decide (status_code r = 200)) as [H200|H200].
      - destruct Hr as [Hr|Hr]; [done|]. by left; left.
      - destruct (error_json r) as [body|] eqn:Hbody; [left; right|right]; by eauto. }
    + rewrite (Hnone Hn). cbn [snd add_log requests stdin files]. done.
    + rewrite (Hraise H1 H2). cbn [snd add_log requests stdin files]. done.
Qed.

Lemma listing_without_repositories_ends_the_run_witness :
  let refusing (refusal : response (list repository)) : github :=
    {| user_endpoint := accepts_token;
       repos_endpoint r := refusal;
       commits_endpoint r := ok [c_jan05] |} in
  let fetcher := new_fetcher "octocat" "ghp_good" in
  let run gh := main gh sample_strptime sample_strftime (Some "ghp_good") (Some "octocat")
                  ["fetch_commits.py"; "2024-01-01"; "2024-01-31"] 1 emp in
  (run (refusing (failed 503 []))
   = (Returned tt,
      add_log emp [user_request "ghp_good"; repos_request fetcher 1]
        (banner ++ [validating_chunk; authenticated_chunk "octocat"]
         ++ empty_listing_chunks (failed 503 [] : response (list repository))
         ++ fetching_chunks "2024-01-01" "2024-01-31"
         ++ no_commits_chunks ++ [done_chunk]))
   /\ exit_status (run (refusing (failed 503 []))).1 = Some 0)
  /\ (run (refusing (failed_html 503 []))
      = (Raised JSONDecodeError,
         add_log emp [user_request "ghp_good"; repos_request fetcher 1]
           (banner ++ [validating_chunk; authenticated_chunk "octocat"]
            ++ ["Fetching your repositories (including private)..." +:+ nl;
                ("Error fetching repositories: " +:+ str_of_nat 503) +:+ nl]))
      /\ exit_status (run (refusing (failed_html 503 []))).1 = Some 1).
Proof.
  intros refusing fetcher run.
  assert (503 <> 200) as Hst by lia.
  split.
  - apply (proj1 (listing_without_repositories_ends_the_run (refusing (failed 503 []))
                    sample_strptime sample_strftime (Some "ghp_good") (Some "octocat")
                    "fetch_commits.py" "2024-01-01" "2024-01-31" 1 emp
                    (conj eq_refl eq_refl) eq_refl
                    (ex_intro _ _ eq_refl) (ex_intro _ _ eq_refl) (Nat.lt_0_succ 0))).
    right. split; [exact Hst | by eexists].
  - apply (proj1 (proj2 (listing_without_repositories_ends_the_run
                           (refusing (failed_html 503 []))
                           sample_strptime sample_strftime (Some "ghp_good") (Some "octocat")
                           "fetch_commits.py" "2024-01-01" "2024-01-31" 1 emp
                           (conj eq_refl eq_refl) eq_refl
                           (ex_intro _ _ eq_refl) (ex_intro _ _ eq_refl)
                           (Nat.lt_0_succ 0)))); [exact Hst | reflexivity].
Defined.

(** ** The export menu *)

Lemma input_eq prompt line rest w :
  stdin w = line :: rest -> input prompt w = (Returned line, prompted w [prompt] rest).
Proof. intros H. unfold input, prompted. by rewrite H. Qed.

Lemma input_eof prompt w :
  stdin w = [] -> input prompt w = (Raised EOFError, prompted w [prompt] []).
Proof. intros H. unfold input, prompted. rewrite H. cbn. by rewrite <- H. Qed.

Lemma add_log_prompted w out rest out' :
  add_log (prompted w out rest) [] out' = prompted w (out ++ out') rest.
Proof. unfold add_log, prompted. cbn. by rewrite app_nil_r, app_assoc. Qed.

Lemma prompted_add_log w out out' rest :
  prompted (add_log w [] out) out' rest = prompted w (out ++ out') rest.
Proof. unfold add_log, prompted. cbn. by rewrite app_nil_r, app_assoc. Qed.

Lemma prompted_prompted w out rest out' rest' :
  prompted (prompted w out rest) out' rest' = prompted w (out ++ out') rest'.
Proof. unfold prompted. cbn. by rewrite app_assoc. Qed.

Lemma files_written w f chunks :
  files (append_file (truncate_file w f) f chunks) = <[f := chunks]> (files w).
Proof.
  unfold append_file, truncate_file. cbn [files].
  by rewrite lookup_insert_eq, insert_insert_eq.
Qed.

Section Menu.
Context {datetime : Type} (strptime : string -> string -> option datetime).
Context (strftime : datetime -> string -> string).
Context (commits : list commit) (repo_commit_count : dict nat).
Context (start_date end_date : string).

(** One showing of the menu, up to the line read. *)
Lemma export_menu_shown fuel w line rest :
  stdin w = line :: rest ->
  export_menu strptime strftime (S fuel) commits repo_commit_count start_date end_date w
  = (let choice := strip line in
     if String.eqb choice "1" then
       export_to_csv commits (csv_filename start_date end_date)
     else if String.eqb choice "2" then
       export_to_markdown strptime strftime commits repo_commit_count start_date end_date
         (md_filename start_date end_date)
     else if String.eqb choice "3" then
       export_to_csv commits (csv_filename start_date end_date);;
       export_to_markdown strptime strftime commits repo_commit_count start_date end_date
         (md_filename start_date end_date)
     else if String.eqb choice "4" then mret tt
     else
       print "Invalid choice. Please enter 1, 2, 3, or 4.";;
       export_menu strptime strftime fuel commits repo_commit_count start_date end_date)
      (prompted w menu_chunks rest).
Proof.
  intros Hin. cbn [export_menu]. do 5 step. rewrite !add_log_add_log. cbn [app].
  match goal with
  | |- context [(input _ ≫= _) ?w0] =>
      rewrite (bind_returned _ _ _ _ _ (input_eq _ line rest w0 Hin))
  end.
  by rewrite prompted_add_log.
Qed.

Lemma export_menu_closed fuel w :
  stdin w = [] ->
  export_menu strptime strftime (S fuel) commits repo_commit_count start_date end_date w
  = (Raised EOFError, prompted w menu_chunks []).
Proof.
  intros Hin. cbn [export_menu]. do 5 step. rewrite !add_log_add_log. cbn [app].
  match goal with
  | |- context [(input _ ≫= _) ?w0] => rewrite bind_eq, (input_eof _ w0 Hin)
  end.
  by rewrite prompted_add_log.
Qed.

(** Lines that are none of the four choices are answered one by one. *)
Lemma export_menu_refuses : ∀ bad fuel w rest,
  Forall (fun line => ~ valid_choice line) bad ->
  stdin w = bad ++ rest ->
  export_menu strptime strftime (length bad + fuel) commits repo_commit_count
    start_date end_date w
  = export_menu strptime strftime fuel commits repo_commit_count start_date end_date
      (prompted w (refusals bad) rest).
Proof.
  induction bad as [|line bad IH]; intros fuel w rest Hbad Hin.
  - cbn [length Nat.add refusals map concat]. f_equal.
    unfold prompted. simpl in Hin. rewrite app_nil_r, <- Hin. by destruct w.
  - apply Forall_cons in Hbad as [Hline Hbad].
    cbn [length Nat.add]. rewrite (export_menu_shown _ w line (bad ++ rest)) by done.
    cbv zeta. unfold valid_choice in Hline.
    destruct (String.eqb_spec (strip line) "1"); [tauto|].
    destruct (String.eqb_spec (strip line) "2"); [tauto|].
    destruct (String.eqb_spec (strip line) "3"); [tauto|].
    destruct (String.eqb_spec (strip line) "4"); [tauto|].
    step. rewrite add_log_prompted.
    rewrite (IH fuel _ rest Hbad) by done.
    by rewrite prompted_prompted.
Qed.

End Menu.

(** X10.  The export menu is shown again for every line (of ASCII
    characters) that, stripped of surrounding white space, is none of [1],
    [2], [3], [4], each time after
    the line [Invalid choice. Please enter 1, 2, 3, or 4.]; the first line
    that strips to [4] ends it without an export: the menu returns, the
    lines up to that one are consumed, no file is written or changed and no
    request is sent. *)
Theorem export_menu_asks_again_until_the_choice_is_valid
    {datetime : Type} (strptime : string -> string -> option datetime)
    (strftime : datetime -> string -> string)
    (commits : list commit) (repo_commit_count : dict nat)
    (start_date end_date : string) (fuel : nat) (w : world)
    (bad : list string) (line : string) (rest : list string) :
  Forall ascii_line (bad ++ [line]) ->
  Forall (fun line => ~ valid_choice line) bad ->
  strip line = "4" ->
  stdin w = bad ++ line :: rest ->
  length bad < fuel ->
  let m := export_menu strptime strftime fuel commits repo_commit_count
             start_date end_date w in
  m = (Returned tt, prompted w (refusals bad ++ menu_chunks) rest)
  /\ length (stdout m.2) = length (stdout w) + 7 * length bad + 6
  /\ files m.2 = files w /\ requests m.2 = requests w.
Proof.
  intros _ Hbad Hline Hin Hfuel m.
  assert (m = (Returned tt, prompted w (refusals bad ++ menu_chunks) rest)) as ->.
  { subst m. replace fuel with (length bad + S (fuel - S (length bad))) by lia.
    rewrite (export_menu_refuses strptime strftime commits repo_commit_count
               start_date end_date bad _ w (line :: rest) Hbad Hin).
    rewrite (export_menu_shown strptime strftime commits repo_commit_count
               start_date end_date _ _ line rest) by done.
    cbv zeta. rewrite Hline. cbn [String.eqb Ascii.eqb Bool.eqb].
    by rewrite mret_eq, prompted_prompted. }
  split; [done|]. split; [|done]. cbn [snd prompted stdout].
  rewrite !length_app. unfold refusals.
  assert (∀ l : list string,
            length (concat (map (fun _ => menu_chunks ++ [invalid_choice_chunk]) l))
            = 7 * length l) as ->.
  { induction l as [|x l IH]; [done|]. cbn [map concat]. rewrite length_app, IH.
    cbn [length app menu_chunks]. lia. }
  cbn [length menu_chunks]. lia.
Qed.

Lemma export_menu_asks_again_until_the_choice_is_valid_witness :
  let m := export_menu sample_strptime sample_strftime 3 interleaved_commits
             interleaved_counts "2024-01-01" "2024-01-31"
             (prompted emp [] ["5"; "yes"; " 4 "; "1"]) in
  m = (Returned tt,
       prompted (prompted emp [] ["5"; "yes"; " 4 "; "1"])
         (refusals ["5"; "yes"] ++ menu_chunks) ["1"])
  /\ length (stdout m.2) = 0 + 7 * 2 + 6
  /\ files m.2 = ∅ /\ requests m.2 = [].
Proof.
  assert (Forall (fun line => ~ valid_choice line) ["5"; "yes"]) as Hbad.
  { repeat constructor; unfold valid_choice; vm_compute; intros [H|[H|[H|H]]];
      discriminate H. }
  assert (Forall ascii_line (["5"; "yes"] ++ [" 4 "])) as Hascii by (by repeat constructor).
  exact (export_menu_asks_again_until_the_choice_is_valid sample_strptime sample_strftime
           interleaved_commits interleaved_counts "2024-01-01" "2024-01-31" 3
           (prompted emp [] ["5"; "yes"; " 4 "; "1"]) ["5"; "yes"] " 4 " ["1"]
           Hascii Hbad eq_refl eq_refl (Nat.lt_succ_diag_r 2)).
Defined.

Lemma bind_assoc {A B C} (m : M A) (k1 : A -> M B) (k2 : B -> M C) w :
  ((m ≫= k1) ≫= k2) w = (m ≫= (fun a => k1 a ≫= k2)) w.
Proof. rewrite !bind_eq. by destruct (m w) as [[a|e|c|] w']. Qed.

Lemma append_inv_head (p a b : string) : p +:+ a = p +:+ b -> a = b.
Proof.
  induction p as [|c p IH]; [done|]. rewrite !append_cons. intros H.
  injection H as H. by apply IH.
Qed.

Lemma export_filenames_differ start_date end_date :
  csv_filename start_date end_date <> md_filename start_date end_date.
Proof.
  unfold csv_filename, md_filename. intros H.
  do 4 apply append_inv_head in H. discriminate H.
Qed.

Section MenuInMain.
Context (gh : github).
Context {datetime : Type} (strptime : string -> string -> option datetime).
Context (strftime : datetime -> string -> string).

(** With commits whose timestamps parse, [main] gets to the export menu. *)
Lemma main_reaches_menu GITHUB_TOKEN USERNAME prog start_date end_date fuel w
    commits cnt w2 :
  configured GITHUB_TOKEN USERNAME ->
  let token := default "" GITHUB_TOKEN in
  let r := user_endpoint gh (user_request token) in
  status_code r = 200 ->
  is_Some (strptime start_date "%Y-%m-%d") ->
  is_Some (strptime end_date "%Y-%m-%d") ->
  fetch_all_commits gh fuel (new_fetcher (default "" USERNAME) token)
    start_date end_date (after_validation w token (json r))
    = (Returned (commits, cnt), w2) ->
  commits <> [] ->
  Forall (date_parses strptime) commits ->
  all_tagged commits
  /\ stdin w2 = stdin w /\ files w2 = files w
  /\ ∃ out,
      main gh strptime strftime GITHUB_TOKEN USERNAME [prog; start_date; end_date] fuel w
      = (export_menu strptime strftime fuel commits cnt start_date end_date;;
         print (nl +:+ "Done!")) (add_log w2 [] out).
Proof.
  intros Hcfg token r Hst Hs He Hfetch Hne Hdates.
  pose proof (fetch_all_commits_tagged _ _ _ _ _ _ _ _ _ Hfetch) as (repos & _ & Htagged).
  assert (all_tagged commits) as Htag.
  { eapply Forall_impl; [exact Htagged|]. intros c (repo & _ & ->). by eexists. }
  split; [done|].
  pose proof (log_only_frame _ (after_validation w token (json r))
                (log_only_fetch_all_commits gh
                   (new_fetcher (default "" USERNAME) token) fuel start_date end_date))
    as [Hin Hfiles].
  rewrite Hfetch in Hin, Hfiles. split; [done|]. split; [done|].
  rewrite (main_reports gh strptime strftime _ _ prog _ _ fuel w commits cnt w2) by done.
  destruct (display_commits_returns strptime strftime commits cnt w2 Htag Hdates)
    as (out & Hdisplay).
  rewrite (bind_returned _ _ _ _ _ Hdisplay).
  destruct commits as [|c commits]; [done|].
  rewrite bind_assoc. step. rewrite bind_assoc. step. rewrite bind_assoc. step.
  rewrite !add_log_add_log. cbn [app]. eauto.
Qed.

End MenuInMain.

(** X11.  When the input (lines of ASCII characters, none of them a valid
    choice) ends before a valid choice has been made, the
    [input] of the export menu raises [EOFError], which nothing catches:
    the menu, and with it [main], ends with that exception after the prompt,
    so that the exit status is 1 and the closing line [Done!] is not
    printed; no file has been written. *)
Theorem export_menu_end_of_input_is_an_error
    (gh : github) {datetime : Type} (strptime : string -> string -> option datetime)
    (strftime : datetime -> string -> string)
    (GITHUB_TOKEN USERNAME : option string) (prog start_date end_date : string)
    (fuel : nat) (w w2 : world) (commits : list commit) (repo_commit_count : dict nat)
    (bad : list string) :
  configured GITHUB_TOKEN USERNAME ->
  let token := default "" GITHUB_TOKEN in
  let r := user_endpoint gh (user_request token) in
  let fetcher := new_fetcher (default "" USERNAME) token in
  status_code r = 200 ->
  is_Some (strptime start_date "%Y-%m-%d") ->
  is_Some (strptime end_date "%Y-%m-%d") ->
  fetch_all_commits gh fuel fetcher start_date end_date (after_validation w token (json r))
    = (Returned (commits, repo_commit_count), w2) ->
  commits <> [] ->
  Forall (date_parses strptime) commits ->
  Forall ascii_line bad ->
  Forall (fun line => ~ valid_choice line) bad ->
  stdin w = bad ->
  length bad < fuel ->
  let m := main gh strptime strftime GITHUB_TOKEN USERNAME
             [prog; start_date; end_date] fuel w in
  (∀ w0, stdin w0 = bad ->
     export_menu strptime strftime fuel commits repo_commit_count start_date end_date w0
     = (Raised EOFError, prompted w0 (refusals bad ++ menu_chunks) []))
  /\ m.1 = Raised EOFError
  /\ exit_status m.1 = Some 1
  /\ (∃ out, stdout m.2 = out ++ refusals bad ++ menu_chunks)
  /\ stdin m.2 = []
  /\ files m.2 = files w.
Proof.
  intros Hcfg token r fetcher Hst Hs He Hfetch Hne Hdates _ Hbad Hin Hfuel m.
  assert (∀ w0, stdin w0 = bad ->
            export_menu strptime strftime fuel commits repo_commit_count
              start_date end_date w0
            = (Raised EOFError, prompted w0 (refusals bad ++ menu_chunks) [])) as Hmenu.
  { intros w0 Hin0. replace fuel with (length bad + S (fuel - S (length bad))) by lia.
    rewrite (export_menu_refuses strptime strftime commits repo_commit_count
               start_date end_date bad _ w0 [] Hbad) by (by rewrite app_nil_r).
    rewrite export_menu_closed by done. by rewrite prompted_prompted. }
  split; [exact Hmenu|].
  destruct (main_reaches_menu gh strptime strftime _ _ prog _ _ fuel w commits
              repo_commit_count w2 Hcfg Hst Hs He Hfetch Hne Hdates)
    as (_ & Hin2 & Hfiles2 & out & Hmain).
  subst m. rewrite Hmain, bind_eq, Hmenu by (cbn; congruence).
  cbn [fst snd exit_status prompted add_log stdout stdin files].
  split; [done|]. split; [done|]. split; [|done].
  exists (stdout w2 ++ out). by rewrite <- !app_assoc.
Qed.

Lemma interleaved_dates_parse : Forall (date_parses sample_strptime) interleaved_commits.
Proof. repeat (constructor; [eexists; vm_compute; reflexivity|]). constructor. Defined.

Lemma interleaved_tagged : all_tagged interleaved_commits.
Proof. repeat (constructor; [by eexists|]). constructor. Defined.

Lemma interleaved_run_with_input lines :
  fetch_all_commits interleaved_gh 3 (new_fetcher "octocat" "ghp_good")
    "2024-01-01" "2024-01-31" (after_validation (prompted emp [] lines) "ghp_good" "octocat")
  = (Returned (interleaved_commits, interleaved_counts),
     (fetch_all_commits interleaved_gh 3 (new_fetcher "octocat" "ghp_good")
        "2024-01-01" "2024-01-31"
        (after_validation (prompted emp [] lines) "ghp_good" "octocat")).2).
Proof.
  pose proof (log_only_result _ (after_validation (prompted emp [] lines) "ghp_good" "octocat")
                emp (log_only_fetch_all_commits interleaved_gh sample_fetcher 3
                       "2024-01-01" "2024-01-31")) as Hres.
  rewrite interleaved_run in Hres. cbn [fst] in Hres.
  change (new_fetcher "octocat" "ghp_good") with sample_fetcher.
  destruct (fetch_all_commits interleaved_gh 3 sample_fetcher _ _ _) as [o w']. 
  cbn in Hres. by subst o.
Defined.

Lemma export_menu_end_of_input_is_an_error_witness :
  let w := prompted emp [] ["y"] in
  let m := main interleaved_gh sample_strptime sample_strftime (Some "ghp_good")
             (Some "octocat") ["fetch_commits.py"; "2024-01-01"; "2024-01-31"] 3 w in
  Forall (fun line => ~ valid_choice line) ["y"]
  /\ m.1 = Raised EOFError
  /\ exit_status m.1 = Some 1
  /\ (∃ out, stdout m.2 = out ++ refusals ["y"] ++ menu_chunks)
  /\ stdin m.2 = []
  /\ files m.2 = files w.
Proof.
  intros w m.
  assert (Forall (fun line => ~ valid_choice line) ["y"]) as Hbad.
  { repeat constructor; unfold valid_choice; vm_compute; intros [H|[H|[H|H]]];
      discriminate H. }
  assert (interleaved_commits <> []) as Hne by discriminate.
  assert (length ["y"] < 3) as Hfuel by (cbn; lia).
  assert (Forall ascii_line ["y"]) as Hascii by (by repeat constructor).
  split; [exact Hbad|].
  exact (proj2 (export_menu_end_of_input_is_an_error interleaved_gh sample_strptime
                  sample_strftime (Some "ghp_good") (Some "octocat") "fetch_commits.py"
                  "2024-01-01" "2024-01-31" 3 w _ interleaved_commits interleaved_counts
                  ["y"] (conj eq_refl eq_refl) eq_refl
                  (ex_intro _ _ eq_refl) (ex_intro _ _ eq_refl)
                  (interleaved_run_with_input ["y"]) Hne interleaved_dates_parse
                  Hascii Hbad eq_refl Hfuel)).
Defined.

(** ** What the choices write *)

Section Choices.
Context {datetime : Type} (strptime : string -> string -> option datetime).
Context (strftime : datetime -> string -> string).
Context (commits : list commit) (repo_commit_count : dict nat).
Context (start_date end_date : string).

Local Abbreviation csv := (csv_filename start_date end_date).
Local Abbreviation md := (md_filename start_date end_date).

Lemma export_both_eq w :
  all_tagged commits -> Forall (date_parses strptime) commits ->
  (export_to_csv commits csv;;
   export_to_markdown strptime strftime commits repo_commit_count start_date end_date md) w
  = (Returned tt,
     add_log
       (append_file
          (truncate_file
             (append_file (truncate_file w csv) csv (csv_file_chunks commits)) md) md
          (markdown_file_chunks strptime strftime commits repo_commit_count
             start_date end_date))
       [] [exported_chunk csv; exported_chunk md]).
Proof.
  intros Htag Hdates.
  rewrite (bind_returned _ _ _ _ _ (export_to_csv_eq commits csv w Htag)).
  rewrite (export_to_markdown_eq strptime strftime commits repo_commit_count
             start_date end_date md _ Htag Hdates).
  unfold add_log, append_file, truncate_file, csv_file_chunks, markdown_file_chunks.
  cbn [requests stdout stdin files]. by rewrite !app_nil_r, <- app_assoc.
Qed.

End Choices.

(** X12.  What the three export choices leave behind, for commits that carry
    their repository reference and a line of ASCII characters read from the
    input.  Choice [1] writes the file
    [commits_{start}_to_{end}.csv], choice [2] the file
    [commits_{start}_to_{end}.md] (if the timestamps parse), choice [3] the
    CSV file and then the Markdown file; the two names differ, so neither
    report overwrites the other.  A file of that name is replaced, whatever
    it held; every other file is left as it was; each file written is
    announced by one line; one line of input is consumed and no request is
    sent.  The CSV export does not parse the timestamps: it succeeds whether
    they parse or not. *)
Theorem export_choice_writes_its_files_only
    {datetime : Type} (strptime : string -> string -> option datetime)
    (strftime : datetime -> string -> string)
    (commits : list commit) (repo_commit_count : dict nat)
    (start_date end_date : string) (fuel : nat) (w : world)
    (line : string) (rest : list string) :
  all_tagged commits ->
  ascii_line line ->
  stdin w = line :: rest ->
  0 < fuel ->
  let m := export_menu strptime strftime fuel commits repo_commit_count
             start_date end_date w in
  let csv := csv_filename start_date end_date in
  let md := md_filename start_date end_date in
  let csv_chunks := csv_file_chunks commits in
  let md_chunks := markdown_file_chunks strptime strftime commits repo_commit_count
                     start_date end_date in
  csv <> md
  /\ (strip line = "1" ->
      m.1 = Returned tt
      /\ files m.2 = <[csv := csv_chunks]> (files w)
      /\ stdout m.2 = stdout w ++ menu_chunks ++ [exported_chunk csv]
      /\ stdin m.2 = rest /\ requests m.2 = requests w)
  /\ (strip line = "2" -> Forall (date_parses strptime) commits ->
      m.1 = Returned tt
      /\ files m.2 = <[md := md_chunks]> (files w)
      /\ stdout m.2 = stdout w ++ menu_chunks ++ [exported_chunk md]
      /\ stdin m.2 = rest /\ requests m.2 = requests w)
  /\ (strip line = "3" -> Forall (date_parses strptime) commits ->
      m.1 = Returned tt
      /\ files m.2 = <[md := md_chunks]> (<[csv := csv_chunks]> (files w))
      /\ files m.2 !! csv = Some csv_chunks
      /\ stdout m.2 = stdout w ++ menu_chunks ++ [exported_chunk csv; exported_chunk md]
      /\ stdin m.2 = rest /\ requests m.2 = requests w).
Proof.
  intros Htag _ Hin Hfuel m csv md csv_chunks md_chunks.
  destruct fuel as [|fuel]; [lia|].
  pose proof (export_filenames_differ start_date end_date) as Hdiff.
  split; [exact Hdiff|].
  assert (m = (let choice := strip line in
               if String.eqb choice "1" then export_to_csv commits csv
               else if String.eqb choice "2" then
                 export_to_markdown strptime strftime commits repo_commit_count
                   start_date end_date md
               else if String.eqb choice "3" then
                 export_to_csv commits csv;;
                 export_to_markdown strptime strftime commits repo_commit_count
                   start_date end_date md
               else if String.eqb choice "4" then mret tt
               else
                 print "Invalid choice. Please enter 1, 2, 3, or 4.";;
                 export_menu strptime strftime fuel commits repo_commit_count
                   start_date end_date)
                (prompted w menu_chunks rest)) as Hm.
  { subst m. by apply export_menu_shown. }
  cbv zeta in Hm.
  split; [|split].
  - intros Hline. rewrite Hline in Hm. cbn [String.eqb Ascii.eqb Bool.eqb] in Hm.
    rewrite export_to_csv_eq in Hm by done. rewrite Hm.
    unfold add_log. cbn [fst snd files stdout requests stdin]. rewrite files_written.
    split; [done|]. split; [done|].
    split; [|split; [done|]]; cbn [append_file truncate_file prompted stdout requests];
      [by rewrite <- app_assoc | by rewrite app_nil_r].
  - intros Hline Hdates. rewrite Hline in Hm. cbn [String.eqb Ascii.eqb Bool.eqb] in Hm.
    rewrite (export_to_markdown_eq strptime strftime commits repo_commit_count
               start_date end_date md _ Htag Hdates) in Hm. rewrite Hm.
    unfold add_log. cbn [fst snd files stdout requests stdin]. rewrite files_written.
    split; [done|]. split; [done|].
    split; [|split; [done|]]; cbn [append_file truncate_file prompted stdout requests];
      [by rewrite <- app_assoc | by rewrite app_nil_r].
  - intros Hline Hdates. rewrite Hline in Hm. cbn [String.eqb Ascii.eqb Bool.eqb] in Hm.
    rewrite (export_both_eq strptime strftime commits repo_commit_count
               start_date end_date _ Htag Hdates) in Hm. rewrite Hm.
    unfold add_log. cbn [fst snd files stdout requests stdin]. rewrite !files_written.
    split; [done|]. split; [done|]. split; [|split; [|split; [done|]]].
    + rewrite lookup_insert_ne by (intros H; by apply Hdiff).
      by rewrite lookup_insert_eq.
    + cbn [append_file truncate_file prompted stdout]. by rewrite <- app_assoc.
    + cbn [append_file truncate_file prompted requests]. by rewrite app_nil_r.
Qed.

Lemma export_choice_writes_its_files_only_witness :
  let w := prompted emp [] [" 3"; "1"] in
  let m := export_menu sample_strptime sample_strftime 1 interleaved_commits
             interleaved_counts "2024-01-01" "2024-01-31" w in
  m.1 = Returned tt
  /\ files m.2
     = <["commits_2024-01-01_to_2024-01-31.md" :=
           markdown_file_chunks sample_strptime sample_strftime interleaved_commits
             interleaved_counts "2024-01-01" "2024-01-31"]>
         (<["commits_2024-01-01_to_2024-01-31.csv" := csv_file_chunks interleaved_commits]> ∅)
  /\ stdin m.2 = ["1"].
Proof.
  intros w m.
  pose proof (export_choice_writes_its_files_only sample_strptime sample_strftime
                interleaved_commits interleaved_counts "2024-01-01" "2024-01-31" 1 w
                " 3" ["1"] interleaved_tagged eq_refl eq_refl (Nat.lt_0_succ 0))
    as (_ & _ & _ & Hboth).
  destruct (Hboth eq_refl interleaved_dates_parse) as (Hret & Hfiles & _ & _ & Hin & _).
  split; [exact Hret|]. split; [exact Hfiles | exact Hin].
Defined.

(** ** A whole run with an export *)

Section WholeRun.
Context {datetime : Type} (strptime : string -> string -> option datetime).
Context (strftime : datetime -> string -> string).
Context (commits : list commit) (repo_commit_count : dict nat).
Context (start_date end_date : string).

(** The menu from the first showing to the export of a valid choice. *)
Lemma export_menu_choice fuel w bad line rest :
  all_tagged commits -> Forall (date_parses strptime) commits ->
  Forall (fun line => ~ valid_choice line) bad ->
  valid_choice line ->
  stdin w = bad ++ line :: rest ->
  length bad < fuel ->
  export_menu strptime strftime fuel commits repo_commit_count start_date end_date w
  = (Returned tt,
     {| requests := requests w;
        stdout := stdout w ++ refusals bad ++ menu_chunks
                  ++ announcements start_date end_date (strip line);
        stdin := rest;
        files := written_files strptime strftime commits repo_commit_count
                   start_date end_date (strip line) (files w) |}).
Proof.
  intros Htag Hdates Hbad Hline Hin Hfuel.
  replace fuel with (length bad + S (fuel - S (length bad))) by lia.
  rewrite (export_menu_refuses strptime strftime commits repo_commit_count
             start_date end_date bad _ w (line :: rest) Hbad Hin).
  rewrite (export_menu_shown strptime strftime commits repo_commit_count
             start_date end_date _ _ line rest) by done.
  rewrite prompted_prompted. cbv zeta. unfold written_files, announcements.
  destruct Hline as [Hline|[Hline|[Hline|Hline]]]; rewrite Hline;
    cbn [String.eqb Ascii.eqb Bool.eqb].
  - rewrite export_to_csv_eq by done. unfold add_log. rewrite files_written.
    cbn [append_file truncate_file prompted stdout requests stdin files].
    by rewrite app_nil_r, <- !app_assoc.
  - rewrite (export_to_markdown_eq strptime strftime commits repo_commit_count
               start_date end_date _ _ Htag Hdates).
    unfold add_log. rewrite files_written.
    cbn [append_file truncate_file prompted stdout requests stdin files].
    by rewrite app_nil_r, <- !app_assoc.
  - rewrite (export_both_eq strptime strftime commits repo_commit_count
               start_date end_date _ Htag Hdates).
    unfold add_log. rewrite !files_written.
    cbn [append_file truncate_file prompted stdout requests stdin files].
    by rewrite app_nil_r, <- !app_assoc.
  - rewrite mret_eq. unfold prompted. by rewrite app_nil_r.
Qed.

End WholeRun.

(** X13.  A whole run that ends well.  With configuration, an accepted
    token, two dates that parse, a fetch that returns at least one commit,
    timestamps that all parse and input lines of ASCII characters, [main]
    shows the report and the menu, answers
    every line that is no choice with the menu again, carries out the first
    valid choice and returns after the closing line [Done!], so that the exit
    status is 0.  The files are those of the choice (none for [4]) and no
    other file has changed; the input is consumed up to the choice; no
    request is sent after the fetch. *)
Theorem run_with_commits_exports_and_ends_with_status_0
    (gh : github) {datetime : Type} (strptime : string -> string -> option datetime)
    (strftime : datetime -> string -> string)
    (GITHUB_TOKEN USERNAME : option string) (prog start_date end_date : string)
    (fuel : nat) (w w2 : world) (commits : list commit) (repo_commit_count : dict nat)
    (bad : list string) (line : string) (rest : list string) :
  configured GITHUB_TOKEN USERNAME ->
  let token := default "" GITHUB_TOKEN in
  let r := user_endpoint gh (user_request token) in
  let fetcher := new_fetcher (default "" USERNAME) token in
  status_code r = 200 ->
  is_Some (strptime start_date "%Y-%m-%d") ->
  is_Some (strptime end_date "%Y-%m-%d") ->
  fetch_all_commits gh fuel fetcher start_date end_date (after_validation w token (json r))
    = (Returned (commits, repo_commit_count), w2) ->
  commits <> [] ->
  Forall (date_parses strptime) commits ->
  Forall ascii_line (bad ++ [line]) ->
  Forall (fun line => ~ valid_choice line) bad ->
  valid_choice line ->
  stdin w = bad ++ line :: rest ->
  length bad < fuel ->
  let m := main gh strptime strftime GITHUB_TOKEN USERNAME
             [prog; start_date; end_date] fuel w in
  m.1 = Returned tt
  /\ exit_status m.1 = Some 0
  /\ files m.2 = written_files strptime strftime commits repo_commit_count
                   start_date end_date (strip line) (files w)
  /\ stdin m.2 = rest
  /\ requests m.2 = requests w2
  /\ ∃ out, stdout m.2 = stdout w2 ++ out ++ refusals bad ++ menu_chunks
                         ++ announcements start_date end_date (strip line)
                         ++ [done_chunk].
Proof.
  intros Hcfg token r fetcher Hst Hs He Hfetch Hne Hdates _ Hbad Hline Hin Hfuel m.
  destruct (main_reaches_menu gh strptime strftime _ _ prog _ _ fuel w commits
              repo_commit_count w2 Hcfg Hst Hs He Hfetch Hne Hdates)
    as (Htag & Hin2 & Hfiles2 & out & Hmain).
  subst m. rewrite Hmain.
  rewrite (bind_returned _ _ _ _ _
             (export_menu_choice strptime strftime commits repo_commit_count
                start_date end_date fuel (add_log w2 [] out) bad line rest
                Htag Hdates Hbad Hline (eq_trans Hin2 Hin) Hfuel)).
  rewrite print_eq. unfold add_log.
  cbn [fst snd exit_status requests stdout stdin files].
  rewrite Hfiles2, !app_nil_r.
  split; [done|]. split; [done|]. split; [done|]. split; [done|]. split; [done|].
  exists out. by rewrite <- !app_assoc.
Qed.

Lemma run_with_commits_exports_and_ends_with_status_0_witness :
  let w := prompted emp [] ["both"; "3"] in
  let m := main interleaved_gh sample_strptime sample_strftime (Some "ghp_good")
             (Some "octocat") ["fetch_commits.py"; "2024-01-01"; "2024-01-31"] 3 w in
  m.1 = Returned tt
  /\ exit_status m.1 = Some 0
  /\ files m.2 = written_files sample_strptime sample_strftime interleaved_commits
                   interleaved_counts "2024-01-01" "2024-01-31" (strip "3") (files w)
  /\ stdin m.2 = [].
Proof.
  intros w m.
  assert (Forall (fun line => ~ valid_choice line) ["both"]) as Hbad.
  { repeat constructor; unfold valid_choice; vm_compute; intros [H|[H|[H|H]]];
      discriminate H. }
  assert (valid_choice "3") as Hline by (right; right; left; reflexivity).
  assert (interleaved_commits <> []) as Hne by discriminate.
  assert (length ["both"] < 3) as Hfuel by (cbn; lia).
  assert (Forall ascii_line (["both"] ++ ["3"])) as Hascii by (by repeat constructor).
  destruct (run_with_commits_exports_and_ends_with_status_0 interleaved_gh sample_strptime
              sample_strftime (Some "ghp_good") (Some "octocat") "fetch_commits.py"
              "2024-01-01" "2024-01-31" 3 w _ interleaved_commits interleaved_counts
              ["both"] "3" [] (conj eq_refl eq_refl) eq_refl
              (ex_intro _ _ eq_refl) (ex_intro _ _ eq_refl)
              (interleaved_run_with_input ["both"; "3"]) Hne interleaved_dates_parse
              Hascii Hbad Hline eq_refl Hfuel) as (Hret & Hexit & Hfiles & Hin & _).
  split; [exact Hret|]. split; [exact Hexit|]. split; [exact Hfiles | exact Hin].
Defined.

(** ** The console report *)

Section Console.
Context {datetime : Type} (strptime : string -> string -> option datetime).
Context (strftime : datetime -> string -> string).

(** Whatever the commits, the detailed list only prints. *)
Lemma display_commit_list_prints : ∀ commits i w,
  ∃ o out, display_commit_list strptime strftime i commits w = (o, add_log w [] out).
Proof.
  induction commits as [|c commits IH]; intros i w.
  - exists (Returned tt), []. cbn. by rewrite add_log_nil.
  - cbn [display_commit_list]. unfold display_commit at 1.
    destruct (commit_repository c) as [r|].
    + destruct (strptime (committer_date c) _) as [d|].
      * rewrite bind_eq. do 5 step. rewrite print_eq. cbv beta iota.
        match goal with
        | |- context [display_commit_list _ _ _ _ ?w0] =>
            destruct (IH (S i) w0) as (o & out & ->)
        end.
        rewrite !add_log_add_log. eauto.
      * exists (Raised ValueError), []. by rewrite bind_eq, add_log_nil.
    + exists (Raised KeyError), []. by rewrite bind_eq, add_log_nil.
Qed.

Lemma display_commit_list_eq : ∀ commits i w,
  all_tagged commits -> Forall (date_parses strptime) commits ->
  display_commit_list strptime strftime i commits w
  = (Returned tt, add_log w [] (detail_chunks strptime strftime i commits)).
Proof.
  induction commits as [|c commits IH]; intros i w Htag Hdates.
  - cbn. by rewrite add_log_nil.
  - apply Forall_cons in Htag as [[r Hr] Htag].
    apply Forall_cons in Hdates as [[d Hd] Hdates].
    cbn [display_commit_list detail_chunks]. unfold display_commit at 1. rewrite Hr, Hd.
    rewrite bind_eq. do 5 step. rewrite print_eq. cbv beta iota.
    rewrite IH by done. by rewrite !add_log_add_log.
Qed.

(** The summary is printed before the first commit of the detailed list is
    looked at. *)
Lemma display_commits_summary c commits cnt w :
  display_commits strptime strftime (c :: commits) cnt w
  = display_commit_list strptime strftime 1 (c :: commits)
      (add_log w [] (summary_chunks (c :: commits) cnt)).
Proof.
  unfold display_commits. do 7 step.
  assert (∀ (l : list (string * nat)) w0,
            for_each l (fun '(repo, count) =>
                          print ("  " +:+ repo +:+ ": " +:+ str_of_nat count +:+ " commits")) w0
            = (Returned tt, add_log w0 [] (map summary_line l))) as Hsummary.
  { apply (for_each_print _ (fun p : string * nat =>
                               "  " +:+ p.1 +:+ ": " +:+ str_of_nat p.2 +:+ " commits")).
    by intros []. }
  rewrite (bind_returned _ _ _ _ _ (Hsummary _ _)).
  do 3 step. rewrite !add_log_add_log. cbn [app]. unfold summary_chunks. cbn [app].
  reflexivity.
Qed.

Lemma length_detail_chunks : ∀ commits i,
  all_tagged commits -> Forall (date_parses strptime) commits ->
  length (detail_chunks strptime strftime i commits) = 6 * length commits.
Proof.
  induction commits as [|c commits IH]; intros i Htag Hdates; [done|].
  apply Forall_cons in Htag as [[r Hr] Htag].
  apply Forall_cons in Hdates as [[d Hd] Hdates].
  cbn [detail_chunks]. rewrite Hr, Hd, length_app, IH by done. cbn [length detail_entry]. lia.
Qed.

Lemma detail_chunks_lookup : ∀ commits i k c,
  all_tagged commits -> Forall (date_parses strptime) commits ->
  commits !! k = Some c ->
  ∃ r d, commit_repository c = Some r
    /\ strptime (committer_date c) "%Y-%m-%dT%H:%M:%SZ" = Some d
    /\ take 6 (drop (6 * k) (detail_chunks strptime strftime i commits))
       = detail_entry (i + k) c r (strftime d "%Y-%m-%d %H:%M").
Proof.
  induction commits as [|c0 commits IH]; intros i k c Htag Hdates Hk; [done|].
  apply Forall_cons in Htag as [[r Hr] Htag].
  apply Forall_cons in Hdates as [[d Hd] Hdates].
  cbn [detail_chunks]. rewrite Hr, Hd.
  destruct k as [|k]; simpl in Hk.
  - injection Hk as <-. exists r, d. split; [done|]. split; [done|].
    by rewrite Nat.add_0_r.
  - destruct (IH (S i) k c Htag Hdates Hk) as (r' & d' & Hr' & Hd' & Hentry).
    exists r', d'. split; [done|]. split; [done|].
    replace (6 * S k) with (6 + 6 * k) by lia.
    replace (i + S k) with (S i + k) by lia.
    by rewrite <- Hentry.
Qed.

End Console.

Lemma nat_leb_total (x y : nat) : Nat.leb x y = true \/ Nat.leb y x = true.
Proof. destruct (Nat.leb_spec x y); [by left|]. right. apply Nat.leb_le. lia. Qed.

Lemma nat_eqb_leb (x y k : nat) :
  Nat.eqb x k = true -> Nat.eqb y k = true -> Nat.leb x y = true.
Proof. intros ->%Nat.eqb_eq ->%Nat.eqb_eq. apply Nat.leb_refl. Qed.

(** X14.  Both summaries, on the console and in the Markdown report, go
    through the count mapping in the same order: every entry once, by
    non-increasing count, entries of equal count in the order in which they
    came into the mapping.  On the console the summary lines stand between
    the seven chunks of the head and the head of the detailed list, and they
    are printed even when the detailed list then fails; in the Markdown file
    the bullets follow the five chunks of the head. *)
Theorem summaries_list_repositories_by_descending_count
    {datetime : Type} (strptime : string -> string -> option datetime)
    (strftime : datetime -> string -> string)
    (commits : list commit) (repo_commit_count : dict nat)
    (start_date end_date filename : string) (w : world) :
  let rows := by_count_desc repo_commit_count in
  Permutation rows repo_commit_count
  /\ (∀ i a b, rows !! i = Some a -> rows !! S i = Some b -> b.2 <= a.2)
  /\ (∀ n, List.filter (fun p => Nat.eqb p.2 n) rows
           = List.filter (fun p => Nat.eqb p.2 n) repo_commit_count)
  /\ (commits <> [] ->
      ∃ detail,
        stdout (display_commits strptime strftime commits repo_commit_count w).2
        = stdout w ++ take 7 (summary_chunks commits repo_commit_count)
          ++ map summary_line rows ++ detail)
  /\ (all_tagged commits -> Forall (date_parses strptime) commits ->
      ∃ head rest,
        files (export_to_markdown strptime strftime commits repo_commit_count
                 start_date end_date filename w).2 !! filename
        = Some (head ++ map summary_bullet rows ++ rest)
        /\ length head = 5).
Proof.
  intros rows. split; [apply sort_desc_perm|]. split; [|split; [|split]].
  - intros i a b Ha Hb.
    pose proof (sorted_adjacent _ _ (sort_desc_sorted Nat.leb snd nat_leb_total
                                       repo_commit_count) i a b Ha Hb) as Hle.
    by apply Nat.leb_le in Hle.
  - intros n. apply (filter_sort_desc Nat.leb Nat.eqb snd nat_eqb_leb).
  - intros Hne. destruct commits as [|c commits]; [done|].
    rewrite display_commits_summary.
    match goal with
    | |- context [display_commit_list _ _ _ _ ?w0] =>
        destruct (display_commit_list_prints strptime strftime (c :: commits) 1 w0)
          as (o & out & ->)
    end.
    rewrite add_log_add_log. cbn [snd add_log stdout].
    exists ([(nl +:+ repeat_str "=" 80) +:+ nl;
             "DETAILED COMMIT LIST" +:+ nl;
             (repeat_str "=" 80 +:+ nl) +:+ nl] ++ out).
    unfold summary_chunks. cbn [app take]. do 8 f_equal.
    rewrite take_0. cbn [app]. rewrite <- app_assoc. reflexivity.
  - intros Htag Hdates.
    rewrite (export_to_markdown_eq strptime strftime commits repo_commit_count
               start_date end_date filename w Htag Hdates).
    cbn [snd add_log files]. rewrite append_truncate_lookup.
    exists (take 5 (markdown_head commits repo_commit_count start_date end_date)),
      ([nl +:+ "---" +:+ nl +:+ nl +:+ "## Detailed Commits" +:+ nl +:+ nl]
       ++ markdown_body strptime strftime None commits).
    split; [|done]. f_equal. unfold markdown_head. cbn [app take]. do 5 f_equal.
    rewrite take_0. cbn [app].
    assert (map (fun '(repo, count) =>
                   "- **" +:+ repo +:+ "**: " +:+ str_of_nat count +:+ " commits" +:+ nl)
              (by_count_desc repo_commit_count)
            = map summary_bullet rows) as ->.
    { apply map_ext. by intros []. }
    rewrite <- app_assoc. reflexivity.
Qed.

Lemma summaries_list_repositories_by_descending_count_witness :
  let counts : dict nat := [("a/x", 1); ("b/y", 3); ("c/z", 1)] in
  let rows := by_count_desc counts in
  rows = [("b/y", 3); ("a/x", 1); ("c/z", 1)]
  /\ Permutation rows counts
  /\ (∀ i a b, rows !! i = Some a -> rows !! S i = Some b -> b.2 <= a.2)
  /\ (∀ n, List.filter (fun p => Nat.eqb p.2 n) rows
           = List.filter (fun p => Nat.eqb p.2 n) counts)
  /\ (∃ detail,
        stdout (display_commits sample_strptime sample_strftime interleaved_commits
                  counts emp).2
        = stdout emp ++ take 7 (summary_chunks interleaved_commits counts)
          ++ map summary_line rows ++ detail)
  /\ (∃ head rest,
        files (export_to_markdown sample_strptime sample_strftime interleaved_commits
                 counts "2024-01-01" "2024-01-31" "report.md" emp).2 !! "report.md"
        = Some (head ++ map summary_bullet rows ++ rest)
        /\ length head = 5).
Proof.
  intros counts rows.
  assert (interleaved_commits <> []) as Hne by discriminate.
  destruct (summaries_list_repositories_by_descending_count sample_strptime sample_strftime
              interleaved_commits counts "2024-01-01" "2024-01-31" "report.md" emp)
    as (Hperm & Hsorted & Hstable & Hconsole & Hmarkdown).
  split; [reflexivity|]. split; [exact Hperm|]. split; [exact Hsorted|].
  split; [exact Hstable|]. split; [exact (Hconsole Hne)|].
  exact (Hmarkdown interleaved_tagged interleaved_dates_parse).
Defined.

(** X15.  The detailed list of the console report, for commits that carry
    their repository reference and whose timestamps parse: [display_commits]
    returns, having printed the summary and then six chunks (one for each
    call of [print]) for every commit, in the order of the list; the commit
    at (0-based) position [k] is numbered [k + 1] and its chunks are the
    label and name of its repository, the first seven characters of the
    hash, the timestamp in the form [%Y-%m-%d %H:%M], the message up to its
    first line feed, the URL, and an empty line.  Nothing else happens: no
    request, no input, no file. *)
Theorem console_report_numbers_six_lines_per_commit
    {datetime : Type} (strptime : string -> string -> option datetime)
    (strftime : datetime -> string -> string)
    (commits : list commit) (repo_commit_count : dict nat) (w : world) :
  commits <> [] ->
  all_tagged commits ->
  Forall (date_parses strptime) commits ->
  let detail := detail_chunks strptime strftime 1 commits in
  display_commits strptime strftime commits repo_commit_count w
  = (Returned tt, add_log w [] (summary_chunks commits repo_commit_count ++ detail))
  /\ length (summary_chunks commits repo_commit_count) = 10 + length repo_commit_count
  /\ length detail = 6 * length commits
  /\ ∀ k c, commits !! k = Some c ->
       ∃ r d, commit_repository c = Some r
         /\ strptime (committer_date c) "%Y-%m-%dT%H:%M:%SZ" = Some d
         /\ take 6 (drop (6 * k) detail)
            = [(str_of_nat (1 + k) +:+ ". " +:+ (if ref_private r then "[PRIVATE]" else "[PUBLIC]")
                +:+ " [" +:+ ref_full_name r +:+ "]") +:+ nl;
               ("   SHA: " +:+ slice_to 7 (sha c)) +:+ nl;
               ("   Date: " +:+ strftime d "%Y-%m-%d %H:%M") +:+ nl;
               ("   Message: " +:+ first_piece LF (message c)) +:+ nl;
               ("   URL: " +:+ html_url c) +:+ nl;
               "" +:+ nl].
Proof.
  intros Hne Htag Hdates detail. split; [|split; [|split]].
  - destruct commits as [|c commits]; [done|].
    rewrite display_commits_summary, display_commit_list_eq by done.
    by rewrite add_log_add_log.
  - unfold summary_chunks, by_count_desc. rewrite !length_app, length_map.
    rewrite (Permutation_length (sort_desc_perm Nat.leb snd repo_commit_count)).
    cbn [length]. lia.
  - by apply length_detail_chunks.
  - intros k c Hk.
    destruct (detail_chunks_lookup strptime strftime commits 1 k c Htag Hdates Hk)
      as (r & d & Hr & Hd & Hentry).
    exists r, d. split; [done|]. split; [done|]. exact Hentry.
Qed.

Lemma console_report_numbers_six_lines_per_commit_witness :
  let detail := detail_chunks sample_strptime sample_strftime 1 interleaved_commits in
  display_commits sample_strptime sample_strftime interleaved_commits interleaved_counts emp
  = (Returned tt,
     add_log emp [] (summary_chunks interleaved_commits interleaved_counts ++ detail))
  /\ length detail = 6 * 3
  /\ take 6 (drop (6 * 1) detail)
     = ["2. [PRIVATE] [octocat/secret]" +:+ nl;
        "   SHA: 3333333" +:+ nl;
        "   Date: 2024-01-10 23:59" +:+ nl;
        "   Message: Rotate keys" +:+ nl;
        "   URL: https://github.com/commit/3333333ccccccc" +:+ nl;
        "" +:+ nl].
Proof.
  intros detail.
  assert (interleaved_commits <> []) as Hne by discriminate.
  destruct (console_report_numbers_six_lines_per_commit sample_strptime sample_strftime
              interleaved_commits interleaved_counts emp Hne interleaved_tagged
              interleaved_dates_parse) as (Hrun & _ & Hlen & _).
  split; [exact Hrun|]. split; [exact Hlen|]. vm_compute. reflexivity.
Defined.

(** ** The requests of a run *)

Section Sends.
Context (P : request -> Prop).

Lemma sends_only_quiet {A} (m : M A) :
  (∀ w, requests (m w).2 = requests w) -> sends_only P m.
Proof. intros H w. exists []. by rewrite H, app_nil_r. Qed.

Lemma sends_only_ret {A} (a : A) : sends_only P (mret a).
Proof. by apply sends_only_quiet. Qed.

Lemma sends_only_raise {A} e : sends_only P (@raise A e).
Proof. by apply sends_only_quiet. Qed.

Lemma sends_only_sys_exit {A} code : sends_only P (@sys_exit A code).
Proof. by apply sends_only_quiet. Qed.

Lemma sends_only_out_of_fuel {A} : sends_only P (@out_of_fuel A).
Proof. by apply sends_only_quiet. Qed.

Lemma sends_only_print_end s e : sends_only P (print_end s e).
Proof. by apply sends_only_quiet. Qed.

Lemma sends_only_print s : sends_only P (print s).
Proof. by apply sends_only_quiet. Qed.

Lemma sends_only_input prompt : sends_only P (input prompt).
Proof. apply sends_only_quiet. intros w. unfold input. by destruct (stdin w). Qed.

Lemma sends_only_fopen f : sends_only P (fopen f).
Proof. by apply sends_only_quiet. Qed.

Lemma sends_only_fwrite f s : sends_only P (fwrite f s).
Proof. by apply sends_only_quiet. Qed.

Lemma sends_only_http_get {A} (endpoint : request -> response A) r :
  P r -> sends_only P (http_get endpoint r).
Proof. intros Hr w. exists [r]. split; [done|]. by constructor. Qed.

Lemma sends_only_bind {A B} (m : M A) (k : A -> M B) :
  sends_only P m -> (∀ a, sends_only P (k a)) -> sends_only P (m ≫= k).
Proof.
  intros Hm Hk w. rewrite bind_eq. destruct (Hm w) as (r1 & H1 & HP1).
  destruct (m w) as [[a|e|c|] w1]; cbn [snd] in *; try by exists r1.
  destruct (Hk a w1) as (r2 & H2 & HP2). exists (r1 ++ r2).
  rewrite H2, H1, app_assoc. split; [done|]. by apply Forall_app.
Qed.

Lemma sends_only_for_each {A} (l : list A) (body : A -> M unit) :
  (∀ x, sends_only P (body x)) -> sends_only P (for_each l body).
Proof.
  intros Hbody. induction l as [|x l IH]; cbn [for_each]; [apply sends_only_ret|].
  by apply sends_only_bind.
Qed.

End Sends.

Lemma sends_only_mono {A} (P Q : request -> Prop) (m : M A) :
  (∀ r, P r -> Q r) -> sends_only P m -> sends_only Q m.
Proof.
  intros HPQ Hm w. destruct (Hm w) as (reqs & H & HP). exists reqs.
  split; [done|]. by eapply Forall_impl.
Qed.

Ltac sends :=
  repeat first
    [ apply sends_only_bind; [|intros ?]
    | apply sends_only_ret | apply sends_only_raise | apply sends_only_sys_exit
    | apply sends_only_out_of_fuel | apply sends_only_print | apply sends_only_print_end
    | apply sends_only_input | apply sends_only_fopen | apply sends_only_fwrite ].

Section SendsFetch.
Context (gh : github) (self : GitHubCommitsFetcher).

Lemma sends_only_get_all_repositories_loop : ∀ fuel acc page,
  sends_only (fun r => ∃ p, page <= p /\ r = repos_request self p)
    (get_all_repositories_loop gh fuel self acc page).
Proof.
  induction fuel as [|fuel IH]; intros acc page; cbn [get_all_repositories_loop].
  - apply sends_only_out_of_fuel.
  - apply sends_only_bind; [apply sends_only_http_get; by exists page|intros a].
    destruct (negb _).
    { apply sends_only_bind; [sends|intros _]. destruct (error_json a); sends. }
    destruct (json a); [sends|].
    destruct (_ <? _)%nat; [sends|].
    eapply sends_only_mono; [|apply IH]. intros req (p & Hp & ->). exists p.
    split; [lia|done].
Qed.

Lemma sends_only_get_all_repositories fuel :
  sends_only (fun r => ∃ p, 1 <= p /\ r = repos_request self p)
    (get_all_repositories gh fuel self).
Proof.
  unfold get_all_repositories.
  apply sends_only_bind; [sends|intros _].
  apply sends_only_bind; [apply sends_only_get_all_repositories_loop|intros repos].
  sends.
Qed.

Lemma sends_only_get_commits_loop url start_date end_date : ∀ fuel acc page,
  sends_only (fun r => ∃ p, page <= p /\ r = commits_request self url start_date end_date p)
    (get_commits_loop gh fuel self url start_date end_date acc page).
Proof.
  induction fuel as [|fuel IH]; intros acc page; cbn [get_commits_loop].
  - apply sends_only_out_of_fuel.
  - apply sends_only_bind; [apply sends_only_http_get; by exists page|intros a].
    destruct (negb _); [sends|].
    destruct (json a); [sends|].
    destruct (_ <? _)%nat; [sends|].
    eapply sends_only_mono; [|apply IH]. intros req (p & Hp & ->). exists p.
    split; [lia|done].
Qed.

Lemma sends_only_get_commits_from_repo fuel name start_date end_date :
  sends_only
    (fun r => ∃ owner repo p,
       1 <= p
       /\ r = commits_request self
                (base_url self +:+ "/repos/" +:+ owner +:+ "/" +:+ repo +:+ "/commits")
                start_date end_date p)
    (get_commits_from_repo gh fuel self name start_date end_date).
Proof.
  unfold get_commits_from_repo, commits_url.
  destruct (split "/" name) as [|owner [|repo [|? ?]]]; try apply sends_only_raise.
  eapply sends_only_mono; [|apply sends_only_get_commits_loop].
  intros req (p & Hp & ->). by exists owner, repo, p.
Qed.

Local Abbreviation fetch_request start_date end_date :=
  (fun r => (∃ p, 1 <= p /\ r = repos_request self p)
            \/ ∃ owner repo p,
                 1 <= p
                 /\ r = commits_request self
                          (base_url self +:+ "/repos/" +:+ owner +:+ "/" +:+ repo
                           +:+ "/commits")
                          start_date end_date p).

Lemma sends_only_fetch_repos_loop fuel start_date end_date total :
  ∀ todo i acc counts,
    sends_only (fetch_request start_date end_date)
      (fetch_repos_loop gh fuel self start_date end_date todo i total acc counts).
Proof.
  induction todo as [|repo todo IH]; intros i acc counts; cbn [fetch_repos_loop].
  - apply sends_only_ret.
  - apply sends_only_bind; [sends|intros _].
    apply sends_only_bind.
    + eapply sends_only_mono; [|apply sends_only_get_commits_from_repo].
      intros req H. by right.
    + intros commits. destruct commits; (apply sends_only_bind; [sends|intros _]); apply IH.
Qed.

Lemma sends_only_fetch_all_commits fuel start_date end_date :
  sends_only (fetch_request start_date end_date)
    (fetch_all_commits gh fuel self start_date end_date).
Proof.
  unfold fetch_all_commits.
  apply sends_only_bind.
  { eapply sends_only_mono; [|apply sends_only_get_all_repositories].
    intros req H. by left. }
  intros repos. apply sends_only_bind; [sends|intros _].
  apply sends_only_bind; [sends|intros _].
  apply sends_only_bind; [apply sends_only_fetch_repos_loop|intros [all cnt]].
  sends.
Qed.

End SendsFetch.

Section SendsReports.
Context (P : request -> Prop).
Context {datetime : Type} (strptime : string -> string -> option datetime).
Context (strftime : datetime -> string -> string).

Lemma sends_only_display_commit_list : ∀ commits i,
  sends_only P (display_commit_list strptime strftime i commits).
Proof.
  induction commits as [|c commits IH]; intros i; cbn [display_commit_list].
  - apply sends_only_ret.
  - apply sends_only_bind; [|intros _; apply IH].
    unfold display_commit. destruct (commit_repository c); [|sends].
    destruct (strptime _ _); sends.
Qed.

Lemma sends_only_display_commits commits cnt :
  sends_only P (display_commits strptime strftime commits cnt).
Proof.
  unfold display_commits. destruct commits as [|c commits]; [sends|].
  do 7 (apply sends_only_bind; [sends|intros _]).
  apply sends_only_bind.
  { apply sends_only_for_each. intros [repo count]. sends. }
  intros _. do 3 (apply sends_only_bind; [sends|intros _]).
  apply sends_only_display_commit_list.
Qed.

Lemma sends_only_export_to_csv commits f : sends_only P (export_to_csv commits f).
Proof.
  unfold export_to_csv. do 2 (apply sends_only_bind; [sends|intros _]).
  apply sends_only_bind; [|intros _; sends].
  apply sends_only_for_each. intros c. destruct (commit_repository c); sends.
Qed.

Lemma sends_only_markdown_commit_list f : ∀ commits current,
  sends_only P (markdown_commit_list strptime strftime f current commits).
Proof.
  induction commits as [|c commits IH]; intros current; cbn [markdown_commit_list].
  - apply sends_only_ret.
  - destruct (commit_repository c); [|sends].
    apply sends_only_bind; [destruct (negb _); sends|intros _].
    destruct (strptime _ _); [|sends].
    apply sends_only_bind; [sends|intros _]. apply IH.
Qed.

Lemma sends_only_export_to_markdown commits cnt start_date end_date f :
  sends_only P (export_to_markdown strptime strftime commits cnt start_date end_date f).
Proof.
  unfold export_to_markdown. do 6 (apply sends_only_bind; [sends|intros _]).
  apply sends_only_bind.
  { apply sends_only_for_each. intros [repo count]. sends. }
  intros _. apply sends_only_bind; [sends|intros _].
  apply sends_only_bind; [apply sends_only_markdown_commit_list|intros _]. sends.
Qed.

Lemma sends_only_export_menu commits cnt start_date end_date : ∀ fuel,
  sends_only P (export_menu strptime strftime fuel commits cnt start_date end_date).
Proof.
  induction fuel as [|fuel IH]; cbn [export_menu]; [sends|].
  do 5 (apply sends_only_bind; [sends|intros _]).
  apply sends_only_bind; [sends|intros line]. cbv zeta.
  destruct (String.eqb _ "1"); [apply sends_only_export_to_csv|].
  destruct (String.eqb _ "2"); [apply sends_only_export_to_markdown|].
  destruct (String.eqb _ "3").
  { apply sends_only_bind; [apply sends_only_export_to_csv|intros _].
    apply sends_only_export_to_markdown. }
  destruct (String.eqb _ "4"); [sends|].
  apply sends_only_bind; [sends|intros _]. apply IH.
Qed.

End SendsReports.

Lemma api_request_facts token username argv r :
  api_request token username argv r ->
  headers r = auth_headers token
  /\ String.prefix "https://api.github.com/" (url r) = true.
Proof.
  intros [->|[(page & _ & ->)|(prog & s & e & owner & repo & page & _ & _ & ->)]].
  - split; reflexivity.
  - split; reflexivity.
  - split; [reflexivity|].
    exact (prefix_app "https://api.github.com/"
             ("repos/" +:+ owner +:+ "/" +:+ repo +:+ "/commits")).
Qed.

(** X16.  The requests of a run of [main], whatever the configuration, the
    command line, the service and the input.  The log of requests only
    grows.  A request is sent exactly when token and user name are
    configured, and the first one is then the identity lookup that validates
    the token.  Every request is that lookup, a page (numbered from 1) of the
    repository listing with 100 per page and the three affiliations, or a
    page of the commits of some [owner/repo] with the configured user name
    as author and the window from the first date at 00:00:00Z to the second
    at 23:59:59Z; it goes to [https://api.github.com/] and carries the
    configured token in its [Authorization] header. *)
Theorem requests_go_to_the_api_with_the_token
    (gh : github) {datetime : Type} (strptime : string -> string -> option datetime)
    (strftime : datetime -> string -> string)
    (GITHUB_TOKEN USERNAME : option string) (argv : list string)
    (fuel : nat) (w : world) :
  let token := default "" GITHUB_TOKEN in
  let username := default "" USERNAME in
  ∃ reqs,
    requests (main gh strptime strftime GITHUB_TOKEN USERNAME argv fuel w).2
    = requests w ++ reqs
    /\ (reqs = [] <-> ~ configured GITHUB_TOKEN USERNAME)
    /\ (configured GITHUB_TOKEN USERNAME -> ∃ rest, reqs = user_request token :: rest)
    /\ Forall (fun r => api_request token username argv r
                        /\ headers r = [("Authorization", "token " +:+ token);
                                        ("Accept", "application/vnd.github.v3+json")]
                        /\ String.prefix "https://api.github.com/" (url r) = true) reqs.
Proof.
  intros token username.
  assert (Decision (configured GITHUB_TOKEN USERNAME)) as [Hcfg|Hcfg].
  { unfold configured. apply _. }
  - unfold main. do 4 step. rewrite (configured_check _ _ Hcfg).
    rewrite (bind_returned _ _ _ _ _ (mret_eq tt _)). step.
    rewrite (bind_returned _ _ _ _ _ (validate_token_eq _ _ _)).
    rewrite !add_log_add_log. cbn [app]. fold token. fold username.
    destruct (validation_result _) as [valid result].
    match goal with
    | |- context [requests (?rest (add_log w ?rq ?out)).2] =>
        assert (sends_only (api_request token username argv) rest) as Hrest;
        [|destruct (Hrest (add_log w rq out)) as (reqs & Hreqs & HP)]
    end.
    { apply sends_only_bind; [destruct (negb valid); sends|intros _].
      apply sends_only_bind; [sends|intros _].
      destruct argv as [|a0 [|s [|e [|? ?]]]]; try (sends; fail).
      apply sends_only_bind; [destruct (strptime s "%Y-%m-%d"), (strptime e "%Y-%m-%d"); sends|intros _].
      apply sends_only_bind.
      { eapply sends_only_mono; [|apply sends_only_fetch_all_commits].
        intros req [(p & Hp & ->)|(owner & repo & p & Hp & ->)].
        - right; left. by exists p.
        - right; right. by exists a0, s, e, owner, repo, p. }
      intros [commits cnt].
      apply sends_only_bind; [apply sends_only_display_commits|intros _].
      apply sends_only_bind; [|intros _; sends].
      destruct commits; [sends|].
      do 3 (apply sends_only_bind; [sends|intros _]). apply sends_only_export_menu. }
    exists (user_request token :: reqs). rewrite Hreqs. cbn [add_log requests].
    split; [by rewrite <- app_assoc|]. split; [split; [done|tauto]|].
    split; [by exists reqs|].
    constructor.
    + split; [by left|]. split; reflexivity.
    + eapply Forall_impl; [exact HP|]. intros req Hreq. split; [done|].
      by eapply api_request_facts.
  - destruct (main_not_configured gh strptime strftime GITHUB_TOKEN USERNAME argv fuel w Hcfg)
      as (out & ->).
    exists []. cbn [snd add_log requests]. split; [done|]. split; [done|].
    split; [tauto|constructor].
Qed.

Lemma requests_go_to_the_api_with_the_token_witness :
  let m := main interleaved_gh sample_strptime sample_strftime (Some "ghp_good")
             (Some "octocat") ["fetch_commits.py"; "2024-01-01"; "2024-01-31"] 3 emp in
  ∃ reqs,
    requests m.2 = requests emp ++ reqs
    /\ (reqs = [] <-> ~ configured (Some "ghp_good") (Some "octocat"))
    /\ (configured (Some "ghp_good") (Some "octocat") ->
        ∃ rest, reqs = user_request "ghp_good" :: rest)
    /\ Forall (fun r => api_request "ghp_good" "octocat"
                          ["fetch_commits.py"; "2024-01-01"; "2024-01-31"] r
                        /\ headers r = [("Authorization", "token " +:+ "ghp_good");
                                        ("Accept", "application/vnd.github.v3+json")]
                        /\ String.prefix "https://api.github.com/" (url r) = true) reqs.
Proof.
  exact (requests_go_to_the_api_with_the_token interleaved_gh sample_strptime
           sample_strftime (Some "ghp_good") (Some "octocat")
           ["fetch_commits.py"; "2024-01-01"; "2024-01-31"] 3 emp).
Defined.

(** ** Where a run can end *)

Section Exits.

Lemma never_exits_ret {A} (a : A) : never_exits (mret a : M A).
Proof. by intros w code. Qed.

Lemma never_exits_raise {A} e : never_exits (@raise A e).
Proof. by intros w code. Qed.

Lemma never_exits_out_of_fuel {A} : never_exits (@out_of_fuel A).
Proof. by intros w code. Qed.

Lemma never_exits_print_end s e : never_exits (print_end s e).
Proof. by intros w code. Qed.

Lemma never_exits_print s : never_exits (print s).
Proof. by intros w code. Qed.

Lemma never_exits_input prompt : never_exits (input prompt).
Proof. intros w code. unfold input. by destruct (stdin w). Qed.

Lemma never_exits_fopen f : never_exits (fopen f).
Proof. by intros w code. Qed.

Lemma never_exits_fwrite f s : never_exits (fwrite f s).
Proof. by intros w code. Qed.

Lemma never_exits_http_get {A} (endpoint : request -> response A) r :
  never_exits (http_get endpoint r).
Proof. by intros w code. Qed.

Lemma never_exits_bind {A B} (m : M A) (k : A -> M B) :
  never_exits m -> (∀ a, never_exits (k a)) -> never_exits (m ≫= k).
Proof.
  intros Hm Hk w code. rewrite bind_eq. specialize (Hm w).
  destruct (m w) as [[a|e|c|] w1]; cbn [fst] in *; try done.
  - apply Hk.
  - intros [= <-]. by apply (Hm c).
Qed.

Lemma never_exits_for_each {A} (l : list A) (body : A -> M unit) :
  (∀ x, never_exits (body x)) -> never_exits (for_each l body).
Proof.
  intros Hbody. induction l as [|x l IH]; cbn [for_each]; [apply never_exits_ret|].
  by apply never_exits_bind.
Qed.

End Exits.

Ltac stays :=
  repeat first
    [ apply never_exits_bind; [|intros ?]
    | apply never_exits_ret | apply never_exits_raise
    | apply never_exits_out_of_fuel | apply never_exits_print | apply never_exits_print_end
    | apply never_exits_input | apply never_exits_fopen | apply never_exits_fwrite
    | apply never_exits_http_get ].

Section ExitsOfTheScript.
Context (gh : github).
Context {datetime : Type} (strptime : string -> string -> option datetime).
Context (strftime : datetime -> string -> string).

Lemma never_exits_get_all_repositories_loop self : ∀ fuel acc page,
  never_exits (get_all_repositories_loop gh fuel self acc page).
Proof.
  induction fuel as [|fuel IH]; intros acc page; cbn [get_all_repositories_loop]; [stays|].
  apply never_exits_bind; [stays|intros a].
  destruct (negb _).
  { apply never_exits_bind; [stays|intros _]. destruct (error_json a); stays. }
  destruct (json a); [stays|].
  destruct (_ <? _)%nat; [stays | apply IH].
Qed.

Lemma never_exits_get_commits_loop self url start_date end_date : ∀ fuel acc page,
  never_exits (get_commits_loop gh fuel self url start_date end_date acc page).
Proof.
  induction fuel as [|fuel IH]; intros acc page; cbn [get_commits_loop]; [stays|].
  apply never_exits_bind; [stays|intros a].
  destruct (negb _); [stays|]. destruct (json a); [stays|].
  destruct (_ <? _)%nat; [stays | apply IH].
Qed.

Lemma never_exits_fetch_repos_loop fuel self start_date end_date total :
  ∀ todo i acc counts,
    never_exits (fetch_repos_loop gh fuel self start_date end_date todo i total acc counts).
Proof.
  induction todo as [|repo todo IH]; intros i acc counts; cbn [fetch_repos_loop]; [stays|].
  apply never_exits_bind; [stays|intros _].
  apply never_exits_bind.
  - unfold get_commits_from_repo.
    destruct (commits_url self _); [apply never_exits_get_commits_loop | stays].
  - intros commits. destruct commits; (apply never_exits_bind; [stays|intros _]); apply IH.
Qed.

Lemma never_exits_fetch_all_commits fuel self start_date end_date :
  never_exits (fetch_all_commits gh fuel self start_date end_date).
Proof.
  unfold fetch_all_commits, get_all_repositories.
  apply never_exits_bind.
  { apply never_exits_bind; [stays|intros _].
    apply never_exits_bind; [apply never_exits_get_all_repositories_loop|intros repos].
    stays. }
  intros repos. do 2 (apply never_exits_bind; [stays|intros _]).
  apply never_exits_bind; [apply never_exits_fetch_repos_loop|intros [all cnt]]. stays.
Qed.

Lemma never_exits_display_commits commits cnt :
  never_exits (display_commits strptime strftime commits cnt).
Proof.
  assert (∀ l i, never_exits (display_commit_list strptime strftime i l)) as Hlist.
  { induction l as [|c l IH]; intros i; cbn [display_commit_list]; [stays|].
    apply never_exits_bind; [|intros _; apply IH].
    unfold display_commit. destruct (commit_repository c); [|stays].
    destruct (strptime _ _); stays. }
  unfold display_commits. destruct commits as [|c commits]; [stays|].
  do 7 (apply never_exits_bind; [stays|intros _]).
  apply never_exits_bind.
  { apply never_exits_for_each. intros [repo count]. stays. }
  intros _. do 3 (apply never_exits_bind; [stays|intros _]). apply Hlist.
Qed.

Lemma never_exits_export_to_csv commits f : never_exits (export_to_csv commits f).
Proof.
  unfold export_to_csv. do 2 (apply never_exits_bind; [stays|intros _]).
  apply never_exits_bind; [|intros _; stays].
  apply never_exits_for_each. intros c. destruct (commit_repository c); stays.
Qed.

Lemma never_exits_export_to_markdown commits cnt start_date end_date f :
  never_exits (export_to_markdown strptime strftime commits cnt start_date end_date f).
Proof.
  assert (∀ l current,
            never_exits (markdown_commit_list strptime strftime f current l)) as Hlist.
  { induction l as [|c l IH]; intros current; cbn [markdown_commit_list]; [stays|].
    destruct (commit_repository c); [|stays].
    apply never_exits_bind; [destruct (negb _); stays|intros _].
    destruct (strptime _ _); [|stays].
    apply never_exits_bind; [stays|intros _]. apply IH. }
  unfold export_to_markdown. do 6 (apply never_exits_bind; [stays|intros _]).
  apply never_exits_bind.
  { apply never_exits_for_each. intros [repo count]. stays. }
  intros _. apply never_exits_bind; [stays|intros _].
  apply never_exits_bind; [apply Hlist|intros _]. stays.
Qed.

Lemma never_exits_export_menu commits cnt start_date end_date : ∀ fuel,
  never_exits (export_menu strptime strftime fuel commits cnt start_date end_date).
Proof.
  induction fuel as [|fuel IH]; cbn [export_menu]; [stays|].
  do 5 (apply never_exits_bind; [stays|intros _]).
  apply never_exits_bind; [stays|intros line]. cbv zeta.
  destruct (String.eqb _ "1"); [apply never_exits_export_to_csv|].
  destruct (String.eqb _ "2"); [apply never_exits_export_to_markdown|].
  destruct (String.eqb _ "3").
  { apply never_exits_bind; [apply never_exits_export_to_csv|intros _].
    apply never_exits_export_to_markdown. }
  destruct (String.eqb _ "4"); [stays|].
  apply never_exits_bind; [stays|intros _]. apply IH.
Qed.

Lemma never_exits_after_the_checks fuel fetcher start_date end_date :
  never_exits
    ('(commits, cnt) ← fetch_all_commits gh fuel fetcher start_date end_date;
     display_commits strptime strftime commits cnt;;
     match commits with
     | _ :: _ =>
         print (nl +:+ repeat_str "=" 80);;
         print "EXPORT OPTIONS";;
         print (repeat_str "=" 80);;
         export_menu strptime strftime fuel commits cnt start_date end_date
     | [] => mret tt
     end;;
     print (nl +:+ "Done!")).
Proof.
  apply never_exits_bind; [apply never_exits_fetch_all_commits|intros [commits cnt]].
  apply never_exits_bind; [apply never_exits_display_commits|intros _].
  apply never_exits_bind; [|intros _; stays].
  destruct commits; [stays|].
  do 3 (apply never_exits_bind; [stays|intros _]). apply never_exits_export_menu.
Qed.

End ExitsOfTheScript.

Lemma arguments_bad_or_good {datetime : Type}
    (strptime : string -> string -> option datetime) (argv : list string) :
  (~ two_arguments argv \/ malformed_dates strptime argv)
  \/ (∃ prog start_date end_date,
        argv = [prog; start_date; end_date]
        /\ is_Some (strptime start_date "%Y-%m-%d")
        /\ is_Some (strptime end_date "%Y-%m-%d")).
Proof.
  unfold two_arguments.
  destruct argv as [|prog [|s [|e [|? ?]]]]; try (left; left; simpl; lia).
  destruct (strptime s "%Y-%m-%d") as [ds|] eqn:Hs.
  - destruct (strptime e "%Y-%m-%d") as [de|] eqn:He.
    + right. exists prog, s, e. rewrite Hs, He. by eauto.
    + left. right. exists prog, s, e. by eauto.
  - left. right. exists prog, s, e. by eauto.
Qed.

(** X17.  [sys.exit] is reached in three places only, all of them before the
    fetch, and always with code 1: [main] ends in [sys.exit(code)] exactly
    when [code] is 1 and the configuration is missing, or the token is not
    answered with 200, or the command line does not have two arguments, or
    one of the two dates does not parse.  At such an end nothing has been
    read from stdin, no file has been written, and no request other than the
    identity lookup has been sent.  After the checks the run can only
    return, end with an exception, or go on. *)
Theorem sys_exit_only_for_configuration_token_or_arguments
    (gh : github) {datetime : Type} (strptime : string -> string -> option datetime)
    (strftime : datetime -> string -> string)
    (GITHUB_TOKEN USERNAME : option string) (argv : list string)
    (fuel : nat) (w : world) :
  let token := default "" GITHUB_TOKEN in
  let r := user_endpoint gh (user_request token) in
  let m := main gh strptime strftime GITHUB_TOKEN USERNAME argv fuel w in
  (∀ code,
     m.1 = Exited code <->
     code = 1
     /\ (~ configured GITHUB_TOKEN USERNAME \/ status_code r <> 200
         \/ ~ two_arguments argv \/ malformed_dates strptime argv))
  /\ (∀ code, m.1 = Exited code ->
        stdin m.2 = stdin w /\ files m.2 = files w
        /\ (requests m.2 = requests w \/ requests m.2 = requests w ++ [user_request token])).
Proof.
  intros token r m.
  assert (Decision (configured GITHUB_TOKEN USERNAME)) as [Hcfg|Hcfg].
  { unfold configured. apply _. }
  2: { destruct (main_not_configured gh strptime strftime GITHUB_TOKEN USERNAME argv fuel w
                   Hcfg) as (out & Hm).
       subst m. rewrite Hm. cbn [fst snd add_log stdin files requests]. split.
       - intros code. split; [intros [= <-]; by auto | by intros [-> _]].
       - intros code _. rewrite app_nil_r. by auto. }
  destruct (decide (status_code r = 200)) as [Hst|Hst].
  2: { subst m. rewrite (main_token_refused gh strptime strftime _ _ argv fuel w Hcfg Hst).
       cbn [fst snd add_log stdin files requests]. split.
       - intros code. split; [intros [= <-]; by auto | by intros [-> _]].
       - intros code _. by auto. }
  destruct (arguments_bad_or_good strptime argv)
    as [Hbad|(prog & s & e & -> & Hs & He)].
  - subst m. rewrite (main_bad_arguments gh strptime strftime _ _ argv fuel w Hcfg Hst Hbad).
    unfold after_validation. cbn [fst snd add_log stdin files requests]. split.
    + intros code. split; [intros [= <-]; split; [done|tauto] | by intros [-> _]].
    + intros code _. rewrite app_nil_r. by auto.
  - assert (∀ code, m.1 <> Exited code) as Hnever.
    { intros code. subst m.
      rewrite (main_fetches gh strptime strftime _ _ prog s e fuel w Hcfg Hst Hs He).
      apply never_exits_after_the_checks. }
    split.
    + intros code. split; [intros H; by destruct (Hnever code)|].
      intros (_ & [H|[H|[H|(p' & s' & e' & Heq & H)]]]).
      * destruct (H Hcfg).
      * destruct (H Hst).
      * destruct H. reflexivity.
      * injection Heq as <- <- <-.
        destruct H as [H|H]; [destruct Hs as [? Hs] | destruct He as [? He]]; congruence.
    + intros code H. by destruct (Hnever code).
Qed.

Lemma sys_exit_only_for_configuration_token_or_arguments_witness :
  let m := main interleaved_gh sample_strptime sample_strftime (Some "ghp_good")
             (Some "octocat") ["fetch_commits.py"; "2024-01-01"; "January 31"] 3 emp in
  malformed_dates sample_strptime ["fetch_commits.py"; "2024-01-01"; "January 31"]
  /\ m.1 = Exited 1
  /\ stdin m.2 = stdin emp /\ files m.2 = files emp
  /\ (requests m.2 = requests emp
      \/ requests m.2 = requests emp ++ [user_request "ghp_good"]).
Proof.
  intros m.
  assert (malformed_dates sample_strptime ["fetch_commits.py"; "2024-01-01"; "January 31"])
    as Hbad.
  { exists "fetch_commits.py", "2024-01-01", "January 31". split; [done|]. right.
    vm_compute. reflexivity. }
  destruct (sys_exit_only_for_configuration_token_or_arguments interleaved_gh
              sample_strptime sample_strftime (Some "ghp_good") (Some "octocat")
              ["fetch_commits.py"; "2024-01-01"; "January 31"] 3 emp) as [Hiff Hframe].
  assert (m.1 = Exited 1) as Hexit.
  { apply (proj2 (Hiff 1)). split; [reflexivity|]. right. right. right. exact Hbad. }
  split; [exact Hbad|]. split; [exact Hexit|]. exact (Hframe 1 Hexit).
Defined.

(** ** An export that fails *)

Lemma export_rows_stop f c rest : ∀ good w pre,
  all_tagged good -> commit_repository c = None ->
  for_each (good ++ c :: rest)
    (fun commit =>
       match commit_repository commit with
       | None => raise KeyError
       | Some repository => fwrite f (Csv.writerow (csv_row commit repository))
       end) (append_file w f pre)
  = (Raised KeyError,
     append_file w f (pre ++ map (fun c => Csv.writerow (row_of c)) good)).
Proof.
  induction good as [|c0 good IH]; intros w pre Htag Hc.
  - cbn [app for_each map]. rewrite Hc, bind_eq. by rewrite app_nil_r.
  - apply Forall_cons in Htag as [[r Hr] Htag].
    cbn [app for_each map]. unfold row_of at 1. rewrite Hr. fstep.
    rewrite append_file_append_file, IH by done. by rewrite <- app_assoc.
Qed.

(** X18.  [export_to_csv] on a list in which some commit has no repository
    reference: the file is opened (and so emptied), the header and the rows
    of the commits before the first such commit are written, then the
    subscript raises [KeyError].  Nothing catches it, the line that
    announces the export is not printed, and the file stays as it is at that
    point: read back, it holds the header and one row for each commit
    before the failing one. *)
Theorem csv_export_stops_at_a_commit_without_repository
    (good : list commit) (c : commit) (rest : list commit)
    (filename : string) (w : world) :
  all_tagged good ->
  commit_repository c = None ->
  let m := export_to_csv (good ++ c :: rest) filename w in
  let chunks := map Csv.writerow (fieldnames :: map row_of good) in
  m.1 = Raised KeyError
  /\ files m.2 = <[filename := chunks]> (files w)
  /\ Csv.read (file_text chunks) = Some (fieldnames :: map row_of good)
  /\ stdout m.2 = stdout w
  /\ requests m.2 = requests w.
Proof.
  intros Htag Hc m chunks.
  assert (m = (Raised KeyError, append_file (truncate_file w filename) filename chunks))
    as ->.
  { subst m chunks. unfold export_to_csv. do 2 fstep.
    rewrite bind_eq, (export_rows_stop filename c rest good _ _ Htag Hc).
    cbn [map app]. by rewrite map_map. }
  cbn [fst snd]. split; [done|]. split; [apply files_written|].
  split; [apply CsvFacts.read_rows|]. done.
Qed.

Lemma csv_export_stops_at_a_commit_without_repository_witness :
  let m := export_to_csv (interleaved_commits ++ c_undated :: [c_jan05]) "report.csv" emp in
  let chunks := map Csv.writerow (fieldnames :: map row_of interleaved_commits) in
  commit_repository c_undated = None
  /\ m.1 = Raised KeyError
  /\ files m.2 = <["report.csv" := chunks]> (files emp)
  /\ Csv.read (file_text chunks) = Some (fieldnames :: map row_of interleaved_commits)
  /\ stdout m.2 = stdout emp
  /\ requests m.2 = requests emp.
Proof.
  split; [reflexivity|].
  exact (csv_export_stops_at_a_commit_without_repository interleaved_commits c_undated
           [c_jan05] "report.csv" emp interleaved_tagged eq_refl).
Defined.

(** ** The fields of the reports *)

Lemma first_piece_split c s :
  ∃ rest, s = first_piece c s +:+ rest /\ (rest = "" \/ ∃ t, rest = String c t).
Proof.
  unfold first_piece. induction s as [|a s IH].
  - exists "". by auto.
  - cbn [split]. destruct (Ascii.eqb a c) eqn:Ha.
    + apply Ascii.eqb_eq in Ha as ->. exists (String c s). by eauto.
    + destruct IH as (rest & Hs & Hrest).
      pose proof (split_not_nil c s) as Hne.
      destruct (split c s) as [|piece pieces]; [done|].
      exists rest. rewrite append_cons, <- Hs. by auto.
Qed.

Lemma first_piece_whole c s : occurs c s = false -> first_piece c s = s.
Proof.
  unfold first_piece. induction s as [|a s IH]; [done|].
  cbn [occurs split]. intros [Ha Hs]%orb_false_iff. rewrite Ha.
  specialize (IH Hs). pose proof (split_not_nil c s) as Hne.
  destruct (split c s) as [|piece pieces]; [done|]. by rewrite IH.
Qed.

Lemma replace_whole c by_ s : occurs c s = false -> replace c by_ s = s.
Proof.
  induction s as [|a s IH]; [done|].
  cbn [occurs replace]. intros [Ha Hs]%orb_false_iff. by rewrite Ha, IH.
Qed.

Lemma length_replace_newline s :
  String.length (replace LF " | " s) = String.length s + 2 * occurrences LF s.
Proof.
  induction s as [|a s IH]; [done|]. cbn [replace occurrences].
  destruct (Ascii.eqb a LF).
  - rewrite !append_cons. change ("" +:+ replace LF " | " s) with (replace LF " | " s).
    cbn [String.length]. rewrite IH. lia.
  - cbn [String.length]. rewrite IH. lia.
Qed.

Lemma slice_to_split : ∀ n s,
  ∃ rest, s = slice_to n s +:+ rest
          /\ String.length (slice_to n s) = Nat.min n (String.length s).
Proof.
  unfold slice_to. induction n as [|n IH]; intros s.
  - exists s. by destruct s.
  - destruct s as [|a s]; [by exists ""|].
    destruct (IH s) as (rest & Hs & Hlen). exists rest.
    cbn [substring String.length Nat.min]. rewrite append_cons, <- Hs, Hlen. done.
Qed.

(** X19.  The three abbreviations the reports make of a commit.  The
    message shown on the console and in the Markdown report is the message
    up to its first line feed, and the whole message when it has none; the
    message of the CSV row is the message with every line feed replaced by
    the three characters [ | ], so two characters longer for each line feed
    and without any; the hash shown is the first seven characters of the
    hash, or the whole hash when it is shorter. *)
Theorem report_fields_abbreviate_the_commit (c : commit) :
  let first_line := first_piece LF (message c) in
  let flat := replace LF " | " (message c) in
  let short := slice_to 7 (sha c) in
  (∃ rest, message c = first_line +:+ rest /\ (rest = "" \/ ∃ t, rest = String LF t))
  /\ occurs LF first_line = false
  /\ (occurs LF (message c) = false -> first_line = message c /\ flat = message c)
  /\ occurs LF flat = false
  /\ String.length flat = String.length (message c) + 2 * occurrences LF (message c)
  /\ (∃ rest, sha c = short +:+ rest)
  /\ String.length short = Nat.min 7 (String.length (sha c)).
Proof.
  intros first_line flat short.
  split; [apply first_piece_split|]. split; [apply single_line_first_piece|].
  split; [intros H; split; [by apply first_piece_whole | by apply replace_whole]|].
  split; [apply occurs_replace_newline|]. split; [apply length_replace_newline|].
  destruct (slice_to_split 7 (sha c)) as (rest & Hs & Hlen).
  split; [by exists rest | exact Hlen].
Qed.

Lemma report_fields_abbreviate_the_commit_witness :
  first_piece LF (message c_jan05) = "Add greeting"
  /\ replace LF " | " (message c_jan05) = "Add greeting |  | With a body, and a comma"
  /\ slice_to 7 (sha c_jan05) = "1111111"
  /\ (occurs LF (message c_jan20) = false ->
      first_piece LF (message c_jan20) = message c_jan20
      /\ replace LF " | " (message c_jan20) = message c_jan20).
Proof.
  split; [reflexivity|]. split; [reflexivity|]. split; [reflexivity|].
  exact (proj1 (proj2 (proj2 (report_fields_abbreviate_the_commit c_jan20)))).
Defined.

(** ** The order of the fetch *)

Section Sequence.
Context (gh : github) (self : GitHubCommitsFetcher) (fuel : nat).
Context (start_date end_date : string).

Lemma get_commits_loop_silent url : ∀ fuel' acc page w,
  stdout (get_commits_loop gh fuel' self url start_date end_date acc page w).2 = stdout w.
Proof.
  induction fuel' as [|fuel' IH]; intros acc page w; cbn [get_commits_loop]; [done|].
  rewrite (bind_returned _ _ _ _ _ (http_get_eq _ _ _)).
  assert (∀ l, stdout ((mret l : M (list commit)) (add_log w
            [commits_request self url start_date end_date page] [])).2 = stdout w) as Hret.
  { intros l. rewrite mret_eq. cbn [snd add_log stdout]. by rewrite app_nil_r. }
  destruct (negb _); [apply Hret|]. destruct (json _); [apply Hret|].
  destruct (_ <? _)%nat; [apply Hret|].
  rewrite IH. cbn [add_log stdout]. by rewrite app_nil_r.
Qed.

(** A fetch that returns logs its requests and prints nothing. *)
Lemma get_commits_from_repo_trace repo l :
  fetched_from gh fuel self start_date end_date repo l ->
  ∀ w, get_commits_from_repo gh fuel self (full_name repo) start_date end_date w
       = (Returned l, add_log w (repo_requests gh fuel self start_date end_date repo) []).
Proof.
  intros Hl w.
  destruct (log_only_get_commits_from_repo gh self fuel start_date end_date
              (full_name repo)) as (o & reqs & out & Hrun).
  assert (o = Returned l) as ->.
  { specialize (Hl emp). by rewrite Hrun in Hl. }
  assert (out = []) as ->.
  { assert (stdout (get_commits_from_repo gh fuel self (full_name repo)
                      start_date end_date emp).2 = []) as Hout.
    { unfold get_commits_from_repo. destruct (commits_url self (full_name repo)); [|done].
      by rewrite get_commits_loop_silent. }
    by rewrite Hrun in Hout. }
  unfold repo_requests. by rewrite Hrun, (Hrun emp).
Qed.

Lemma fetch_repos_loop_trace total : ∀ todo lists i acc counts w,
  Forall2 (fetched_from gh fuel self start_date end_date) todo lists ->
  fetch_repos_loop gh fuel self start_date end_date todo i total acc counts w
  = (Returned (acc ++ concat (zip_with tagged todo lists), counted todo lists counts),
     add_log w (concat (map (repo_requests gh fuel self start_date end_date) todo))
       (progress_chunks i total todo lists)).
Proof.
  induction todo as [|repo todo IH]; intros lists i acc counts w Hall.
  - apply Forall2_nil_inv_l in Hall as ->. cbn. by rewrite app_nil_r, add_log_nil.
  - apply Forall2_cons_inv_l in Hall as (l & lists' & Hl & Hall & ->).
    rewrite (fetch_repos_loop_turn gh self fuel start_date end_date repo todo i total
               acc counts w l _ [] (get_commits_from_repo_trace repo l Hl)).
    rewrite (IH lists' _ _ _ _ Hall), add_log_add_log.
    cbn [zip_with concat counted map progress_chunks app].
    by rewrite <- app_assoc.
Qed.

Lemma progress_chunks_lookup total : ∀ repos lists i k repo l,
  repos !! k = Some repo -> lists !! k = Some l ->
  progress_chunks i total repos lists !! (2 * k) = Some (progress_chunk (i + k) total repo)
  /\ progress_chunks i total repos lists !! S (2 * k) = Some (count_chunk (length l)).
Proof.
  induction repos as [|r0 repos IH]; intros lists i k repo l Hr Hl; [done|].
  destruct lists as [|l0 lists]; [done|]. cbn [progress_chunks].
  destruct k as [|k]; simpl in Hr, Hl.
  - injection Hr as ->. injection Hl as ->. by rewrite Nat.add_0_r.
  - replace (2 * S k) with (S (S (2 * k))) by lia.
    replace (i + S k) with (S i + k) by lia. cbn [lookup list_lookup].
    by apply IH.
Qed.

End Sequence.

(** X20.  [fetch_all_commits] works through the repositories one at a time,
    in the order of the listing.  After the requests of the listing come,
    for one repository after the other, all the requests of its pages:
    no request for a repository is sent before those of the repositories
    listed before it.  The output after that of the listing is the two lines
    that announce the fetch and then two chunks per repository: its number
    (from 1) out of the number of repositories with its label and name, and
    the number of commits fetched for it, 0 included.  Fetching the commits
    prints nothing else, reads nothing and writes no file. *)
Theorem repositories_are_fetched_one_by_one_in_listing_order
    (gh : github) (fuel : nat) (self : GitHubCommitsFetcher)
    (start_date end_date : string) (w w' : world)
    (commits : list commit) (repo_commit_count : dict nat) :
  fetch_all_commits gh fuel self start_date end_date w
    = (Returned (commits, repo_commit_count), w') ->
  ∃ repos lists w1,
    get_all_repositories gh fuel self w = (Returned repos, w1)
    /\ Forall2 (fetched_from gh fuel self start_date end_date) repos lists
    /\ w' = add_log w1
              (concat (map (fun repo =>
                              requests (get_commits_from_repo gh fuel self (full_name repo)
                                          start_date end_date emp).2) repos))
              (fetching_chunks start_date end_date
               ++ progress_chunks 1 (length repos) repos lists)
    /\ (∀ k repo l, repos !! k = Some repo -> lists !! k = Some l ->
          progress_chunks 1 (length repos) repos lists !! (2 * k)
          = Some (("[" +:+ str_of_nat (1 + k) +:+ "/" +:+ str_of_nat (length repos) +:+ "] "
                   +:+ (if private repo then "[PRIVATE]" else "[PUBLIC]")
                   +:+ " " +:+ full_name repo +:+ "...") +:+ " ")
          /\ progress_chunks 1 (length repos) repos lists !! S (2 * k)
             = Some (("✓ " +:+ str_of_nat (length l) +:+ " commits") +:+ nl))
    /\ stdin w' = stdin w /\ files w' = files w.
Proof.
  intros Hrun.
  pose proof (log_only_frame _ w (log_only_fetch_all_commits gh self fuel
                                    start_date end_date)) as [Hin Hfiles].
  rewrite Hrun in Hin, Hfiles.
  unfold fetch_all_commits in Hrun.
  apply bind_inv in Hrun as (repos & w1 & Hrepos & Hrun).
  do 2 rewrite (bind_returned _ _ _ _ _ (print_eq _ _)) in Hrun.
  apply bind_inv in Hrun as ([all cnt] & w4 & Hloop & Hrun).
  injection Hrun as <- <- <-.
  pose proof Hloop as Hinv.
  apply fetch_repos_loop_inv in Hinv as (lists & Hall & _ & _).
  rewrite (fetch_repos_loop_trace gh self fuel start_date end_date _ _ _ _ _ _ _ Hall)
    in Hloop.
  injection Hloop as _ _ <-.
  exists repos, lists, w1. split; [done|]. split; [done|].
  split; [by rewrite !add_log_add_log|]. split; [|done].
  intros k repo l Hr Hl.
  exact (progress_chunks_lookup (length repos) repos lists 1 k repo l Hr Hl).
Qed.

Lemma repositories_are_fetched_one_by_one_in_listing_order_witness :
  let run := fetch_all_commits interleaved_gh 3 sample_fetcher "2024-01-01" "2024-01-31" emp in
  let url name := "https://api.github.com/repos/octocat/" +:+ name +:+ "/commits" in
  requests run.2
  = [repos_request sample_fetcher 1;
     commits_request sample_fetcher (url "hello") "2024-01-01" "2024-01-31" 1;
     commits_request sample_fetcher (url "secret") "2024-01-01" "2024-01-31" 1]
  /\ ∃ repos lists w1,
       get_all_repositories interleaved_gh 3 sample_fetcher emp = (Returned repos, w1)
       /\ Forall2 (fetched_from interleaved_gh 3 sample_fetcher "2024-01-01" "2024-01-31")
            repos lists
       /\ run.2 = add_log w1
                    (concat (map (fun repo =>
                                    requests (get_commits_from_repo interleaved_gh 3
                                                sample_fetcher (full_name repo)
                                                "2024-01-01" "2024-01-31" emp).2) repos))
                    (fetching_chunks "2024-01-01" "2024-01-31"
                     ++ progress_chunks 1 (length repos) repos lists).
Proof.
  intros run url. split; [vm_compute; reflexivity|].
  destruct (repositories_are_fetched_one_by_one_in_listing_order interleaved_gh 3
              sample_fetcher "2024-01-01" "2024-01-31" emp _ interleaved_commits
              interleaved_counts interleaved_run)
    as (repos & lists & w1 & Hrepos & Hall & Hw & _).
  exists repos, lists, w1. split; [exact Hrepos|]. split; [exact Hall | exact Hw].
Defined.

(** ** A repository that cannot be read *)

(** C4.  When the request for a page of a repository's commits is answered
    with a status other than 200 (after any number of full pages),
    [get_commits_from_repo] returns normally, with the commits of the pages
    before it (none when the first page fails) and without printing
    anything: the failure is not reported.  The loop of [fetch_all_commits]
    is not ended by it: it goes through the remaining repositories, sends
    the requests of each of them after those of the failing one, and
    returns; the aggregate holds the commits collected from the failing
    repository and, after them, those of every remaining repository, tagged,
    and the count mapping and the progress lines cover them all. *)
Theorem non_200_abandons_one_repository_only
    (gh : github) (self : GitHubCommitsFetcher) (fuel : nat) (w : world)
    (repo : repository) (url start_date end_date : string)
    (full : list (list commit))
    (todo : list repository) (lists : list (list commit)) (i total : nat)
    (all_commits : list commit) (repo_commit_count : dict nat) :
  commits_url self (full_name repo) = Some url ->
  Forall full_page full ->
  serves (commits_endpoint gh) (commits_request self url start_date end_date) full ->
  status_code (commits_endpoint gh
                 (commits_request self url start_date end_date (S (length full)))) <> 200 ->
  length full < fuel ->
  Forall2 (fetched_from gh fuel self start_date end_date) todo lists ->
  let reqs := map (commits_request self url start_date end_date) (seq 1 (S (length full))) in
  let collected := concat full in
  let loop := fetch_repos_loop gh fuel self start_date end_date (repo :: todo) i total
                all_commits repo_commit_count w in
  get_commits_from_repo gh fuel self (full_name repo) start_date end_date w
    = (Returned collected, add_log w reqs [])
  /\ loop
     = (Returned (all_commits ++ tagged repo collected ++ concat (zip_with tagged todo lists),
                  counted (repo :: todo) (collected :: lists) repo_commit_count),
        add_log w
          (reqs ++ concat (map (fun r =>
                                  requests (get_commits_from_repo gh fuel self (full_name r)
                                              start_date end_date emp).2) todo))
          (progress_chunk i total repo :: count_chunk (length collected)
           :: progress_chunks (S i) total todo lists))
  /\ (∀ k r l, todo !! k = Some r -> lists !! k = Some l ->
        (∀ c, c ∈ l ->
           ∃ commits counts, loop.1 = Returned (commits, counts)
                             /\ set_repository c (ref_of r) ∈ commits)
        /\ progress_chunks (S i) total todo lists !! S (2 * k)
           = Some (count_chunk (length l))).
Proof.
  intros Hurl Hfull Hsrv Hst Hfuel Hall reqs collected loop.
  assert (∀ w0, get_commits_from_repo gh fuel self (full_name repo) start_date end_date w0
                = (Returned collected, add_log w0 reqs [])) as Hget.
  { intros w0. by apply get_commits_from_repo_error. }
  assert (loop
          = (Returned (all_commits ++ tagged repo collected
                       ++ concat (zip_with tagged todo lists),
                       counted (repo :: todo) (collected :: lists) repo_commit_count),
             add_log w
               (reqs ++ concat (map (repo_requests gh fuel self start_date end_date) todo))
               (progress_chunk i total repo :: count_chunk (length collected)
                :: progress_chunks (S i) total todo lists))) as Hloop.
  { subst loop.
    rewrite (fetch_repos_loop_turn gh self fuel start_date end_date repo todo i total
               all_commits repo_commit_count w collected reqs [] Hget).
    rewrite (fetch_repos_loop_trace gh self fuel start_date end_date total todo lists
               _ _ _ _ Hall).
    rewrite add_log_add_log. cbn [app counted]. by rewrite <- app_assoc. }
  split; [apply Hget|]. split; [exact Hloop|].
  intros k r l Hr Hl. split.
  - intros c Hc. rewrite Hloop. eexists _, _. split; [reflexivity|].
    apply elem_of_app. right. apply elem_of_app. right.
    apply list_elem_of_In, in_concat. exists (tagged r l). split.
    + apply list_elem_of_In. apply (list_elem_of_lookup_2 _ k).
      apply lookup_zip_with_Some. by exists r, l.
    + apply list_elem_of_In. unfold tagged. apply list_elem_of_fmap. by exists c.
  - by apply (progress_chunks_lookup total todo lists (S i) k r l).
Qed.

Lemma non_200_abandons_one_repository_only_witness :
  let url := "https://api.github.com/repos/octocat/flaky/commits" in
  let hello := "https://api.github.com/repos/octocat/hello/commits" in
  let full := [replicate 100 c_flaky] in
  let reqs := map (commits_request sample_fetcher url "2024-01-01" "2024-01-31") (seq 1 2) in
  let loop := fetch_repos_loop sample_gh 5 sample_fetcher "2024-01-01" "2024-01-31"
                [repo_flaky; repo_hello] 1 2 [] [] emp in
  status_code (commits_endpoint sample_gh
                 (commits_request sample_fetcher url "2024-01-01" "2024-01-31" 2)) = 502
  /\ get_commits_from_repo sample_gh 5 sample_fetcher "octocat/flaky"
       "2024-01-01" "2024-01-31" emp
     = (Returned (concat full), add_log emp reqs [])
  /\ loop.1 = Returned (tagged repo_flaky (replicate 100 c_flaky)
                        ++ tagged repo_hello [c_jan05; c_jan20],
                        [("octocat/flaky", 100); ("octocat/hello", 2)])
  /\ requests loop.2
     = reqs ++ map (commits_request sample_fetcher hello "2024-01-01" "2024-01-31") (seq 1 1)
  /\ stdout loop.2
     = [progress_chunk 1 2 repo_flaky; count_chunk 100;
        progress_chunk 2 2 repo_hello; count_chunk 2].
Proof.
  intros url hello full reqs loop. split; [reflexivity|].
  assert (Forall2 (fetched_from sample_gh 5 sample_fetcher "2024-01-01" "2024-01-31")
            [repo_hello] [[c_jan05; c_jan20]]) as Hall.
  { constructor; [|constructor]. apply fetched_from_emp. vm_compute. reflexivity. }
  destruct (non_200_abandons_one_repository_only sample_gh sample_fetcher 5 emp
              repo_flaky url "2024-01-01" "2024-01-31" full [repo_hello]
              [[c_jan05; c_jan20]] 1 2 [] []) as (Hget & Hloop & _).
  - reflexivity.
  - constructor; [unfold full_page; vm_compute; lia | constructor].
  - intros [|i] p Hp; simplify_eq/=; by vm_compute.
  - vm_compute. lia.
  - vm_compute. lia.
  - exact Hall.
  - split; [exact Hget|]. fold loop in Hloop. rewrite Hloop.
    split; [reflexivity|]. split; [vm_compute; reflexivity | reflexivity].
Defined.
